(** * Lead generation tool: the search / relevance / refinement controller

    A shallow embedding of [src/main.py] (class [EnhancedLeadGenerationTool])
    and the properties of its controller [generate_leads_dataframe].

    Python values are modelled by the type [value] (the image of [json.loads],
    which is where every dictionary the tool handles comes from), dictionaries
    by insertion-ordered association lists, and the outside world (search API,
    LLM, browser, clock) by a record of oracles that answer a request in the
    light of the calls made so far. *)

From Stdlib Require Import List String ZArith QArith Bool Lia Arith.
Import ListNotations.
Local Open Scope string_scope.
Local Open Scope list_scope.
Local Open Scope Z_scope.

Set Implicit Arguments.

(* ================================================================== *)
(** ** Python values *)

(** What [json.loads] can produce.  A [float] is modelled by the rational it
    denotes (NaN and the infinities are outside the model); a [str] by a Rocq
    string, one character per character. *)
#[warnings="-register-all"]
Inductive value : Type :=
| VNone
| VBool (b : bool)
| VInt (n : Z)
| VFloat (q : Q)
| VStr (s : string)
| VList (l : list value)
| VDict (d : list (string * value)).

(** A Python [dict] with string keys, in insertion order. *)
Definition dict : Type := list (string * value).

(** [bool(v)]: the truth value Python gives [v] in [if v:]. *)
Definition truthy (v : value) : bool :=
  match v with
  | VNone => false
  | VBool b => b
  | VInt n => negb (n =? 0)
  | VFloat q => negb (Qeq_bool q 0)
  | VStr s => negb (s =? "")%string
  | VList l => match l with [] => false | _ => true end
  | VDict d => match d with [] => false | _ => true end
  end.

(** [d.get(k)] as an option: the first binding of [k]. *)
Fixpoint dict_lookup (d : dict) (k : string) : option value :=
  match d with
  | [] => None
  | (k', v) :: d' => if (k' =? k)%string then Some v else dict_lookup d' k
  end.

(** [d.get(k, default)]. *)
Definition dict_get (d : dict) (k : string) (default : value) : value :=
  match dict_lookup d k with
  | Some v => v
  | None => default
  end.

(** [k in d]. *)
Definition dict_has (d : dict) (k : string) : bool :=
  match dict_lookup d k with
  | Some _ => true
  | None => false
  end.

(** [d[k] = v]: an existing key keeps its place, a new key goes last. *)
Fixpoint dict_set (d : dict) (k : string) (v : value) : dict :=
  match d with
  | [] => [(k, v)]
  | (k', v') :: d' =>
      if (k' =? k)%string then (k', v) :: d' else (k', v') :: dict_set d' k v
  end.

(** The numeric value of a Python number ([bool] is a subclass of [int]). *)
Definition as_number (v : value) : option Q :=
  match v with
  | VBool b => Some (inject_Z (Z.b2z b))
  | VInt n => Some (inject_Z n)
  | VFloat q => Some q
  | _ => None
  end.

(** [a == b] on Python values: numbers compare by value across [bool], [int]
    and [float]; lists pointwise; dictionaries by key set and value. *)
Fixpoint value_eqb (a b : value) {struct a} : bool :=
  match a, b with
  | VNone, VNone => true
  | VStr s, VStr t => (s =? t)%string
  | VList l, VList m =>
      (fix pointwise (l m : list value) {struct l} : bool :=
         match l, m with
         | [], [] => true
         | x :: l', y :: m' => value_eqb x y && pointwise l' m'
         | _, _ => false
         end) l m
  | VDict d, VDict e =>
      (List.length d =? List.length e)%nat &&
      (fix each (d' : list (string * value)) {struct d'} : bool :=
         match d' with
         | [] => true
         | (k, v) :: d'' =>
             match dict_lookup e k with
             | Some w => value_eqb v w
             | None => false
             end && each d''
         end) d
  | _, _ =>
      match as_number a, as_number b with
      | Some x, Some y => Qeq_bool x y
      | _, _ => false
      end
  end.

(** [v == i] for a Python [int] [i]. *)
Definition eq_int (v : value) (i : Z) : bool := value_eqb v (VInt i).

(** [xs[:n]]: a non-negative bound keeps the first [n] items, a negative one
    drops the last [-n]. *)
Definition slice_to {A : Type} (xs : list A) (n : Z) : list A :=
  if 0 <=? n then firstn (Z.to_nat n) xs
  else firstn (List.length xs - Z.to_nat (- n)) xs.

(** [sep.join(parts)]. *)
Definition join (sep : string) (parts : list string) : string :=
  String.concat sep parts.

(* ================================================================== *)
(** ** The outside world *)

(** One entry per call of a collaborator method of the tool, with the
    arguments the caller passed, plus the pauses of the controller. *)
Inductive event : Type :=
| EvSearch (query : string) (num_results : Z)
| EvJudge (search_results : list dict) (original_query : string)
| EvRefine (original_query : string) (failed_results : list dict)
| EvScrape (url : value)
| EvExtract (content : string) (website_url : value)
| EvSleep (seconds : Z).

(** What came back from the chat completion of [extract_lead_info] once the
    text between the first brace and the last one went through [json.loads]:
    a dictionary, a [JSONDecodeError], or any other exception. *)
Inductive extraction : Type :=
| Parsed (lead_data : dict)
| DecodeError
| OtherError.

(** The services and library routines the tool relies on.  A service answers
    a request knowing the calls made so far, so any deterministic behaviour,
    stateful or not, is an [Env].
    - [serper_post h q num]: the [organic] list of the search API's reply to
      the payload [{q, num, type: search}]; [None] when the request raises.
    - [groq_relevance h q summary]: [relevance_data], the parsed JSON array
      of the relevance prompt built from [q] and [summary]; [None] when
      anything from the API call to [json.loads] raises.
    - [groq_refine h q titles]: the stripped completion of the refinement
      prompt; [None] when the call raises.
    - [groq_extract h content url]: see [extraction].
    - [chrome_page_source h url]: the page source after a browser session on
      [url] (driver start, load, five seconds' wait); [None] when it raises.
    - [soup_get_text], [squeeze_whitespace]: BeautifulSoup's text of a page
      without its script, style, nav, footer, header, aside and noscript
      elements, and the line/phrase stripping that joins chunks by a blank.
    - [findall_*]: [re.findall] with the three patterns of the fallback.
    - [domain_title url]: for a string [url], [urlparse(url).netloc] without
      [www.], cut at the first dot, title-cased; [None] when [urlparse]
      raises [ValueError], as it does on a host with a bracket that has no
      match (["http://[acme"]).
    - [datetime_now h]: [datetime.now().isoformat()]. *)
Record Env : Type := {
  serper_post : list event -> string -> Z -> option (list dict);
  groq_relevance : list event -> string -> list dict -> option (list value);
  groq_refine : list event -> string -> list value -> option string;
  groq_extract : list event -> string -> value -> extraction;
  chrome_page_source : list event -> value -> option string;
  soup_get_text : string -> string;
  squeeze_whitespace : string -> string;
  findall_email : string -> list string;
  findall_phone : string -> list (string * string * string * string);
  findall_linkedin : string -> list string;
  domain_title : string -> option string;
  datetime_now : list event -> string
}.

(** The same world with another clock. *)
Definition with_clock (env : Env) (clock : list event -> string) : Env :=
  {| serper_post := serper_post env;
     groq_relevance := groq_relevance env;
     groq_refine := groq_refine env;
     groq_extract := groq_extract env;
     chrome_page_source := chrome_page_source env;
     soup_get_text := soup_get_text env;
     squeeze_whitespace := squeeze_whitespace env;
     findall_email := findall_email env;
     findall_phone := findall_phone env;
     findall_linkedin := findall_linkedin env;
     domain_title := domain_title env;
     datetime_now := clock |}.

(** Exceptions that leave a method. *)
Inductive exn : Type :=
| KeyError (key : string)
| UnboundLocalError (name : string)
| AttributeError
| TypeError
| ValueError
| ServiceError.

Inductive res (A : Type) : Type :=
| Ok (a : A)
| Raise (e : exn).
Arguments Ok {A} a.
Arguments Raise {A} e.

(** A computation reads the calls made so far and reports the calls it
    made itself. *)
Definition Eff (A : Type) : Type := list event -> A * list event.

Definition ret {A : Type} (a : A) : Eff A := fun _ => (a, []).

Definition bind {A B : Type} (m : Eff A) (f : A -> Eff B) : Eff B :=
  fun h =>
    let (a, e1) := m h in
    let (b, e2) := f a (h ++ e1) in
    (b, e1 ++ e2).

Definition call (e : event) : Eff unit := fun _ => (tt, [e]).

Definition ask {A : Type} (oracle : list event -> A) : Eff A :=
  fun h => (oracle h, []).

Declare Scope eff_scope.
Delimit Scope eff_scope with eff.
Notation "x <- m ;; k" := (bind m (fun x => k))
  (at level 100, m at next level, right associativity) : eff_scope.
Notation "m ;;; k" := (bind m (fun _ => k))
  (at level 100, right associativity) : eff_scope.
Local Open Scope eff_scope.

(* ================================================================== *)
(** ** The tool *)

(** [self.max_retries] and [self.relevance_threshold].  The threshold and
    the relevance rate are compared as rationals: [len(a) / len(b)] is the
    float nearest the quotient, [0.6] the float nearest 3/5, and rounding is
    monotone, so the two comparisons agree on every list Python can hold. *)
Record Config : Type := {
  max_retries : Z;
  relevance_threshold : Q
}.

(** The configuration set by [__init__]. *)
Definition default_config : Config :=
  {| max_retries := 3; relevance_threshold := 6 # 10 |}.

(** [search_companies]: asks the API for twice [num_results]. *)
Definition search_companies (env : Env) (query : string) (num_results : Z)
  : Eff (list dict) :=
  results <- ask (fun h => serper_post env h query (num_results * 2)) ;;
  call (EvSearch query num_results) ;;;
  ret match results with
      | Some results => results
      | None => []
      end.

(** [results_summary] of [evaluate_relevance], numbering from [i]. *)
Fixpoint summarize (i : Z) (search_results : list dict) : list dict :=
  match search_results with
  | [] => []
  | result :: rest =>
      [("index", VInt i);
       ("title", dict_get result "title" (VStr ""));
       ("snippet", dict_get result "snippet" (VStr ""));
       ("link", dict_get result "link" (VStr ""))] :: summarize (i + 1) rest
  end.

(** The first position whose item equals [x]. *)
Fixpoint first_equal (xs : list dict) (x : dict) : option nat :=
  match xs with
  | [] => None
  | y :: ys =>
      if value_eqb (VDict y) (VDict x) then Some O
      else option_map S (first_equal ys x)
  end.

(** [search_results.index(result)] for the item at position [p]:
    [list.index] stops at the first item that is [result] or equals it, so
    at an earlier equal item if there is one, else at [p] itself. *)
Definition list_index (search_results : list dict) (p : nat) (result : dict)
  : nat :=
  match first_equal (firstn p search_results) result with
  | Some j => j
  | None => p
  end.

(** The scan for [relevance_info]: the first judgment whose [index] equals
    [idx].  [rel_data.get] raises on an item that is no dictionary. *)
Fixpoint find_relevance (relevance_data : list value) (idx : Z)
  : res (option dict) :=
  match relevance_data with
  | [] => Ok None
  | VDict rel_data :: more =>
      if value_eqb (dict_get rel_data "index" VNone) (VInt idx)
      then Ok (Some rel_data)
      else find_relevance more idx
  | _ :: _ => Raise AttributeError
  end.

(** One [enhanced_result]. *)
Definition enhance (result : dict) (relevance_info : option dict) : dict :=
  match relevance_info with
  | Some (_ :: _ as info) =>
      dict_set (dict_set (dict_set result
        "is_relevant" (dict_get info "is_relevant" (VBool false)))
        "relevance_confidence" (dict_get info "confidence" (VFloat 0)))
        "relevance_reason" (dict_get info "reason" (VStr "No reason provided"))
  | _ =>
      dict_set (dict_set (dict_set result
        "is_relevant" (VBool false))
        "relevance_confidence" (VFloat 0))
        "relevance_reason" (VStr "Could not evaluate relevance")
  end.

(** The loop that builds [enhanced_results], at position [p] with
    [rest] still to do. *)
Fixpoint enhance_from (search_results : list dict)
    (relevance_data : list value) (p : nat) (rest : list dict)
  : res (list dict) :=
  match rest with
  | [] => Ok []
  | result :: rest' =>
      match find_relevance relevance_data
              (Z.of_nat (list_index search_results p result)) with
      | Raise e => Raise e
      | Ok relevance_info =>
          match enhance_from search_results relevance_data (S p) rest' with
          | Raise e => Raise e
          | Ok enhanced_results =>
              Ok (enhance result relevance_info :: enhanced_results)
          end
      end
  end.

(** The judgment given to every result when the evaluation raised. *)
Definition fail_open (result : dict) : dict :=
  dict_set (dict_set (dict_set result
    "is_relevant" (VBool true))
    "relevance_confidence" (VFloat (1 # 2)))
    "relevance_reason" (VStr "Could not evaluate").

(** The [try] block of [evaluate_relevance]. *)
Definition try_evaluate (relevance_data : option (list value))
    (search_results : list dict) : res (list dict) :=
  match relevance_data with
  | None => Raise ServiceError
  | Some relevance_data =>
      enhance_from search_results relevance_data O search_results
  end.

(** [evaluate_relevance]. *)
Definition evaluate_relevance (env : Env) (search_results : list dict)
    (original_query : string) : Eff (list dict) :=
  relevance_data <-
    ask (fun h => groq_relevance env h original_query
                    (summarize 0 search_results)) ;;
  call (EvJudge search_results original_query) ;;;
  ret match try_evaluate relevance_data search_results with
      | Ok enhanced_results => enhanced_results
      | Raise _ => map fail_open search_results
      end.

(** [failed_titles] of [refine_search_query]. *)
Definition failed_titles (failed_results : list dict) : list value :=
  map (fun result => dict_get result "title" (VStr ""))
      (filter (fun result =>
                 negb (truthy (dict_get result "is_relevant" (VBool true))))
              failed_results).

(** [refine_search_query]. *)
Definition refine_search_query (env : Env) (original_query : string)
    (failed_results : list dict) : Eff string :=
  refined_query <-
    ask (fun h => groq_refine env h original_query
                    (failed_titles failed_results)) ;;
  call (EvRefine original_query failed_results) ;;;
  ret match refined_query with
      | Some refined_query => refined_query
      | None => (original_query ++ " company contact information")%string
      end.

(** [clean_html_content]. *)
#[warnings="-abstract-large-number"]
Definition clean_html_content (env : Env) (html_content : string) : string :=
  substring 0 8000 (squeeze_whitespace env (soup_get_text env html_content)).

(** [scrape_website]: the cleaned text, or [None] on any exception. *)
Definition scrape_website (env : Env) (url : value) : Eff (option string) :=
  html_content <- ask (fun h => chrome_page_source env h url) ;;
  call (EvScrape url) ;;;
  ret (option_map (clean_html_content env) html_content).

(** [company_name] of [_create_fallback_lead_data]:
    [urlparse(website_url).netloc.replace('www.', '')], cut at the first dot
    and title-cased.  [urlparse] raises [ValueError] on some strings;
    an argument that is no string it tries to decode, so that a truthy one
    raises [AttributeError] (it has no [decode]) and a falsy one is read as
    the empty URL and parsed to bytes, on which [replace] with string
    arguments raises [TypeError]. *)
Definition company_name (env : Env) (website_url : value) : res string :=
  match website_url with
  | VStr url =>
      match domain_title env url with
      | Some name => Ok name
      | None => Raise ValueError
      end
  | _ => if truthy website_url then Raise AttributeError else Raise TypeError
  end.

(** [_create_fallback_lead_data]: nothing catches what [urlparse] raises. *)
Definition _create_fallback_lead_data (env : Env) (website_url : value)
    (content : string) : res dict :=
  let emails := findall_email env content in
  let phones := findall_phone env content in
  let linkedin_urls := findall_linkedin env content in
  match company_name env website_url with
  | Raise e => Raise e
  | Ok company_name =>
      Ok [("company_name", VStr company_name);
          ("email", VStr match emails with
                         | [] => "N/A"
                         | _ => join ", " (firstn 3 emails)
                         end);
          ("phone", VStr match phones with
                         | [] => "N/A"
                         | _ => join ", "
                                  (map (fun '(_, area, exchange, line) =>
                                          join "-" [area; exchange; line])
                                       (firstn 2 phones))
                         end);
          ("linkedin", VStr match linkedin_urls with
                            | [] => "N/A"
                            | _ => join ", " (firstn 2 linkedin_urls)
                            end);
          ("website", website_url);
          ("industry", VStr "N/A");
          ("description", VStr (if (200 <? String.length content)%nat
                                then (substring 0 200 content ++ "...")%string
                                else content));
          ("address", VStr "N/A");
          ("contact_person", VStr "N/A");
          ("services", VStr "N/A");
          ("company_size", VStr "N/A");
          ("founded_year", VStr "N/A");
          ("revenue_range", VStr "N/A");
          ("technologies", VStr "N/A");
          ("social_media", VStr "N/A")]
  end.

(** [extract_lead_info]: the LLM's dictionary as it comes, the regex
    fallback when the completion or its parsing raised.  The fallback is
    called from the [except] handlers, so what it raises leaves the
    method. *)
Definition extract_lead_info (env : Env) (content : string)
    (website_url : value) : Eff (res dict) :=
  completion <- ask (fun h => groq_extract env h content website_url) ;;
  call (EvExtract content website_url) ;;;
  ret match completion with
      | Parsed lead_data => Ok lead_data
      | DecodeError => _create_fallback_lead_data env website_url content
      | OtherError => _create_fallback_lead_data env website_url content
      end.

(** A [pandas.DataFrame]: its columns and, per row, the cell of each column.
    A cell is [None] when it holds no value, that is when [pd.isna] is true
    of it (NaN or [None]), and [Some v] when it holds the value [v]. *)
Record DataFrame : Type := {
  columns : list string;
  rows : list (list (option value))
}.

(** [pd.DataFrame()]. *)
Definition empty_frame : DataFrame := {| columns := []; rows := [] |}.

Definition column_order : list string :=
  ["company_name"; "email"; "phone"; "linkedin"; "website"; "industry";
   "description"; "address"; "contact_person"; "services"; "company_size";
   "founded_year"; "revenue_range"; "technologies"; "social_media";
   "is_relevant"; "relevance_confidence"; "relevance_reason";
   "search_title"; "search_snippet"; "scraped_at"].

(** [available_columns]: a column of [pd.DataFrame(all_leads)] is a key of
    some record. *)
Definition available_columns (all_leads : list dict) : list string :=
  filter (fun col => existsb (fun lead => dict_has lead col) all_leads)
         column_order.

(** What a record has for a column: [None] when it lacks the key. *)
Definition column_values (all_leads : list dict) (col : string)
  : list (option value) :=
  map (fun lead => dict_lookup lead col) all_leads.

Definition is_missing (v : option value) : bool :=
  match v with
  | None | Some VNone => true
  | _ => false
  end.

Definition is_int (v : option value) : bool :=
  match v with Some (VInt _) => true | _ => false end.

Definition is_float (v : option value) : bool :=
  match v with Some (VFloat _) => true | _ => false end.

(** The columns [pd.DataFrame] stores as [float64]: those that hold
    nothing but integers, floats, nulls and gaps, and not integers alone.
    A column with a string, a list, a dictionary or a boolean beside
    something else is kept as Python objects, a column of booleans as
    booleans, a column of integers as integers. *)
Definition float_column (values : list (option value)) : bool :=
  forallb (fun v => is_missing v || is_int v || is_float v) values &&
  existsb (fun v => is_missing v || is_float v) values.

(** The cell [pd.DataFrame] makes of a record's value: a key the record
    lacks gives NaN; a null is NaN in a [float64] column and [None] in a
    column of objects, a missing value either way; an integer becomes the
    float of the same value in a [float64] column (integers a float cannot
    hold are outside the model); any other value is kept. *)
Definition to_cell (as_float : bool) (v : option value) : option value :=
  match v with
  | None => None
  | Some VNone => None
  | Some (VInt n) => if as_float then Some (VFloat (inject_Z n)) else v
  | Some _ => v
  end.

(** The cell of the record [lead] in the column [col] of
    [pd.DataFrame(all_leads)]. *)
Definition frame_cell (all_leads : list dict) (lead : dict) (col : string)
  : option value :=
  to_cell (float_column (column_values all_leads col)) (dict_lookup lead col).

(** [pd.DataFrame(all_leads)[available_columns]]. *)
Definition frame_of (all_leads : list dict) : DataFrame :=
  let cols := available_columns all_leads in
  {| columns := cols;
     rows := map (fun lead => map (frame_cell all_leads lead) cols)
                 all_leads |}.

(** The metadata the controller adds to [lead_data]. *)
Definition add_metadata (lead_data result : dict) (title : value)
    (scraped_at : string) : dict :=
  dict_set (dict_set (dict_set (dict_set (dict_set (dict_set lead_data
    "search_title" title)
    "search_snippet" (dict_get result "snippet" (VStr "")))
    "is_relevant" (dict_get result "is_relevant" (VBool false)))
    "relevance_confidence" (dict_get result "relevance_confidence" (VFloat 0)))
    "relevance_reason" (dict_get result "relevance_reason" (VStr "")))
    "scraped_at" (VStr scraped_at).

(** [if content:] on an [Optional[str]]. *)
Definition has_content (content : option string) : option string :=
  match content with
  | Some text => if (text =? "")%string then None else Some text
  | None => None
  end.

(** Step 5, the loop over [final_results]; [all_leads] is the accumulator.
    [result['title']] and [result['link']] raise on a missing key, and what
    [extract_lead_info] raises ends the loop there, before the pause. *)
Fixpoint scrape_and_extract (env : Env) (final_results : list dict)
    (all_leads : list dict) : Eff (res (list dict)) :=
  match final_results with
  | [] => ret (Ok all_leads)
  | result :: rest =>
      match dict_lookup result "title" with
      | None => ret (Raise (KeyError "title"))
      | Some title =>
          match dict_lookup result "link" with
          | None => ret (Raise (KeyError "link"))
          | Some link =>
              content <- scrape_website env link ;;
              all_leads' <-
                match has_content content with
                | Some content =>
                    lead_data <- extract_lead_info env content link ;;
                    match lead_data with
                    | Raise e => ret (Raise e)
                    | Ok lead_data =>
                        scraped_at <- ask (datetime_now env) ;;
                        ret (Ok (all_leads ++
                                 [add_metadata lead_data result title
                                    scraped_at]))
                    end
                | None => ret (Ok all_leads)
                end ;;
              match all_leads' with
              | Raise e => ret (Raise e)
              | Ok all_leads' =>
                  call (EvSleep 2) ;;;
                  scrape_and_extract env rest all_leads'
              end
          end
      end
  end.

(** Step 6. *)
Definition to_frame (all_leads : list dict) : DataFrame :=
  match all_leads with
  | [] => empty_frame
  | _ => frame_of all_leads
  end.

(** [relevant_results]. *)
Definition relevant (evaluated_results : list dict) : list dict :=
  filter (fun r => truthy (dict_get r "is_relevant" (VBool false)))
         evaluated_results.

(** [relevance_rate]. *)
Definition relevance_rate (evaluated_results : list dict) : Q :=
  match evaluated_results with
  | [] => 0
  | _ => Z.of_nat (List.length (relevant evaluated_results))
         # Pos.of_nat (List.length evaluated_results)
  end.

(** [relevance_rate >= self.relevance_threshold]. *)
Definition sufficient (cfg : Config) (evaluated_results : list dict) : bool :=
  Qle_bool (relevance_threshold cfg) (relevance_rate evaluated_results).

(** How the [while] loop is left: by [return pd.DataFrame()], or to step 4
    with the variables of the last iteration, if there was one. *)
Inductive loop_exit : Type :=
| NoResults
| Batch (evaluated_results : list dict)
| NeverRan.

(** The [while retry_count < self.max_retries] loop, with [remaining]
    iterations to go at most: [retry_count] is [max_retries - remaining]. *)
Fixpoint relevance_loop (env : Env) (cfg : Config) (search_query : string)
    (num_results : Z) (remaining : nat) (current_query : string)
    (last : loop_exit) : Eff loop_exit :=
  match remaining with
  | O => ret last
  | S remaining' =>
      let retry_count := max_retries cfg - Z.of_nat remaining in
      search_results <- search_companies env current_query (num_results * 2) ;;
      match search_results with
      | [] => ret NoResults
      | _ =>
          evaluated_results <-
            evaluate_relevance env search_results search_query ;;
          if sufficient cfg evaluated_results then
            ret (Batch evaluated_results)
          else if retry_count <? max_retries cfg - 1 then
            current_query' <-
              refine_search_query env search_query evaluated_results ;;
            relevance_loop env cfg search_query num_results remaining'
              current_query' (Batch evaluated_results)
          else
            ret (Batch evaluated_results)
      end
  end.

(** Step 4: [final_results]. *)
Definition select_final (evaluated_results : list dict) (num_results : Z)
  : list dict :=
  match relevant evaluated_results with
  | [] => slice_to evaluated_results num_results
  | relevant_results => slice_to relevant_results num_results
  end.

(** Steps 4 to 6 on the batch the loop left. *)
Definition process_batch (env : Env) (evaluated_results : list dict)
    (num_results : Z) : Eff (res DataFrame) :=
  match select_final evaluated_results num_results with
  | [] => ret (Ok empty_frame)
  | final_results =>
      all_leads <- scrape_and_extract env final_results [] ;;
      ret match all_leads with
          | Ok all_leads => Ok (to_frame all_leads)
          | Raise e => Raise e
          end
  end.

(** [generate_leads_dataframe]. *)
Definition generate_leads_dataframe (env : Env) (cfg : Config)
    (search_query : string) (num_results : Z) : Eff (res DataFrame) :=
  exit <- relevance_loop env cfg search_query num_results
            (Z.to_nat (max_retries cfg)) search_query NeverRan ;;
  match exit with
  | NoResults => ret (Ok empty_frame)
  | NeverRan => ret (Raise (UnboundLocalError "relevant_results"))
  | Batch evaluated_results => process_batch env evaluated_results num_results
  end.

(** [generate_leads]: a fresh tool, hence the configuration of [__init__]. *)
Definition generate_leads (env : Env) (search_query : string)
    (num_results : Z) : Eff (res DataFrame) :=
  generate_leads_dataframe env default_config search_query num_results.


(* ================================================================== *)
(** ** Vocabulary of the properties *)

(** A list obtained from another by dropping items: same relative order. *)
Inductive Subseq {A : Type} : list A -> list A -> Prop :=
| Subseq_nil : Subseq [] []
| Subseq_keep x xs ys : Subseq xs ys -> Subseq (x :: xs) (x :: ys)
| Subseq_drop y xs ys : Subseq xs ys -> Subseq xs (y :: ys).


Definition is_search (e : event) : bool :=
  match e with EvSearch _ _ => true | _ => false end.
Definition is_judge (e : event) : bool :=
  match e with EvJudge _ _ => true | _ => false end.
Definition is_refine (e : event) : bool :=
  match e with EvRefine _ _ => true | _ => false end.
Definition is_scrape (e : event) : bool :=
  match e with EvScrape _ => true | _ => false end.
Definition is_extract (e : event) : bool :=
  match e with EvExtract _ _ => true | _ => false end.

(** How many calls of one kind a run made. *)
Definition calls (kind : event -> bool) (evs : list event) : nat :=
  List.length (filter kind evs).

(** The calls of step 5 only: fetches, extractions and pauses. *)
Definition is_step5 (e : event) : bool :=
  match e with
  | EvScrape _ | EvExtract _ _ | EvSleep _ => true
  | _ => false
  end.

Section Runs.
Variables (env : Env) (cfg : Config) (search_query : string)
          (num_results : Z).

(** The runs of the [while] loop, one rule per way through its body.
    [attempts k q h last exit evs]: with [k] iterations to go, the query
    [q] and the calls [h] behind it, the loop makes the calls [evs] and
    leaves by [exit]. *)
Inductive attempts
  : nat -> string -> list event -> loop_exit -> loop_exit -> list event
    -> Prop :=
| attempts_over q h last :
    attempts O q h last last []
| attempts_dead k q h last :
    fst (search_companies env q (num_results * 2) h) = [] ->
    attempts (S k) q h last NoResults [EvSearch q (num_results * 2)]
| attempts_accept k q h last rs ev :
    rs = fst (search_companies env q (num_results * 2) h) ->
    rs <> [] ->
    ev = fst (evaluate_relevance env rs search_query
                (h ++ [EvSearch q (num_results * 2)])) ->
    sufficient cfg ev = true ->
    attempts (S k) q h last (Batch ev)
      [EvSearch q (num_results * 2); EvJudge rs search_query]
| attempts_exhausted q h last rs ev :
    rs = fst (search_companies env q (num_results * 2) h) ->
    rs <> [] ->
    ev = fst (evaluate_relevance env rs search_query
                (h ++ [EvSearch q (num_results * 2)])) ->
    sufficient cfg ev = false ->
    attempts 1 q h last (Batch ev)
      [EvSearch q (num_results * 2); EvJudge rs search_query]
| attempts_retry k q h last rs ev q' exit evs :
    rs = fst (search_companies env q (num_results * 2) h) ->
    rs <> [] ->
    ev = fst (evaluate_relevance env rs search_query
                (h ++ [EvSearch q (num_results * 2)])) ->
    sufficient cfg ev = false ->
    q' = fst (refine_search_query env search_query ev
                (h ++ [EvSearch q (num_results * 2);
                       EvJudge rs search_query])) ->
    attempts (S k) q'
      (h ++ [EvSearch q (num_results * 2); EvJudge rs search_query;
             EvRefine search_query ev])
      (Batch ev) exit evs ->
    attempts (S (S k)) q h last exit
      (EvSearch q (num_results * 2) :: EvJudge rs search_query
       :: EvRefine search_query ev :: evs).

(** Every search of the run [evs], begun after [h], found something. *)
Definition searches_found (h evs : list event) : Prop :=
  forall pre q k post,
    evs = pre ++ EvSearch q k :: post ->
    fst (search_companies env q k (h ++ pre)) <> [].

(** Every batch judged in the run [evs] fell short of the threshold. *)
Definition batches_low (h evs : list event) : Prop :=
  forall pre rs q post,
    evs = pre ++ EvJudge rs q :: post ->
    sufficient cfg (fst (evaluate_relevance env rs q (h ++ pre))) = false.
End Runs.

(** The record appended for the candidate [result] whose page gave
    [content], after the calls [h], or what the extraction raised. *)
Definition lead_record (env : Env) (h : list event) (result : dict)
    (title link : value) (content : string) : res dict :=
  match fst (extract_lead_info env content link (h ++ [EvScrape link])) with
  | Ok lead_data =>
      Ok (add_metadata lead_data result title
            (datetime_now env (h ++ [EvScrape link; EvExtract content link])))
  | Raise e => Raise e
  end.

(** The text step 5 works on for the link [link] after the calls [h]. *)
Definition fetched (env : Env) (h : list event) (link : value)
  : option string :=
  has_content (fst (scrape_website env link h)).

(** The two ways through the body of the loop of step 5 that reach the
    pause, and the one that does not. *)
Variant step5_case (env : Env) (result : dict) (rest acc : list dict)
    (h : list event) (title link : value) : Prop :=
| step5_record content lead :
    fetched env h link = Some content ->
    lead_record env h result title link content = Ok lead ->
    scrape_and_extract env (result :: rest) acc h
    = (fst (scrape_and_extract env rest (acc ++ [lead])
              (h ++ [EvScrape link; EvExtract content link; EvSleep 2])),
       EvScrape link :: EvExtract content link :: EvSleep 2
       :: snd (scrape_and_extract env rest (acc ++ [lead])
                 (h ++ [EvScrape link; EvExtract content link; EvSleep 2]))) ->
    step5_case env result rest acc h title link
| step5_raise content e :
    fetched env h link = Some content ->
    lead_record env h result title link content = Raise e ->
    scrape_and_extract env (result :: rest) acc h
    = (Raise e, [EvScrape link; EvExtract content link]) ->
    step5_case env result rest acc h title link
| step5_skip :
    fetched env h link = None ->
    scrape_and_extract env (result :: rest) acc h
    = (fst (scrape_and_extract env rest acc (h ++ [EvScrape link; EvSleep 2])),
       EvScrape link :: EvSleep 2
       :: snd (scrape_and_extract env rest acc
                 (h ++ [EvScrape link; EvSleep 2]))) ->
    step5_case env result rest acc h title link.

(** [result] has the two keys step 5 indexes. *)
Definition well_keyed (result : dict) : Prop :=
  dict_has result "title" = true /\ dict_has result "link" = true.

(* ------------------------------------------------------------------ *)
(** *** Sample worlds *)

(** A search result with the three fields the tool reads. *)
Definition hit (title link : string) : dict :=
  [("title", VStr title); ("snippet", VStr "about us"); ("link", VStr link)].

(** A world with nothing in it: every request raises, nothing matches. *)
Definition silent_env : Env :=
  {| serper_post := fun _ _ _ => None;
     groq_relevance := fun _ _ _ => None;
     groq_refine := fun _ _ _ => None;
     groq_extract := fun _ _ _ => OtherError;
     chrome_page_source := fun _ _ => None;
     soup_get_text := fun html => html;
     squeeze_whitespace := fun text => text;
     findall_email := fun _ => [];
     findall_phone := fun _ => [];
     findall_linkedin := fun _ => [];
     domain_title := fun _ => Some "Acme";
     datetime_now := fun _ => "2024-05-01T10:00:00" |}.

Definition with_search (env : Env)
    (search : list event -> string -> Z -> option (list dict)) : Env :=
  {| serper_post := search;
     groq_relevance := groq_relevance env;
     groq_refine := groq_refine env;
     groq_extract := groq_extract env;
     chrome_page_source := chrome_page_source env;
     soup_get_text := soup_get_text env;
     squeeze_whitespace := squeeze_whitespace env;
     findall_email := findall_email env;
     findall_phone := findall_phone env;
     findall_linkedin := findall_linkedin env;
     domain_title := domain_title env;
     datetime_now := datetime_now env |}.

Definition with_relevance (env : Env)
    (judge : list event -> string -> list dict -> option (list value)) : Env :=
  {| serper_post := serper_post env;
     groq_relevance := judge;
     groq_refine := groq_refine env;
     groq_extract := groq_extract env;
     chrome_page_source := chrome_page_source env;
     soup_get_text := soup_get_text env;
     squeeze_whitespace := squeeze_whitespace env;
     findall_email := findall_email env;
     findall_phone := findall_phone env;
     findall_linkedin := findall_linkedin env;
     domain_title := domain_title env;
     datetime_now := datetime_now env |}.

Definition with_extract (env : Env)
    (extract : list event -> string -> value -> extraction) : Env :=
  {| serper_post := serper_post env;
     groq_relevance := groq_relevance env;
     groq_refine := groq_refine env;
     groq_extract := extract;
     chrome_page_source := chrome_page_source env;
     soup_get_text := soup_get_text env;
     squeeze_whitespace := squeeze_whitespace env;
     findall_email := findall_email env;
     findall_phone := findall_phone env;
     findall_linkedin := findall_linkedin env;
     domain_title := domain_title env;
     datetime_now := datetime_now env |}.

Definition with_browser (env : Env)
    (browse : list event -> value -> option string) : Env :=
  {| serper_post := serper_post env;
     groq_relevance := groq_relevance env;
     groq_refine := groq_refine env;
     groq_extract := groq_extract env;
     chrome_page_source := browse;
     soup_get_text := soup_get_text env;
     squeeze_whitespace := squeeze_whitespace env;
     findall_email := findall_email env;
     findall_phone := findall_phone env;
     findall_linkedin := findall_linkedin env;
     domain_title := domain_title env;
     datetime_now := datetime_now env |}.

(** Two hits on every search, a scorer that answers with an empty array (so
    that nothing is judged relevant), every page loads. *)
Definition stubborn_env : Env :=
  with_browser
    (with_relevance
       (with_search silent_env
          (fun _ _ _ => Some [hit "Acme" "https://acme.example";
                              hit "Bolt" "https://bolt.example"]))
       (fun _ _ _ => Some []))
    (fun _ _ => Some "<html>Acme</html>").

(** Hits on the first search, nothing from the second one on; no result is
    ever judged relevant. *)
Definition drying_env : Env :=
  with_relevance
    (with_search silent_env
       (fun h _ _ =>
          match h with
          | [] => Some [hit "Acme" "https://acme.example"]
          | _ => None
          end))
    (fun _ _ _ => Some []).

(** The URLs a run fetched, in order. *)
Fixpoint scraped (evs : list event) : list value :=
  match evs with
  | [] => []
  | EvScrape url :: evs' => url :: scraped evs'
  | _ :: evs' => scraped evs'
  end.

(** [result.get("link")]. *)
Definition link_of (result : dict) : option value := dict_lookup result "link".

(** [result] with another confidence. *)
Definition with_confidence (confidence : dict -> value) (result : dict) : dict :=
  dict_set result "relevance_confidence" (confidence result).

(** Two hits, a scorer that is down, pages that load, an extractor that is
    down as well. *)
Definition unscored_env : Env :=
  with_browser
    (with_search silent_env
       (fun _ _ _ => Some [hit "Acme" "https://acme.example";
                           hit "Bolt" "https://bolt.example"]))
    (fun _ _ => Some "<html>Acme</html>").

(* ------------------------------------------------------------------ *)
(** *** Judgments by position, as the data model words it *)

(** The judgment the scorer gave for position [i]: the first one whose
    [index] is [i]. *)
Fixpoint judgment_for (relevance_data : list value) (i : Z) : option dict :=
  match relevance_data with
  | [] => None
  | VDict rel_data :: more =>
      if value_eqb (dict_get rel_data "index" VNone) (VInt i)
      then Some rel_data
      else judgment_for more i
  | _ :: more => judgment_for more i
  end.

(** One judged result per input result, the one at position [i] with the
    judgment for [i], or the default judgment when there is none. *)
Fixpoint judged_by_position (relevance_data : list value) (i : Z)
    (search_results : list dict) : list dict :=
  match search_results with
  | [] => []
  | result :: rest =>
      enhance result (judgment_for relevance_data i)
      :: judged_by_position relevance_data (i + 1) rest
  end.

Definition is_dict (v : value) : Prop :=
  match v with VDict _ => True | _ => False end.

(** No item of [search_results] equals an earlier one. *)
Definition no_repeat (search_results : list dict) : Prop :=
  forall p result,
    nth_error search_results p = Some result ->
    first_equal (firstn p search_results) result = None.

(** A judgment object of the scorer. *)
Definition judgment (index : Z) (ok : bool) (confidence : Q) : dict :=
  [("index", VInt index); ("is_relevant", VBool ok);
   ("confidence", VFloat confidence); ("reason", VStr "as judged")].

(** The same hit twice, the first copy judged irrelevant, the second one
    judged relevant. *)
Definition twin : dict := hit "Acme" "https://acme.example".
Definition twin_judgments : list value :=
  [VDict (judgment 0 false (1 # 10)); VDict (judgment 1 true (9 # 10))].

(** A world whose pages come back as three blanks, which the whitespace
    clean-up reduces to nothing. *)
Definition blank_env : Env :=
  {| serper_post := fun _ _ _ => Some [hit "Acme" "https://acme.example"];
     groq_relevance := fun _ _ _ => None;
     groq_refine := fun _ _ _ => None;
     groq_extract := fun _ _ _ => OtherError;
     chrome_page_source := fun _ _ => Some "   ";
     soup_get_text := fun html => html;
     squeeze_whitespace :=
       fun text => if (text =? "   ")%string then "" else text;
     findall_email := fun _ => [];
     findall_phone := fun _ => [];
     findall_linkedin := fun _ => [];
     domain_title := fun _ => Some "Acme";
     datetime_now := fun _ => "2024-05-01T10:00:00" |}.

(* ------------------------------------------------------------------ *)
(** *** Fields of a lead record *)

(** The fields asked of the extractor. *)
Definition lead_fields : list string :=
  ["company_name"; "email"; "phone"; "linkedin"; "website"; "industry";
   "description"; "address"; "contact_person"; "services"; "company_size";
   "founded_year"; "revenue_range"; "technologies"; "social_media"].

(** The fields the controller adds. *)
Definition metadata_fields : list string :=
  ["is_relevant"; "relevance_confidence"; "relevance_reason";
   "search_title"; "search_snippet"; "scraped_at"].

(** The fields the regex fallback has no means to observe. *)
Definition unobserved_fields : list string :=
  ["industry"; "address"; "contact_person"; "services"; "company_size";
   "founded_year"; "revenue_range"; "technologies"; "social_media"].

(** The cell of the column [col] in a row laid out along [cols]. *)
Fixpoint cell (cols : list string) (row : list (option value)) (col : string)
  : option value :=
  match cols, row with
  | c :: cols', x :: row' => if (c =? col)%string then x else cell cols' row' col
  | _, _ => None
  end.

(** Every named field of every record of the frame is there and not null. *)
Definition all_fields_filled (df : DataFrame) : Prop :=
  forall row col,
    In row (rows df) -> In col column_order ->
    exists v, cell (columns df) row col = Some v /\ v <> VNone.

Definition has_metadata (lead : dict) : Prop :=
  forall field, In field metadata_fields -> dict_has lead field = true.

(** All fifteen lead fields are set, each to a string. *)
Definition has_lead_fields (lead : dict) : Prop :=
  forall field, In field lead_fields ->
    exists s, dict_lookup lead field = Some (VStr s).

(** What the regex fallback makes of the page [content] of [link]: every
    lead field is a string, "N/A" for the nine fields it has no means to
    observe and for a contact channel whose pattern matches nothing; the
    website is the link. *)
Definition fallback_made (env : Env) (link : value) (content : string)
    (lead : dict) : Prop :=
  has_lead_fields lead /\
  (forall field, In field unobserved_fields ->
     dict_lookup lead field = Some (VStr "N/A")) /\
  (findall_email env content = [] ->
   dict_lookup lead "email" = Some (VStr "N/A")) /\
  (findall_phone env content = [] ->
   dict_lookup lead "phone" = Some (VStr "N/A")) /\
  (findall_linkedin env content = [] ->
   dict_lookup lead "linkedin" = Some (VStr "N/A")) /\
  dict_lookup lead "website" = Some link.

(** Outside the metadata, [lead] says what the completion [lead_data] said,
    no more and no less. *)
Definition mirrors (lead lead_data : dict) : Prop :=
  forall field, ~ In field metadata_fields ->
    dict_lookup lead field = dict_lookup lead_data field.

(** One hit, judged relevant by default, whose page loads and for which the
    extractor answers with the given JSON object. *)
Definition extracting_env (lead_data : dict) : Env :=
  with_extract
    (with_browser
       (with_search silent_env
          (fun _ _ _ => Some [hit "Acme" "https://acme.example"]))
       (fun _ _ => Some "<html>Acme</html>"))
    (fun _ _ _ => Parsed lead_data).

(** [lead] is the record that the run of step 5 with the calls [evs],
    begun after the calls [h], built for the candidate [result]: the run
    fetched the candidate's link, found the text [content], called the
    extractor on it and paused. *)
Definition record_at (env : Env) (h evs : list event) (result lead : dict)
  : Prop :=
  exists before after title link content,
    evs = before ++ EvScrape link :: EvExtract content link :: EvSleep 2
                 :: after /\
    dict_lookup result "title" = Some title /\
    dict_lookup result "link" = Some link /\
    fetched env (h ++ before) link = Some content /\
    lead_record env (h ++ before) result title link content = Ok lead.

(** What the record of [result] is made of, by the answer its own
    extraction call got: the keys and values of the JSON object when the
    completion parsed, the fields of the regex fallback when it did not;
    the six metadata keys either way. *)
Definition record_made (env : Env) (h evs : list event) (result lead : dict)
  : Prop :=
  exists before after link content,
    evs = before ++ EvScrape link :: EvExtract content link :: EvSleep 2
                 :: after /\
    dict_lookup result "link" = Some link /\
    fetched env (h ++ before) link = Some content /\
    has_metadata lead /\
    match groq_extract env (h ++ before ++ [EvScrape link]) content link with
    | Parsed lead_data => mirrors lead lead_data
    | DecodeError | OtherError => fallback_made env link content lead
    end.

(** One hit whose link has a bracket without its match.  The page loads,
    the extractor is down, and [urlparse] rejects the link. *)
Definition unparsable_env : Env :=
  {| serper_post := fun _ _ _ => Some [hit "Acme" "http://[acme"];
     groq_relevance := fun _ _ _ => None;
     groq_refine := fun _ _ _ => None;
     groq_extract := fun _ _ _ => OtherError;
     chrome_page_source := fun _ _ => Some "<html>Acme</html>";
     soup_get_text := fun html => html;
     squeeze_whitespace := fun text => text;
     findall_email := fun _ => [];
     findall_phone := fun _ => [];
     findall_linkedin := fun _ => [];
     domain_title :=
       fun url => if (url =? "http://[acme")%string then None else Some "Acme";
     datetime_now := fun _ => "2024-05-01T10:00:00" |}.

(** Every link of [final_results] is one [urlparse] accepts. *)
Definition links_parse (env : Env) (final_results : list dict) : Prop :=
  forall result link,
    In result final_results -> dict_lookup result "link" = Some link ->
    exists name, company_name env link = Ok name.

(* ------------------------------------------------------------------ *)
(** *** Frames up to the capture time *)

(** A row with the cell of the column [col] blanked. *)
Fixpoint blank_cell (col : string) (cols : list string)
    (row : list (option value)) : list (option value) :=
  match cols, row with
  | c :: cols', x :: row' =>
      (if (c =? col)%string then None else x) :: blank_cell col cols' row'
  | _, _ => []
  end.

(** A frame with the column [col] blanked. *)
Definition blank_column (col : string) (df : DataFrame) : DataFrame :=
  {| columns := columns df;
     rows := map (blank_cell col (columns df)) (rows df) |}.

(** An outcome with the capture times blanked. *)
Definition timeless (out : res DataFrame) : res DataFrame :=
  match out with
  | Ok df => Ok (blank_column "scraped_at" df)
  | Raise e => Raise e
  end.

(** Two records that differ by the capture time at most. *)
Definition same_but_time (lead1 lead2 : dict) : Prop :=
  exists base t1 t2,
    lead1 = dict_set base "scraped_at" t1 /\
    lead2 = dict_set base "scraped_at" t2.

(* ------------------------------------------------------------------ *)
(** *** Two worlds that differ by one fetch *)

(** The fetches made so far: the position of the next candidate. *)
Definition fetches (h : list event) : nat := calls is_scrape h.

(** [ok] and [failing] answer alike for every candidate: the library
    routines are the same, and at equal positions the extractor and the
    clock give the same answers, as does the browser except at position
    [at_position]. *)
Record agree_but_fetch (at_position : nat) (ok failing : Env) : Prop := {
  same_text : forall html, soup_get_text ok html = soup_get_text failing html;
  same_squeeze :
    forall text, squeeze_whitespace ok text = squeeze_whitespace failing text;
  same_emails : forall text, findall_email ok text = findall_email failing text;
  same_phones : forall text, findall_phone ok text = findall_phone failing text;
  same_linkedin :
    forall text, findall_linkedin ok text = findall_linkedin failing text;
  same_domain : forall url, domain_title ok url = domain_title failing url;
  same_extract :
    forall h1 h2 content url, fetches h1 = fetches h2 ->
      groq_extract ok h1 content url = groq_extract failing h2 content url;
  same_clock :
    forall h1 h2, fetches h1 = fetches h2 ->
      datetime_now ok h1 = datetime_now failing h2;
  same_pages :
    forall h1 h2 url, fetches h1 = fetches h2 -> fetches h1 <> at_position ->
      chrome_page_source ok h1 url = chrome_page_source failing h2 url
}.

(** [unscored_env] with a browser that fails on the candidate at position
    [at_position]. *)
Definition failing_at (at_position : nat) : Env :=
  with_browser unscored_env
    (fun h url =>
       if (fetches h =? at_position)%nat then None
       else chrome_page_source unscored_env h url).

(* ================================================================== *)
(** ** Further vocabulary *)

Definition is_sleep (e : event) : bool :=
  match e with EvSleep _ => true | _ => false end.

(** The query [refine_search_query] falls back on. *)
Definition fallback_query (original_query : string) : string :=
  (original_query ++ " company contact information")%string.

(** The queries a run searched for, in order. *)
Fixpoint searched (evs : list event) : list string :=
  match evs with
  | [] => []
  | EvSearch query _ :: evs' => query :: searched evs'
  | _ :: evs' => searched evs'
  end.

(** A tool whose loop is switched off. *)
Definition idle_config : Config :=
  {| max_retries := 0; relevance_threshold := 6 # 10 |}.

(** [lead] is the record step 5 built for the candidate [result]. *)
Definition record_of (env : Env) (result lead : dict) : Prop :=
  exists h title link content,
    dict_lookup result "title" = Some title /\
    dict_lookup result "link" = Some link /\
    lead_record env h result title link content = Ok lead.

(** A result without a title. *)
Definition untitled (link : string) : dict :=
  [("snippet", VStr "about us"); ("link", VStr link)].

(** The three keys [evaluate_relevance] sets. *)
Definition judgment_keys : list string :=
  ["is_relevant"; "relevance_confidence"; "relevance_reason"].

(** Two distinct hits and a reply that judges the second one only. *)
Definition two_hits : list dict :=
  [hit "Acme" "https://acme.example"; hit "Bolt" "https://bolt.example"].
Definition second_only : list value :=
  [VDict (judgment 1 true (8 # 10))].

(* ================================================================== *)
(** ** The front end ([src/frontend.py])

    The script runs from top to bottom on every interaction; what it keeps
    between runs is [st.session_state].  Widgets are inputs of a run. *)

(** An entry of [search_history]. *)
Record SearchEntry : Type := {
  entry_query : string;
  entry_timestamp : string;
  entry_num_results : Z
}.

(** The keys of [st.session_state] the script initialises. *)
Record Session : Type := {
  leads_df : DataFrame;
  search_history : list SearchEntry;
  is_generating : bool
}.

(** The state of a fresh session. *)
Definition new_session : Session :=
  {| leads_df := empty_frame; search_history := []; is_generating := false |}.

(** The messages of the search block. *)
Inductive notice : Type :=
| Success (leads : nat)
| Warning
| Error (e : exn)
| Info.

(** [df.empty]: no row or no column. *)
Definition frame_empty (df : DataFrame) : bool :=
  match rows df, columns df with
  | [], _ => true
  | _, [] => true
  | _, _ => false
  end.

(** ['col' in df.columns]. *)
Definition has_column (df : DataFrame) (col : string) : bool :=
  existsb (String.eqb col) (columns df).

(** [df[df[col] == v]]: the rows whose cell in [col] equals [v]; an empty
    cell (NaN) equals nothing. *)
Definition rows_where (df : DataFrame) (col : string) (v : value)
  : DataFrame :=
  {| columns := columns df;
     rows := filter (fun row =>
                       match cell (columns df) row col with
                       | Some x => value_eqb x v
                       | None => false
                       end) (rows df) |}.

(** The search block: runs a generation when the button was pressed on a
    query that is not empty and none is under way, logs it in the history,
    and stores the frame unless the generation raised. *)
Definition search_execution (env : Env) (s : Session) (search_button : bool)
    (search_query : string) (num_results : Z) : Eff (Session * list notice) :=
  if search_button && negb (search_query =? "")%string then
    if negb (is_generating s) then
      timestamp <- ask (datetime_now env) ;;
      let history :=
        search_history s ++
        [{| entry_query := search_query;
            entry_timestamp := timestamp;
            entry_num_results := num_results |}] in
      outcome <- generate_leads env search_query num_results ;;
      ret match outcome with
          | Ok df =>
              ({| leads_df := df;
                  search_history := history;
                  is_generating := false |},
               [if frame_empty df then Warning
                else Success (List.length (rows df))])
          | Raise e =>
              ({| leads_df := leads_df s;
                  search_history := history;
                  is_generating := false |},
               [Error e; Info])
          end
    else ret (s, [])
  else ret (s, []).

(** The quick stats: [total_leads] and [relevant_leads].  On a frame with
    rows but without the column, [df.get('is_relevant', False)] is [False]
    and indexing the frame by it raises. *)
Definition quick_stats (df : DataFrame) : res (nat * nat) :=
  let total_leads := List.length (rows df) in
  if frame_empty df then Ok (total_leads, O)
  else if has_column df "is_relevant" then
    Ok (total_leads,
        List.length (rows (rows_where df "is_relevant" (VBool true))))
  else Raise (KeyError "False").

(** [xs[-n:]]. *)
Definition last_items {A : Type} (n : nat) (xs : list A) : list A :=
  skipn (List.length xs - n) xs.

(** The searches the sidebar lists: [reversed(search_history[-5:])]. *)
Definition history_shown (history : list SearchEntry) : list SearchEntry :=
  rev (last_items 5 history).

(** The filters above the table. *)
Definition apply_filters (df : DataFrame) (show_relevant_only : bool)
    (industry_filter : string) : DataFrame :=
  let filtered_df :=
    if show_relevant_only && has_column df "is_relevant"
    then rows_where df "is_relevant" (VBool true)
    else df in
  if negb (industry_filter =? "All")%string
     && has_column filtered_df "industry"
  then rows_where filtered_df "industry" (VStr industry_filter)
  else filtered_df.

(** The sessions a user can reach. *)
Inductive reachable (env : Env) : Session -> Prop :=
| reachable_new : reachable env new_session
| reachable_run s search_button search_query num_results h :
    reachable env s ->
    reachable env
      (fst (fst (search_execution env s search_button search_query
                   num_results h))).
(* ================================================================== *)
(** ** Dictionaries and slices *)

Unset Implicit Arguments.

Lemma dict_lookup_set_same (d : dict) (k : string) (v : value) :
  dict_lookup (dict_set d k v) k = Some v.
Proof.
  induction d as [|[k' v'] d IH]; simpl.
  - now rewrite String.eqb_refl.
  - destruct (String.eqb_spec k' k) as [->|Hne]; simpl.
    + now rewrite String.eqb_refl.
    + destruct (String.eqb_spec k' k); [contradiction|exact IH].
Qed.

Lemma dict_lookup_set_other (d : dict) (k k' : string) (v : value) :
  k <> k' -> dict_lookup (dict_set d k v) k' = dict_lookup d k'.
Proof.
  intros Hne. induction d as [|[k0 v0] d IH]; simpl.
  - destruct (String.eqb_spec k k'); [contradiction|reflexivity].
  - destruct (String.eqb_spec k0 k) as [->|Hk]; simpl.
    + destruct (String.eqb_spec k k'); [contradiction|reflexivity].
    + destruct (String.eqb_spec k0 k'); [reflexivity|exact IH].
Qed.

Lemma dict_get_set_same (d : dict) (k : string) (v default : value) :
  dict_get (dict_set d k v) k default = v.
Proof. unfold dict_get. now rewrite dict_lookup_set_same. Qed.

Lemma dict_get_set_other (d : dict) (k k' : string) (v default : value) :
  k <> k' -> dict_get (dict_set d k v) k' default = dict_get d k' default.
Proof. intros H. unfold dict_get. now rewrite dict_lookup_set_other. Qed.

Lemma dict_has_set_same (d : dict) (k : string) (v : value) :
  dict_has (dict_set d k v) k = true.
Proof. unfold dict_has. now rewrite dict_lookup_set_same. Qed.

Lemma dict_has_set_other (d : dict) (k k' : string) (v : value) :
  k <> k' -> dict_has (dict_set d k v) k' = dict_has d k'.
Proof. intros H. unfold dict_has. now rewrite dict_lookup_set_other. Qed.

Lemma slice_to_nonneg {A : Type} (xs : list A) (n : Z) :
  0 <= n -> slice_to xs n = firstn (Z.to_nat n) xs.
Proof.
  intros H. unfold slice_to.
  destruct (Z.leb_spec 0 n); [reflexivity|lia].
Qed.

Lemma Subseq_refl {A : Type} (xs : list A) : Subseq xs xs.
Proof. induction xs; constructor; assumption. Qed.

Lemma Subseq_nil_l {A : Type} (ys : list A) : Subseq [] ys.
Proof. induction ys; constructor; assumption. Qed.

Lemma Subseq_trans {A : Type} (xs ys zs : list A) :
  Subseq xs ys -> Subseq ys zs -> Subseq xs zs.
Proof.
  intros Hxy Hyz. revert xs Hxy.
  induction Hyz as [|z ys zs _ IH|z ys zs _ IH]; intros xs Hxy.
  - exact Hxy.
  - inversion Hxy; subst.
    + apply Subseq_keep. now apply IH.
    + apply Subseq_drop. now apply IH.
  - apply Subseq_drop. now apply IH.
Qed.

Lemma Subseq_firstn {A : Type} (n : nat) (xs : list A) :
  Subseq (firstn n xs) xs.
Proof.
  revert n. induction xs as [|x xs IH]; intros [|n]; simpl.
  - constructor.
  - constructor.
  - apply Subseq_nil_l.
  - apply Subseq_keep, IH.
Qed.

Lemma Subseq_filter {A : Type} (p : A -> bool) (xs : list A) :
  Subseq (filter p xs) xs.
Proof.
  induction xs as [|x xs IH]; simpl.
  - constructor.
  - destruct (p x); [apply Subseq_keep|apply Subseq_drop]; exact IH.
Qed.

Lemma Subseq_slice_to {A : Type} (xs : list A) (n : Z) :
  Subseq (slice_to xs n) xs.
Proof. unfold slice_to. destruct (0 <=? n); apply Subseq_firstn. Qed.

Lemma Subseq_map {A B : Type} (f : A -> B) (xs ys : list A) :
  Subseq xs ys -> Subseq (map f xs) (map f ys).
Proof. induction 1; simpl; constructor; assumption. Qed.

(* ================================================================== *)
(** ** The methods, call by call *)

Lemma search_companies_eq (env : Env) (q : string) (k : Z) (h : list event) :
  search_companies env q k h =
  (match serper_post env h q (k * 2) with Some rs => rs | None => [] end,
   [EvSearch q k]).
Proof. reflexivity. Qed.

Lemma evaluate_relevance_eq (env : Env) (rs : list dict) (q : string)
    (h : list event) :
  evaluate_relevance env rs q h =
  (match try_evaluate (groq_relevance env h q (summarize 0 rs)) rs with
   | Ok enhanced_results => enhanced_results
   | Raise _ => map fail_open rs
   end, [EvJudge rs q]).
Proof. reflexivity. Qed.

Lemma refine_search_query_eq (env : Env) (q : string) (failed : list dict)
    (h : list event) :
  refine_search_query env q failed h =
  (match groq_refine env h q (failed_titles failed) with
   | Some refined => refined
   | None => (q ++ " company contact information")%string
   end, [EvRefine q failed]).
Proof. reflexivity. Qed.

Lemma scrape_website_eq (env : Env) (url : value) (h : list event) :
  scrape_website env url h =
  (option_map (clean_html_content env) (chrome_page_source env h url),
   [EvScrape url]).
Proof. reflexivity. Qed.

Lemma extract_lead_info_eq (env : Env) (content : string) (url : value)
    (h : list event) :
  extract_lead_info env content url h =
  (match groq_extract env h content url with
   | Parsed lead_data => Ok lead_data
   | _ => _create_fallback_lead_data env url content
   end, [EvExtract content url]).
Proof.
  unfold extract_lead_info, bind, ask, call, ret; simpl.
  destruct (groq_extract env h content url); reflexivity.
Qed.

(** One iteration of the [while] loop. *)
Lemma relevance_loop_S (env : Env) (cfg : Config) (sq : string) (n : Z)
    (k : nat) (q : string) (last : loop_exit) (h : list event) :
  relevance_loop env cfg sq n (S k) q last h =
  let rs := fst (search_companies env q (n * 2) h) in
  match rs with
  | [] => (NoResults, [EvSearch q (n * 2)])
  | _ =>
      let ev := fst (evaluate_relevance env rs sq (h ++ [EvSearch q (n * 2)])) in
      if sufficient cfg ev then (Batch ev, [EvSearch q (n * 2); EvJudge rs sq])
      else if max_retries cfg - Z.of_nat (S k) <? max_retries cfg - 1 then
        let q' := fst (refine_search_query env sq ev
                         (h ++ [EvSearch q (n * 2); EvJudge rs sq])) in
        let r := relevance_loop env cfg sq n k q' (Batch ev)
                   (h ++ [EvSearch q (n * 2); EvJudge rs sq; EvRefine sq ev]) in
        (fst r,
         EvSearch q (n * 2) :: EvJudge rs sq :: EvRefine sq ev :: snd r)
      else (Batch ev, [EvSearch q (n * 2); EvJudge rs sq])
  end.
Proof.
  cbn [relevance_loop]. unfold bind at 1.
  rewrite search_companies_eq. cbn [fst snd].
  destruct (match serper_post env h q (n * 2 * 2) with
            | Some rs => rs | None => [] end) as [|r rs] eqn:Hrs.
  - reflexivity.
  - unfold bind at 1. rewrite evaluate_relevance_eq. cbn [fst snd].
    set (ev := match try_evaluate _ _ with Ok e => e | Raise _ => _ end).
    destruct (sufficient cfg ev); [reflexivity|].
    destruct (_ <? _); [|reflexivity].
    unfold bind at 1. rewrite refine_search_query_eq. cbn [fst snd].
    rewrite <- !app_assoc. cbn [app].
    destruct (relevance_loop _ _ _ _ _ _ _ _) as [exit evs].
    reflexivity.
Qed.

(** Every run of the loop is a run of [attempts]. *)
Lemma relevance_loop_attempts (env : Env) (cfg : Config) (sq : string)
    (n : Z) (k : nat) :
  forall (q : string) (last : loop_exit) (h : list event),
    attempts env cfg sq n k q h last
      (fst (relevance_loop env cfg sq n k q last h))
      (snd (relevance_loop env cfg sq n k q last h)).
Proof.
  induction k as [|k IH]; intros q last h.
  - cbn. constructor.
  - rewrite relevance_loop_S. cbv zeta.
    destruct (fst (search_companies env q (n * 2) h)) as [|r rs] eqn:Hrs.
    + cbn [fst snd]. now constructor.
    + set (ev := fst (evaluate_relevance env (r :: rs) sq _)).
      destruct (sufficient cfg ev) eqn:Hsuf.
      * cbn [fst snd]. eapply attempts_accept; eauto. discriminate.
      * destruct (Z.ltb_spec (max_retries cfg - Z.of_nat (S k))
                             (max_retries cfg - 1)) as [Hlt|Hge].
        -- destruct k as [|k]; [lia|]. cbn [fst snd].
           eapply attempts_retry; eauto. discriminate.
        -- assert (k = O) by lia. subst k. cbn [fst snd].
           eapply attempts_exhausted; eauto. discriminate.
Qed.

(* ================================================================== *)
(** ** Counting calls *)

Lemma calls_app (kind : event -> bool) (xs ys : list event) :
  calls kind (xs ++ ys) = (calls kind xs + calls kind ys)%nat.
Proof. unfold calls. now rewrite filter_app, length_app. Qed.

Lemma calls_cons (kind : event -> bool) (e : event) (evs : list event) :
  calls kind (e :: evs) =
  ((if kind e then 1 else 0) + calls kind evs)%nat.
Proof. unfold calls. simpl. now destruct (kind e). Qed.

Lemma calls_none (kind : event -> bool) (evs : list event) :
  Forall (fun e => kind e = false) evs -> calls kind evs = O.
Proof.
  induction 1 as [|e evs He _ IH]; [reflexivity|].
  rewrite calls_cons, He, IH. reflexivity.
Qed.

Lemma searches_found_shift (env : Env) (h xs evs : list event) :
  searches_found env h (xs ++ evs) -> searches_found env (h ++ xs) evs.
Proof.
  intros H pre q k post ->.
  rewrite <- app_assoc. apply (H (xs ++ pre) q k post).
  now rewrite <- app_assoc.
Qed.

Lemma batches_low_shift (env : Env) (cfg : Config) (h xs evs : list event) :
  batches_low env cfg h (xs ++ evs) -> batches_low env cfg (h ++ xs) evs.
Proof.
  intros H pre rs q post ->.
  rewrite <- app_assoc. apply (H (xs ++ pre) rs q post).
  now rewrite <- app_assoc.
Qed.

Section LoopFacts.
Variables (env : Env) (cfg : Config) (sq : string) (n : Z).

(** The loop only searches, judges and refines, and no more often than
    it has iterations. *)
Lemma attempts_bounds k q h last exit evs :
  attempts env cfg sq n k q h last exit evs ->
  (calls is_search evs <= k)%nat /\
  (calls is_judge evs <= calls is_search evs)%nat /\
  (calls is_refine evs <= Nat.pred k)%nat /\
  Forall (fun e => is_step5 e = false) evs.
Proof.
  induction 1 as [q h last|k q h last Hrs|k q h last rs ev _ _ _ _
                  |q h last rs ev _ _ _ _
                  |k q h last rs ev q' exit evs _ _ _ _ _ _ IH].
  - repeat split; cbn; auto.
  - repeat split; cbn; auto; lia.
  - repeat split; cbn; auto; lia.
  - repeat split; cbn; auto.
  - destruct IH as (Hs & Hj & Hr & Hall).
    rewrite !calls_cons. cbn [is_search is_judge is_refine].
    repeat split; cbn [Nat.pred] in *; try lia.
    repeat constructor. exact Hall.
Qed.

(** Every search of the loop is made with twice the target count. *)
Lemma attempts_search_count k q h last exit evs :
  attempts env cfg sq n k q h last exit evs ->
  Forall (fun e => match e with
                   | EvSearch _ m => m = n * 2
                   | _ => True
                   end) evs.
Proof.
  induction 1; repeat constructor; assumption.
Qed.

(** A search that finds nothing is the last call of the loop, which then
    leaves by [return pd.DataFrame()]. *)
Lemma attempts_dead_search k q h last exit evs :
  attempts env cfg sq n k q h last exit evs ->
  forall pre q' m post,
    evs = pre ++ EvSearch q' m :: post ->
    fst (search_companies env q' m (h ++ pre)) = [] ->
    post = [] /\ exit = NoResults.
Proof.
  induction 1 as [q h last|k q h last Hrs|k q h last rs ev Hrs Hne _ _
                  |q h last rs ev Hrs Hne _ _
                  |k q h last rs ev q0 exit evs Hrs Hne _ _ _ _ IH];
    intros pre q' m post Hsplit Hnone.
  - now destruct pre.
  - destruct pre as [|e pre]; cbn in Hsplit.
    + injection Hsplit as _ _ <-. auto.
    + injection Hsplit as _ Hsplit. now destruct pre.
  - destruct pre as [|e pre]; cbn in Hsplit.
    + injection Hsplit as <- <- _. rewrite app_nil_r in Hnone.
      congruence.
    + injection Hsplit as _ Hsplit.
      destruct pre as [|e' pre]; [discriminate|].
      injection Hsplit as _ Hsplit. now destruct pre.
  - destruct pre as [|e pre]; cbn in Hsplit.
    + injection Hsplit as <- <- _. rewrite app_nil_r in Hnone. congruence.
    + injection Hsplit as _ Hsplit.
      destruct pre as [|e' pre]; [discriminate|].
      injection Hsplit as _ Hsplit. now destruct pre.
  - destruct pre as [|e pre]; cbn in Hsplit.
    + injection Hsplit as <- <- _. rewrite app_nil_r in Hnone. congruence.
    + injection Hsplit as <- Hsplit.
      destruct pre as [|e' pre]; [discriminate|].
      injection Hsplit as <- Hsplit.
      destruct pre as [|e'' pre]; [discriminate|].
      injection Hsplit as <- Hsplit.
      apply (IH pre q' m post Hsplit).
      rewrite <- app_assoc. exact Hnone.
Qed.

(** When every search finds something and every batch falls short, the
    loop runs all its iterations and leaves with the last batch. *)
Lemma attempts_all_low k q h last exit evs :
  attempts env cfg sq n k q h last exit evs ->
  forall k', k = S k' ->
  searches_found env h evs ->
  batches_low env cfg h evs ->
  calls is_search evs = S k' /\
  calls is_judge evs = S k' /\
  calls is_refine evs = k' /\
  exists pre q' rs,
    evs = pre ++ [EvSearch q' (n * 2); EvJudge rs sq] /\
    rs = fst (search_companies env q' (n * 2) (h ++ pre)) /\
    exit = Batch (fst (evaluate_relevance env rs sq
                         (h ++ pre ++ [EvSearch q' (n * 2)]))).
Proof.
  induction 1 as [q h last|k q h last Hrs|k q h last rs ev Hrs Hne Hev Hsuf
                  |q h last rs ev Hrs Hne Hev Hsuf
                  |k q h last rs ev q0 exit evs Hrs Hne Hev Hsuf Hq _ IH];
    intros k' Hk Hfound Hlow.
  - discriminate.
  - exfalso. apply (Hfound [] q (n * 2) [] eq_refl).
    now rewrite app_nil_r.
  - exfalso.
    specialize (Hlow [EvSearch q (n * 2)] rs sq [] eq_refl).
    congruence.
  - injection Hk as <-.
    split; [reflexivity|split; [reflexivity|split; [reflexivity|]]].
    exists [], q, rs. cbn [app]. rewrite app_nil_r.
    repeat split; congruence.
  - injection Hk as <-.
    change (EvSearch q (n * 2) :: EvJudge rs sq :: EvRefine sq ev :: evs)
      with ([EvSearch q (n * 2); EvJudge rs sq; EvRefine sq ev] ++ evs)
      in Hfound, Hlow.
    apply searches_found_shift in Hfound.
    apply batches_low_shift in Hlow.
    destruct (IH k eq_refl Hfound Hlow)
      as (Hs & Hj & Hr & pre & q' & rs' & Hevs & Hrs' & Hexit).
    rewrite !calls_cons. cbn [is_search is_judge is_refine].
    repeat split; try lia.
    exists ([EvSearch q (n * 2); EvJudge rs sq; EvRefine sq ev] ++ pre),
           q', rs'.
    repeat split.
    + cbn. now rewrite Hevs.
    + rewrite Hrs'. now rewrite <- app_assoc.
    + rewrite Hexit. now rewrite <- !app_assoc.
Qed.
End LoopFacts.

(* ================================================================== *)
(** ** Step 5, candidate by candidate *)

Lemma scrape_and_extract_cons (env : Env) (result : dict) (rest acc : list dict)
    (h : list event) (title link : value) :
  dict_lookup result "title" = Some title ->
  dict_lookup result "link" = Some link ->
  scrape_and_extract env (result :: rest) acc h =
  match fetched env h link with
  | Some content =>
      match lead_record env h result title link content with
      | Ok lead =>
          let r := scrape_and_extract env rest (acc ++ [lead])
                     (h ++ [EvScrape link; EvExtract content link;
                            EvSleep 2]) in
          (fst r,
           EvScrape link :: EvExtract content link :: EvSleep 2 :: snd r)
      | Raise e => (Raise e, [EvScrape link; EvExtract content link])
      end
  | None =>
      let r := scrape_and_extract env rest acc
                 (h ++ [EvScrape link; EvSleep 2]) in
      (fst r, EvScrape link :: EvSleep 2 :: snd r)
  end.
Proof.
  intros Ht Hl. cbn [scrape_and_extract]. rewrite Ht, Hl.
  unfold fetched, lead_record.
  unfold bind at 1. rewrite scrape_website_eq. cbn [fst snd].
  destruct (has_content _) as [content|].
  - unfold bind at 1. unfold bind at 1.
    rewrite extract_lead_info_eq. cbn [fst snd].
    destruct (match groq_extract env (h ++ [EvScrape link]) content link with
              | Parsed lead_data => Ok lead_data
              | _ => _create_fallback_lead_data env link content
              end) as [lead_data|e].
    + unfold bind at 1. unfold ask at 1. unfold ret at 1.
      cbn [fst snd]. unfold bind at 1. unfold call at 1.
      rewrite <- !app_assoc. cbn [app fst snd].
      destruct (scrape_and_extract _ _ _ _) as [out evs]. reflexivity.
    + reflexivity.
  - unfold bind at 1. unfold ret at 1.
    unfold bind at 1. unfold call at 1.
    rewrite <- !app_assoc. cbn [app fst snd].
    destruct (scrape_and_extract _ _ _ _) as [out evs]. reflexivity.
Qed.

Lemma scrape_and_extract_case (env : Env) (result : dict)
    (rest acc : list dict) (h : list event) (title link : value) :
  dict_lookup result "title" = Some title ->
  dict_lookup result "link" = Some link ->
  step5_case env result rest acc h title link.
Proof.
  intros Ht Hl.
  pose proof (scrape_and_extract_cons env result rest acc h title link Ht Hl)
    as Hcons.
  destruct (fetched env h link) as [content|] eqn:Hfetch.
  - destruct (lead_record env h result title link content) as [lead|e]
      eqn:Hlead.
    + eapply step5_record; eassumption.
    + eapply step5_raise; eassumption.
  - now apply step5_skip.
Qed.

Lemma scrape_and_extract_no_title (env : Env) (result : dict)
    (rest acc : list dict) (h : list event) :
  dict_lookup result "title" = None ->
  scrape_and_extract env (result :: rest) acc h = (Raise (KeyError "title"), []).
Proof. intros Ht. cbn [scrape_and_extract]. now rewrite Ht. Qed.

Lemma scrape_and_extract_no_link (env : Env) (result : dict)
    (rest acc : list dict) (h : list event) (title : value) :
  dict_lookup result "title" = Some title ->
  dict_lookup result "link" = None ->
  scrape_and_extract env (result :: rest) acc h = (Raise (KeyError "link"), []).
Proof. intros Ht Hl. cbn [scrape_and_extract]. now rewrite Ht, Hl. Qed.

(** Step 5 fetches, extracts and pauses, nothing else. *)
Lemma scrape_and_extract_events (env : Env) (cands : list dict) :
  forall (acc : list dict) (h : list event),
    Forall (fun e => is_step5 e = true)
           (snd (scrape_and_extract env cands acc h)).
Proof.
  induction cands as [|result rest IH]; intros acc h.
  - constructor.
  - destruct (dict_lookup result "title") as [title|] eqn:Ht.
    2:{ rewrite scrape_and_extract_no_title by assumption. constructor. }
    destruct (dict_lookup result "link") as [link|] eqn:Hl.
    2:{ erewrite scrape_and_extract_no_link by eassumption. constructor. }
    destruct (scrape_and_extract_case env result rest acc h title link Ht Hl)
      as [content lead _ _ ->|content e _ _ ->|_ ->]; cbn [snd];
      repeat (constructor; [reflexivity|]); try apply IH. constructor.
Qed.

Lemma process_batch_events (env : Env) (ev : list dict) (n : Z)
    (h : list event) :
  Forall (fun e => is_step5 e = true) (snd (process_batch env ev n h)).
Proof.
  unfold process_batch.
  destruct (select_final ev n) as [|c cs]; [constructor|].
  unfold bind.
  pose proof (scrape_and_extract_events env (c :: cs) [] h) as H.
  destruct (scrape_and_extract env (c :: cs) [] h) as [out evs].
  cbn [fst snd ret] in *. now rewrite app_nil_r.
Qed.

(** The controller: the loop, then steps 4 to 6 on what it left. *)
Lemma generate_leads_dataframe_eq (env : Env) (cfg : Config) (sq : string)
    (n : Z) (h : list event) :
  generate_leads_dataframe env cfg sq n h =
  let r := relevance_loop env cfg sq n (Z.to_nat (max_retries cfg)) sq
             NeverRan h in
  match fst r with
  | NoResults => (Ok empty_frame, snd r)
  | NeverRan => (Raise (UnboundLocalError "relevant_results"), snd r)
  | Batch ev =>
      (fst (process_batch env ev n (h ++ snd r)),
       snd r ++ snd (process_batch env ev n (h ++ snd r)))
  end.
Proof.
  unfold generate_leads_dataframe, bind.
  destruct (relevance_loop _ _ _ _ _ _ _ _) as [[|ev|] evs]; cbn [fst snd].
  - cbn. now rewrite app_nil_r.
  - destruct (process_batch env ev n (h ++ evs)). reflexivity.
  - cbn. now rewrite app_nil_r.
Qed.

(* ================================================================== *)
(** ** Judgments *)

Lemma enhance_is_relevant (result : dict) (info : option dict) :
  dict_lookup (enhance result info) "is_relevant" =
  Some match info with
       | Some (_ :: _ as info) => dict_get info "is_relevant" (VBool false)
       | _ => VBool false
       end.
Proof.
  unfold enhance. destruct info as [[|b info]|];
    rewrite !dict_lookup_set_other by discriminate;
    apply dict_lookup_set_same.
Qed.

Lemma enhance_confidence (result : dict) (info : option dict) :
  dict_lookup (enhance result info) "relevance_confidence" =
  Some match info with
       | Some (_ :: _ as info) => dict_get info "confidence" (VFloat 0)
       | _ => VFloat 0
       end.
Proof.
  unfold enhance. destruct info as [[|b info]|];
    rewrite !dict_lookup_set_other by discriminate;
    apply dict_lookup_set_same.
Qed.

Lemma fail_open_is_relevant (result : dict) :
  dict_lookup (fail_open result) "is_relevant" = Some (VBool true).
Proof.
  unfold fail_open. rewrite !dict_lookup_set_other by discriminate.
  apply dict_lookup_set_same.
Qed.

Lemma fail_open_confidence (result : dict) :
  dict_lookup (fail_open result) "relevance_confidence"
  = Some (VFloat (1 # 2)).
Proof.
  unfold fail_open. rewrite !dict_lookup_set_other by discriminate.
  apply dict_lookup_set_same.
Qed.

(** With no judgment at all, every result gets the default one. *)
Lemma enhance_from_no_judgment (search_results : list dict) (rest : list dict) :
  forall p,
    enhance_from search_results [] p rest
    = Ok (map (fun result => enhance result None) rest).
Proof.
  induction rest as [|result rest IH]; intros p; cbn.
  - reflexivity.
  - now rewrite IH.
Qed.

Lemma relevant_none (batch : list dict) :
  Forall (fun r => dict_lookup r "is_relevant" = Some (VBool false)) batch ->
  relevant batch = [].
Proof.
  induction 1 as [|r batch Hr _ IH]; [reflexivity|].
  unfold relevant in *. cbn. unfold dict_get. now rewrite Hr.
Qed.

Lemma relevant_all (batch : list dict) :
  Forall (fun r => dict_lookup r "is_relevant" = Some (VBool true)) batch ->
  relevant batch = batch.
Proof.
  induction 1 as [|r batch Hr _ IH]; [reflexivity|].
  unfold relevant in *. cbn. unfold dict_get. rewrite Hr. cbn. now f_equal.
Qed.

(** A batch without a relevant item is below any positive threshold. *)
Lemma insufficient_without_relevant (cfg : Config) (batch : list dict) :
  (0 < relevance_threshold cfg)%Q ->
  relevant batch = [] ->
  sufficient cfg batch = false.
Proof.
  intros Hpos Hnone. unfold sufficient, relevance_rate. rewrite Hnone.
  destruct (Qle_bool _ _) eqn:Hle; [|reflexivity].
  apply Qle_bool_iff in Hle. exfalso.
  apply (Qlt_irrefl 0). eapply Qlt_le_trans; [exact Hpos|].
  destruct batch; [exact Hle|].
  eapply Qle_trans; [exact Hle|]. cbn. unfold Qle. cbn. lia.
Qed.

(** A batch judged relevant throughout meets any threshold up to one. *)
Lemma sufficient_all_relevant (cfg : Config) (batch : list dict) :
  (relevance_threshold cfg <= 1)%Q ->
  batch <> [] ->
  relevant batch = batch ->
  sufficient cfg batch = true.
Proof.
  intros Hle Hne Hall. unfold sufficient, relevance_rate. rewrite Hall.
  destruct batch as [|r batch]; [contradiction|].
  apply Qle_bool_iff. eapply Qle_trans; [exact Hle|].
  unfold Qle. cbn [Qnum Qden]. 
  rewrite Z.mul_1_l, Z.mul_1_r.
  set (len := List.length (r :: batch)).
  assert (Hlen : len <> O) by discriminate.
  rewrite <- (positive_nat_Z (Pos.of_nat len)).
  rewrite Nat2Pos.id by exact Hlen. lia.
Qed.

(** The judged batch is the provider's list, item by item, each with its
    judgment keys set. *)
Lemma enhance_from_shape (search_results : list dict)
    (relevance_data : list value) (rest : list dict) :
  forall p enhanced,
    enhance_from search_results relevance_data p rest = Ok enhanced ->
    Forall2 (fun result e => exists info, e = enhance result info)
            rest enhanced.
Proof.
  induction rest as [|result rest IH]; intros p enhanced H; cbn in H.
  - injection H as <-. constructor.
  - destruct (find_relevance _ _) as [info|]; [|discriminate].
    destruct (enhance_from _ _ _ rest) as [enhanced'|] eqn:Hrest;
      [|discriminate].
    injection H as <-. constructor; eauto.
Qed.

Lemma enhance_other_key (result : dict) (info : option dict) (k : string) :
  k <> "is_relevant" -> k <> "relevance_confidence" ->
  k <> "relevance_reason" ->
  dict_lookup (enhance result info) k = dict_lookup result k.
Proof.
  intros H1 H2 H3. unfold enhance.
  destruct info as [[|b info]|];
    now rewrite !dict_lookup_set_other by congruence.
Qed.

Lemma fail_open_other_key (result : dict) (k : string) :
  k <> "is_relevant" -> k <> "relevance_confidence" ->
  k <> "relevance_reason" ->
  dict_lookup (fail_open result) k = dict_lookup result k.
Proof.
  intros H1 H2 H3. unfold fail_open.
  now rewrite !dict_lookup_set_other by congruence.
Qed.

(** Evaluation keeps every key of a result but the three it sets, and the
    order of the results. *)
Lemma evaluate_relevance_keeps (env : Env) (rs : list dict) (q : string)
    (h : list event) (k : string) :
  k <> "is_relevant" -> k <> "relevance_confidence" ->
  k <> "relevance_reason" ->
  map (fun e => dict_lookup e k) (fst (evaluate_relevance env rs q h))
  = map (fun r => dict_lookup r k) rs.
Proof.
  intros H1 H2 H3. rewrite evaluate_relevance_eq. cbn [fst].
  destruct (try_evaluate _ rs) as [enhanced|e] eqn:Htry.
  - unfold try_evaluate in Htry.
    destruct (groq_relevance _ _ _ _) as [data|]; [|discriminate].
    apply enhance_from_shape in Htry.
    induction Htry as [|r e rs' es (info & ->) _ IH]; [reflexivity|].
    cbn. rewrite enhance_other_key by assumption. now f_equal.
  - rewrite map_map. apply map_ext. intros r.
    now apply fail_open_other_key.
Qed.

Lemma evaluate_relevance_length (env : Env) (rs : list dict) (q : string)
    (h : list event) :
  List.length (fst (evaluate_relevance env rs q h)) = List.length rs.
Proof.
  rewrite <- (length_map (fun e => dict_lookup e "link")).
  rewrite evaluate_relevance_keeps by discriminate.
  apply length_map.
Qed.

(** What a record is, by the outcome of its extraction. *)
Lemma lead_record_eq (env : Env) (h : list event) (result : dict)
    (title link : value) (content : string) :
  lead_record env h result title link content =
  match match groq_extract env (h ++ [EvScrape link]) content link with
        | Parsed lead_data => Ok lead_data
        | _ => _create_fallback_lead_data env link content
        end with
  | Ok lead_data =>
      Ok (add_metadata lead_data result title
            (datetime_now env (h ++ [EvScrape link; EvExtract content link])))
  | Raise e => Raise e
  end.
Proof. unfold lead_record. now rewrite extract_lead_info_eq. Qed.

Lemma fallback_eq (env : Env) (website_url : value) (content : string) :
  _create_fallback_lead_data env website_url content =
  match company_name env website_url with
  | Ok name =>
      Ok [("company_name", VStr name);
          ("email", VStr match findall_email env content with
                         | [] => "N/A"
                         | _ => join ", " (firstn 3 (findall_email env content))
                         end);
          ("phone", VStr match findall_phone env content with
                         | [] => "N/A"
                         | _ => join ", "
                                  (map (fun '(_, area, exchange, line) =>
                                          join "-" [area; exchange; line])
                                       (firstn 2 (findall_phone env content)))
                         end);
          ("linkedin", VStr match findall_linkedin env content with
                            | [] => "N/A"
                            | _ => join ", "
                                     (firstn 2 (findall_linkedin env content))
                            end);
          ("website", website_url);
          ("industry", VStr "N/A");
          ("description", VStr (if (200 <? String.length content)%nat
                                then (substring 0 200 content ++ "...")%string
                                else content));
          ("address", VStr "N/A");
          ("contact_person", VStr "N/A");
          ("services", VStr "N/A");
          ("company_size", VStr "N/A");
          ("founded_year", VStr "N/A");
          ("revenue_range", VStr "N/A");
          ("technologies", VStr "N/A");
          ("social_media", VStr "N/A")]
  | Raise e => Raise e
  end.
Proof. reflexivity. Qed.

(** The fallback returns a record exactly for the links [urlparse]
    accepts, and these are strings. *)
Lemma company_name_ok (env : Env) (website_url : value) (name : string) :
  company_name env website_url = Ok name ->
  exists url, website_url = VStr url /\ domain_title env url = Some name.
Proof.
  unfold company_name. destruct website_url as [|b|n|q|url|l|d];
    try (destruct (truthy _); discriminate).
  destruct (domain_title env url) as [name'|] eqn:Hd; [|discriminate].
  intros [= <-]. eauto.
Qed.

Lemma fallback_returns (env : Env) (website_url : value) (content : string) :
  (exists name, company_name env website_url = Ok name) <->
  (exists lead_data,
     _create_fallback_lead_data env website_url content = Ok lead_data).
Proof.
  rewrite fallback_eq. split.
  - intros [name ->]. eauto.
  - intros [lead_data H].
    destruct (company_name env website_url) as [name|e]; [eauto|discriminate].
Qed.

(** The URLs step 5 fetches are links of the candidates, in their order,
    from the first on: all of them when it comes to its end. *)
Lemma scrape_and_extract_urls (env : Env) (cands : list dict) :
  forall acc h,
    (exists n,
       scraped (snd (scrape_and_extract env cands acc h))
       = firstn n (map (fun r => dict_get r "link" VNone) cands)) /\
    (forall all_leads,
       fst (scrape_and_extract env cands acc h) = Ok all_leads ->
       scraped (snd (scrape_and_extract env cands acc h))
       = map (fun r => dict_get r "link" VNone) cands).
Proof.
  induction cands as [|result rest IH]; intros acc h.
  - split; [now exists O|reflexivity].
  - destruct (dict_lookup result "title") as [title|] eqn:Ht.
    2:{ rewrite scrape_and_extract_no_title by assumption.
        split; [now exists O|discriminate]. }
    destruct (dict_lookup result "link") as [link|] eqn:Hl.
    2:{ rewrite (scrape_and_extract_no_link env result rest acc h title)
          by assumption.
        split; [now exists O|discriminate]. }
    cbn [map]. unfold dict_get at 1 3. rewrite Hl.
    destruct (scrape_and_extract_case env result rest acc h title link Ht Hl)
      as [content lead _ _ ->|content e _ _ ->|_ ->]; cbn [fst snd scraped].
    + destruct (IH (acc ++ [lead])
                  (h ++ [EvScrape link; EvExtract content link; EvSleep 2]))
        as [[n Hn] Hall].
      split.
      * exists (S n). cbn [firstn]. now rewrite Hn.
      * intros leads Hok. now rewrite (Hall leads Hok).
    + split; [|discriminate]. exists 1%nat. reflexivity.
    + destruct (IH acc (h ++ [EvScrape link; EvSleep 2])) as [[n Hn] Hall].
      split.
      * exists (S n). cbn [firstn]. now rewrite Hn.
      * intros leads Hok. now rewrite (Hall leads Hok).
Qed.

(** Step 5 comes to its end when every candidate has its two keys and a
    link [urlparse] accepts. *)
Lemma scrape_and_extract_ends (env : Env) (cands : list dict) :
  Forall well_keyed cands ->
  links_parse env cands ->
  forall acc h,
    exists all_leads, fst (scrape_and_extract env cands acc h) = Ok all_leads.
Proof.
  induction 1 as [|result rest [Ht Hl] _ IH]; intros Hlinks acc h.
  - now exists acc.
  - unfold dict_has in Ht, Hl.
    destruct (dict_lookup result "title") as [title|] eqn:Et; [|discriminate].
    destruct (dict_lookup result "link") as [link|] eqn:El; [|discriminate].
    assert (Hrest : links_parse env rest).
    { intros r l Hin. apply Hlinks. now right. }
    destruct (scrape_and_extract_case env result rest acc h title link Et El)
      as [content lead _ _ ->|content e _ Hraise _|_ ->]; cbn [fst].
    + now apply IH.
    + exfalso. rewrite lead_record_eq in Hraise.
      destruct (Hlinks result link (or_introl eq_refl) El) as [name Hname].
      destruct (proj1 (fallback_returns env link content) (ex_intro _ name Hname))
        as [lead_data Hfb].
      rewrite Hfb in Hraise.
      destruct (groq_extract env (h ++ [EvScrape link]) content link);
        discriminate.
    + now apply IH.
Qed.

(* ================================================================== *)
(** ** Where the records come from *)

Lemma record_at_shift (env : Env) (h pre evs : list event)
    (result lead : dict) :
  record_at env (h ++ pre) evs result lead ->
  record_at env h (pre ++ evs) result lead.
Proof.
  intros (before & after & title & link & content & -> & Ht & Hl & Hf & Hrec).
  exists (pre ++ before), after, title, link, content.
  rewrite <- app_assoc in Hf, Hrec. rewrite <- app_assoc. auto.
Qed.

(** The records gathered are those of the candidates whose page gave text,
    in the order of the candidates, after the records gathered before; each
    was built at a fetch and an extraction of the run. *)
Lemma scrape_and_extract_provenance (env : Env) (cands : list dict) :
  forall acc h leads,
    fst (scrape_and_extract env cands acc h) = Ok leads ->
    exists kept gathered,
      Subseq kept cands /\
      leads = acc ++ gathered /\
      Forall2 (record_at env h (snd (scrape_and_extract env cands acc h)))
              kept gathered.
Proof.
  induction cands as [|result rest IH]; intros acc h leads Hrun.
  - cbn in Hrun. injection Hrun as <-.
    exists [], []. rewrite app_nil_r. repeat constructor.
  - destruct (dict_lookup result "title") as [title|] eqn:Ht.
    2:{ rewrite scrape_and_extract_no_title in Hrun by assumption.
        discriminate. }
    destruct (dict_lookup result "link") as [link|] eqn:Hl.
    2:{ rewrite (scrape_and_extract_no_link env result rest acc h title)
          in Hrun by assumption. discriminate. }
    destruct (scrape_and_extract_case env result rest acc h title link Ht Hl)
      as [content lead Hf Hlead Heq|content e _ _ Heq|Hf Heq];
      rewrite Heq in Hrun |- *; cbn [fst snd] in Hrun |- *.
    + destruct (IH _ _ _ Hrun) as (kept & gathered & Hsub & -> & Hrec).
      exists (result :: kept), (lead :: gathered).
      rewrite <- app_assoc. repeat split.
      * now apply Subseq_keep.
      * constructor.
        -- exists [], (snd (scrape_and_extract env rest (acc ++ [lead])
                              (h ++ [EvScrape link; EvExtract content link;
                                     EvSleep 2]))),
                  title, link, content.
           rewrite app_nil_r. auto.
        -- eapply Forall2_impl; [|exact Hrec]. intros r l Hat.
           apply (record_at_shift env h
                    [EvScrape link; EvExtract content link; EvSleep 2]).
           exact Hat.
    + discriminate.
    + destruct (IH _ _ _ Hrun) as (kept & gathered & Hsub & -> & Hrec).
      exists kept, gathered. repeat split; auto.
      * now apply Subseq_drop.
      * eapply Forall2_impl; [|exact Hrec]. intros r l Hat.
        apply (record_at_shift env h [EvScrape link; EvSleep 2]).
        exact Hat.
Qed.

Lemma record_at_of (env : Env) (h evs : list event) (result lead : dict) :
  record_at env h evs result lead -> record_of env result lead.
Proof.
  intros (before & after & title & link & content & _ & Ht & Hl & _ & Hrec).
  exists (h ++ before), title, link, content. auto.
Qed.

Lemma scrape_and_extract_records (env : Env) (cands : list dict)
    (h : list event) (leads : list dict) :
  fst (scrape_and_extract env cands [] h) = Ok leads ->
  exists kept, Subseq kept cands /\ Forall2 (record_of env) kept leads.
Proof.
  intros Hrun.
  destruct (scrape_and_extract_provenance env cands [] h leads Hrun)
    as (kept & gathered & Hsub & Hleads & Hrec).
  cbn [app] in Hleads. subst gathered.
  exists kept. split; [exact Hsub|].
  eapply Forall2_impl; [|exact Hrec]. intros r l. apply record_at_of.
Qed.

(* ================================================================== *)
(** ** What ends step 5 before its end *)

Lemma company_name_raises (env : Env) (website_url : value) (e : exn) :
  company_name env website_url = Raise e ->
  e = ValueError \/ e = AttributeError \/ e = TypeError.
Proof.
  unfold company_name. destruct website_url as [|b|n|q|url|l|d];
    try (destruct (truthy _); intros [= <-]; auto).
  destruct (domain_title env url); [discriminate|]. intros [= <-]. auto.
Qed.

(** A record fails to be built when the completion or its parsing raised
    and [urlparse] raised in the fallback. *)
Lemma lead_record_raises (env : Env) (h : list event) (result : dict)
    (title link : value) (content : string) (e : exn) :
  lead_record env h result title link content = Raise e ->
  (forall lead_data,
     groq_extract env (h ++ [EvScrape link]) content link <> Parsed lead_data)
  /\ company_name env link = Raise e.
Proof.
  rewrite lead_record_eq, fallback_eq.
  destruct (groq_extract env (h ++ [EvScrape link]) content link)
    as [lead_data| |]; [discriminate| |];
    (destruct (company_name env link) as [name|e']; [discriminate|]);
    intros [= <-]; split; auto; discriminate.
Qed.

(** Step 5 is cut short by a candidate without its title or its link, or
    by a fallback on a link [urlparse] rejects: by nothing else, be it a
    fetch that fails or an extraction that fails. *)
Lemma scrape_and_extract_raises (env : Env) (cands : list dict) :
  forall acc h e,
    fst (scrape_and_extract env cands acc h) = Raise e ->
    e = KeyError "title" \/ e = KeyError "link" \/
    exists h' link content,
      (forall lead_data, groq_extract env h' content link <> Parsed lead_data)
      /\ company_name env link = Raise e.
Proof.
  induction cands as [|result rest IH]; intros acc h e Hraise.
  - discriminate.
  - destruct (dict_lookup result "title") as [title|] eqn:Ht.
    2:{ rewrite scrape_and_extract_no_title in Hraise by assumption.
        injection Hraise as <-. auto. }
    destruct (dict_lookup result "link") as [link|] eqn:Hl.
    2:{ rewrite (scrape_and_extract_no_link env result rest acc h title)
          in Hraise by assumption.
        injection Hraise as <-. auto. }
    destruct (scrape_and_extract_case env result rest acc h title link Ht Hl)
      as [content lead _ _ Heq|content e' _ Hlead Heq|_ Heq];
      rewrite Heq in Hraise; cbn [fst] in Hraise.
    + eauto.
    + injection Hraise as ->. right. right.
      exists (h ++ [EvScrape link]), link, content.
      now apply (lead_record_raises env h result title link content e).
    + eauto.
Qed.

(* ================================================================== *)
(** ** The retry loop *)

Lemma step5_calls (kind : event -> bool) (evs : list event) :
  (forall e, is_step5 e = true -> kind e = false) ->
  Forall (fun e => is_step5 e = true) evs ->
  calls kind evs = O.
Proof.
  intros Hkind Hall. apply calls_none.
  eapply Forall_impl; [|exact Hall]. exact Hkind.
Qed.

Lemma searches_found_prefix (env : Env) (h evs post : list event) :
  searches_found env h (evs ++ post) -> searches_found env h evs.
Proof.
  intros H pre q k post' ->. apply (H pre q k (post' ++ post)).
  now rewrite <- app_assoc.
Qed.

Lemma batches_low_prefix (env : Env) (cfg : Config) (h evs post : list event) :
  batches_low env cfg h (evs ++ post) -> batches_low env cfg h evs.
Proof.
  intros H pre rs q post' ->. apply (H pre rs q (post' ++ post)).
  now rewrite <- app_assoc.
Qed.

(** The calls of a whole run: those of the loop, then those of step 5. *)
Lemma generate_leads_dataframe_calls (env : Env) (cfg : Config) (sq : string)
    (n : Z) (h : list event) :
  exists exit loop_evs step5_evs,
    relevance_loop env cfg sq n (Z.to_nat (max_retries cfg)) sq NeverRan h
      = (exit, loop_evs) /\
    snd (generate_leads_dataframe env cfg sq n h) = loop_evs ++ step5_evs /\
    Forall (fun e => is_step5 e = true) step5_evs /\
    (step5_evs <> [] -> exists ev, exit = Batch ev).
Proof.
  rewrite generate_leads_dataframe_eq. cbv zeta.
  destruct (relevance_loop _ _ _ _ _ _ _ _) as [exit evs] eqn:Hloop.
  exists exit, evs. cbn [fst snd].
  destruct exit as [|ev|].
  - exists []. rewrite app_nil_r. repeat split; auto. congruence.
  - exists (snd (process_batch env ev n (h ++ evs))). cbn [snd].
    repeat split; eauto. apply process_batch_events.
  - exists []. rewrite app_nil_r. repeat split; auto. congruence.
Qed.

(** C1.  No run makes more than [max_retries] searches or more than
    [max_retries] relevance evaluations.  In a run where every search finds
    something and every judged batch is below the threshold, the controller
    makes exactly [max_retries] searches, [max_retries] evaluations and
    [max_retries - 1] refinements, and then carries on to steps 4 to 6 with
    the batch judged last. *)
Theorem retries_are_bounded_and_exhausted
    (env : Env) (cfg : Config) (search_query : string) (num_results : Z)
    (h : list event) :
  let run := generate_leads_dataframe env cfg search_query num_results h in
  let max := Z.to_nat (max_retries cfg) in
  (calls is_search (snd run) <= max)%nat /\
  (calls is_judge (snd run) <= max)%nat /\
  (1 <= max_retries cfg ->
   searches_found env h (snd run) ->
   batches_low env cfg h (snd run) ->
   calls is_search (snd run) = max /\
   calls is_judge (snd run) = max /\
   calls is_refine (snd run) = (max - 1)%nat /\
   exists pre q rs,
     let loop_evs :=
       pre ++ [EvSearch q (num_results * 2); EvJudge rs search_query] in
     let batch :=
       fst (evaluate_relevance env rs search_query
              (h ++ pre ++ [EvSearch q (num_results * 2)])) in
     rs = fst (search_companies env q (num_results * 2) (h ++ pre)) /\
     sufficient cfg batch = false /\
     run = (fst (process_batch env batch num_results (h ++ loop_evs)),
            loop_evs ++
            snd (process_batch env batch num_results (h ++ loop_evs)))).
Proof.
  cbv zeta.
  destruct (generate_leads_dataframe_calls env cfg search_query num_results h)
    as (exit & loop_evs & step5_evs & Hloop & Hevs & Hstep5 & _).
  pose proof (relevance_loop_attempts env cfg search_query num_results
                (Z.to_nat (max_retries cfg)) search_query NeverRan h) as Hrun.
  rewrite Hloop in Hrun. cbn [fst snd] in Hrun.
  pose proof (attempts_bounds _ _ _ _ _ _ _ _ _ _ Hrun)
    as (Hs & Hj & Hr & _).
  rewrite Hevs, !calls_app.
  rewrite (step5_calls is_search step5_evs),
          (step5_calls is_judge step5_evs),
          (step5_calls is_refine step5_evs); try assumption;
    try (intros []; cbn; congruence).
  rewrite !Nat.add_0_r.
  split; [exact Hs|]. split; [lia|].
  intros Hmax Hfound Hlow.
  apply searches_found_prefix in Hfound.
  apply batches_low_prefix in Hlow.
  destruct (Z.to_nat (max_retries cfg)) as [|k] eqn:Hk; [lia|].
  destruct (attempts_all_low _ _ _ _ _ _ _ _ _ _ Hrun k eq_refl Hfound Hlow)
    as (Hs' & Hj' & Hr' & pre & q & rs & Hsplit & Hrs & Hexit).
  split; [exact Hs'|]. split; [exact Hj'|].
  split; [cbn; lia|].
  exists pre, q, rs. split; [exact Hrs|]. split.
  - apply (Hlow (pre ++ [EvSearch q (num_results * 2)]) rs search_query []).
    rewrite Hsplit, <- app_assoc. reflexivity.
  - rewrite generate_leads_dataframe_eq. cbv zeta.
    rewrite Hk, Hloop. cbn [fst snd]. rewrite Hexit, Hsplit. reflexivity.
Qed.

Lemma stubborn_searches_found (h evs : list event) :
  searches_found stubborn_env h evs.
Proof. intros pre q k post _. discriminate. Qed.

Lemma stubborn_batches_low (h evs : list event) :
  batches_low stubborn_env default_config h evs.
Proof.
  intros pre rs q post _. rewrite evaluate_relevance_eq. cbn [fst].
  cbn [stubborn_env with_browser with_relevance groq_relevance try_evaluate].
  rewrite enhance_from_no_judgment.
  apply insufficient_without_relevant; [reflexivity|].
  apply relevant_none, Forall_forall. intros r Hin.
  apply in_map_iff in Hin as (result & <- & _).
  apply enhance_is_relevant.
Qed.

(** The default tool against a stubborn world: three searches, three
    evaluations, two refinements. *)
Lemma retries_are_bounded_and_exhausted_witness :
  let run := generate_leads stubborn_env "saas companies in denver" 3 [] in
  calls is_search (snd run) = 3%nat /\
  calls is_judge (snd run) = 3%nat /\
  calls is_refine (snd run) = 2%nat.
Proof.
  destruct (retries_are_bounded_and_exhausted stubborn_env default_config
              "saas companies in denver" 3 []) as (_ & _ & Hexhaust).
  destruct Hexhaust as (Hs & Hj & Hr & _).
  - cbn. lia.
  - apply stubborn_searches_found.
  - apply stubborn_batches_low.
  - exact (conj Hs (conj Hj Hr)).
Defined.

(** What [search_companies] sends on: the payload of the HTTP request asks
    for twice the count it was called with, hence four times the target
    count when the caller is the controller. *)
Lemma search_companies_payload (env : Env) (query : string) (num_results : Z)
    (h : list event) :
  fst (search_companies env query (num_results * 2) h) =
  match serper_post env h query (4 * num_results) with
  | Some results => results
  | None => []
  end.
Proof.
  rewrite search_companies_eq. cbn [fst].
  now replace (num_results * 2 * 2) with (4 * num_results) by lia.
Qed.

(** A loop with an iteration to run begins with a search for its query. *)
Lemma attempts_first_search (env : Env) (cfg : Config) (sq : string) (n : Z)
    (k : nat) (q : string) (h : list event) (last exit : loop_exit)
    (evs : list event) :
  attempts env cfg sq n k q h last exit evs ->
  k <> O ->
  exists post, evs = EvSearch q (n * 2) :: post.
Proof. induction 1; intros Hk; try contradiction; eauto. Qed.

Lemma Forall_split {A : Type} (P : A -> Prop) (xs pre post : list A) (x : A) :
  Forall P xs -> xs = pre ++ x :: post -> P x.
Proof.
  intros Hall ->. apply Forall_app in Hall as [_ Hall].
  now inversion Hall.
Qed.




(** C3.  A search that comes back empty ends the run: it is the last call
    of the run, whichever attempt it belongs to, so that no evaluation,
    refinement, fetch or extraction follows it, and the output is the empty
    frame. *)
Theorem empty_search_ends_the_run
    (env : Env) (cfg : Config) (search_query : string) (num_results : Z)
    (h pre post : list event) (query : string) (requested : Z) :
  snd (generate_leads_dataframe env cfg search_query num_results h)
    = pre ++ EvSearch query requested :: post ->
  fst (search_companies env query requested (h ++ pre)) = [] ->
  post = [] /\
  fst (generate_leads_dataframe env cfg search_query num_results h)
    = Ok empty_frame.
Proof.
  intros Hsplit Hnone.
  destruct (generate_leads_dataframe_calls env cfg search_query num_results h)
    as (exit & loop_evs & step5_evs & Hloop & Hevs & Hstep5 & Hbatch).
  pose proof (relevance_loop_attempts env cfg search_query num_results
                (Z.to_nat (max_retries cfg)) search_query NeverRan h) as Hrun.
  rewrite Hloop in Hrun. cbn [fst snd] in Hrun.
  rewrite Hevs in Hsplit.
  (* the search is a call of the loop, not of step 5 *)
  assert (exists post', loop_evs = pre ++ EvSearch query requested :: post'
                        /\ post = post' ++ step5_evs)
    as (post' & Hloop_split & Hpost).
  { clear - Hsplit Hstep5. revert pre Hsplit.
    induction loop_evs as [|e evs IH]; intros pre Hsplit.
    - cbn in Hsplit. subst step5_evs.
      apply Forall_app in Hstep5 as [_ Hbad].
      inversion Hbad as [|? ? Hsearch _]. discriminate.
    - destruct pre as [|e' pre]; cbn in Hsplit.
      + injection Hsplit as -> <-. exists evs. split; reflexivity.
      + injection Hsplit as -> Hsplit.
        destruct (IH pre Hsplit) as (post' & -> & ->).
        exists post'. split; reflexivity. }
  destruct (attempts_dead_search _ _ _ _ _ _ _ _ _ _ Hrun
              pre query requested post' Hloop_split Hnone) as [-> ->].
  destruct step5_evs as [|e evs].
  - split; [assumption|].
    rewrite generate_leads_dataframe_eq. cbv zeta. now rewrite Hloop.
  - destruct Hbatch as [ev Hev]; [discriminate|discriminate].
Qed.

(** Nothing on the second attempt: the run stops there. *)
Lemma empty_search_ends_the_run_witness :
  snd (generate_leads drying_env "plumbers" 5 []) =
    [EvSearch "plumbers" 10;
     EvJudge [hit "Acme" "https://acme.example"] "plumbers";
     EvRefine "plumbers"
       [enhance (hit "Acme" "https://acme.example") None];
     EvSearch "plumbers company contact information" 10] /\
  fst (generate_leads drying_env "plumbers" 5 []) = Ok empty_frame.
Proof.
  split; [reflexivity|].
  apply (empty_search_ends_the_run drying_env default_config "plumbers" 5 []
           [EvSearch "plumbers" 10;
            EvJudge [hit "Acme" "https://acme.example"] "plumbers";
            EvRefine "plumbers"
              [enhance (hit "Acme" "https://acme.example") None]]
           [] "plumbers company contact information" 10).
  - reflexivity.
  - reflexivity.
Defined.

(* ================================================================== *)
(** ** Selection of the final candidates *)

Lemma slice_to_map {A B : Type} (f : A -> B) (xs : list A) (n : Z) :
  slice_to (map f xs) n = map f (slice_to xs n).
Proof.
  unfold slice_to. rewrite length_map.
  destruct (0 <=? n); apply firstn_map.
Qed.

Lemma relevant_with_confidence (confidence : dict -> value)
    (batch : list dict) :
  relevant (map (with_confidence confidence) batch)
  = map (with_confidence confidence) (relevant batch).
Proof.
  unfold relevant. induction batch as [|r batch IH]; [reflexivity|].
  cbn [map filter]. unfold with_confidence at 1.
  rewrite dict_get_set_other by discriminate.
  destruct (truthy _); cbn [map]; now rewrite IH.
Qed.

Lemma select_final_subseq (batch : list dict) (n : Z) :
  Subseq (select_final batch n) batch.
Proof.
  unfold select_final.
  destruct (relevant batch) as [|r rs] eqn:Hrel.
  - apply Subseq_slice_to.
  - eapply Subseq_trans; [apply Subseq_slice_to|].
    rewrite <- Hrel. apply Subseq_filter.
Qed.

(** C4.  The final candidates are the first [num_results] relevant items
    of the judged batch when there is one, the first [num_results] items of
    the batch otherwise.  They stand in the order of the batch, hence in the
    order the provider gave (the batch is the provider's list with the
    judgments added); the confidences play no part in the choice; and the
    candidates are what step 5 fetches, in that order and from the first
    on: all of them when step 5 comes to its end, as it does when each has
    its two keys and a link [urlparse] accepts. *)
Theorem final_candidates_in_provider_order
    (batch : list dict) (num_results : Z) :
  0 <= num_results ->
  let final_results := select_final batch num_results in
  (relevant batch <> [] ->
   final_results = firstn (Z.to_nat num_results) (relevant batch)) /\
  (relevant batch = [] ->
   final_results = firstn (Z.to_nat num_results) batch) /\
  Subseq final_results batch /\
  (forall env search_results query h,
     batch = fst (evaluate_relevance env search_results query h) ->
     Subseq (map link_of final_results) (map link_of search_results)) /\
  (forall confidence,
     select_final (map (with_confidence confidence) batch) num_results
     = map (with_confidence confidence) final_results) /\
  (forall env h,
     (exists fetched_count,
        scraped (snd (process_batch env batch num_results h))
        = firstn fetched_count
            (map (fun r => dict_get r "link" VNone) final_results)) /\
     (forall df,
        fst (process_batch env batch num_results h) = Ok df ->
        scraped (snd (process_batch env batch num_results h))
        = map (fun r => dict_get r "link" VNone) final_results) /\
     (Forall well_keyed final_results -> links_parse env final_results ->
      scraped (snd (process_batch env batch num_results h))
      = map (fun r => dict_get r "link" VNone) final_results)).
Proof.
  intros Hn final_results. subst final_results.
  split; [|split; [|split; [|split; [|split]]]].
  - intros Hne. unfold select_final.
    destruct (relevant batch) as [|r rs]; [contradiction|].
    now apply slice_to_nonneg.
  - intros Hnone. unfold select_final. rewrite Hnone.
    now apply slice_to_nonneg.
  - apply select_final_subseq.
  - intros env search_results query h ->.
    unfold link_of.
    rewrite <- (evaluate_relevance_keeps env search_results query h "link")
      by discriminate.
    apply Subseq_map, select_final_subseq.
  - intros confidence. unfold select_final.
    rewrite relevant_with_confidence.
    destruct (relevant batch) as [|r rs]; cbn [map].
    + apply slice_to_map.
    + apply (slice_to_map (with_confidence confidence) (r :: rs)).
  - intros env h. unfold process_batch.
    destruct (select_final batch num_results) as [|c cs] eqn:Hsel.
    { split; [now exists O|]. split; reflexivity. }
    unfold bind.
    destruct (scrape_and_extract_urls env (c :: cs) [] h) as [Hpre Hall].
    pose proof (fun Hkeys Hlinks =>
                  scrape_and_extract_ends env (c :: cs) Hkeys Hlinks [] h)
      as Hends.
    destruct (scrape_and_extract env (c :: cs) [] h) as [out evs].
    cbn [fst snd ret] in *. rewrite app_nil_r.
    split; [exact Hpre|]. split.
    + intros df Hdf. destruct out as [leads|e]; [|discriminate].
      now apply (Hall leads).
    + intros Hkeys Hlinks.
      destruct (Hends Hkeys Hlinks) as [leads Hleads].
      now apply (Hall leads).
Qed.

(** Six hits, the second and the fifth relevant, two wanted: these two, in
    the provider's order, though the fifth is the more confident. *)
Lemma final_candidates_in_provider_order_witness :
  let judged (title : string) (ok : bool) (confidence : Q) : dict :=
    [("title", VStr title); ("is_relevant", VBool ok);
     ("relevance_confidence", VFloat confidence)] in
  let batch := [judged "a" false (1 # 10); judged "b" true (6 # 10);
                judged "c" false (2 # 10); judged "d" false (3 # 10);
                judged "e" true (9 # 10); judged "f" false (1 # 10)] in
  select_final batch 2 = [judged "b" true (6 # 10); judged "e" true (9 # 10)].
Proof.
  intros judged batch.
  pose proof (final_candidates_in_provider_order batch 2) as H.
  destruct H as (Hrel & _); [lia|].
  rewrite Hrel; [reflexivity|discriminate].
Defined.

(* ================================================================== *)
(** ** A scorer that fails *)

(** The [except] branch of [evaluate_relevance] is taken when the API call
    or the parsing of its reply raises... *)
Lemma try_evaluate_unavailable (search_results : list dict) :
  try_evaluate None search_results = Raise ServiceError.
Proof. reflexivity. Qed.

(** ... and when the reply holds an item that is no dictionary before the
    judgment looked for. *)
Lemma try_evaluate_malformed (junk : Z) (more : list value) (result : dict)
    (rest : list dict) :
  try_evaluate (Some (VInt junk :: more)) (result :: rest)
  = Raise AttributeError.
Proof. reflexivity. Qed.

(** C5.  When the evaluation of a batch raises, every result of the batch
    is marked relevant with confidence 0.5, none is lost, and the run goes
    on: the loop takes the batch as it is (all of it being relevant, it
    meets any threshold up to one) and step 4 selects from all of it.  A run
    whose first evaluation fails is the processing of that batch. *)
Theorem failed_scorer_fails_open
    (env : Env) (cfg : Config) (search_query : string) (num_results : Z)
    (remaining : nat) (query : string) (last : loop_exit) (h : list event)
    (search_results : list dict) (e : exn) :
  (relevance_threshold cfg <= 1)%Q ->
  search_results = fst (search_companies env query (num_results * 2) h) ->
  search_results <> [] ->
  try_evaluate
    (groq_relevance env (h ++ [EvSearch query (num_results * 2)])
       search_query (summarize 0 search_results))
    search_results = Raise e ->
  let batch :=
    fst (evaluate_relevance env search_results search_query
           (h ++ [EvSearch query (num_results * 2)])) in
  let evs :=
    [EvSearch query (num_results * 2); EvJudge search_results search_query] in
  batch = map fail_open search_results /\
  Forall (fun r =>
            dict_lookup r "is_relevant" = Some (VBool true) /\
            dict_lookup r "relevance_confidence" = Some (VFloat (1 # 2)))
         batch /\
  relevance_loop env cfg search_query num_results (S remaining) query last h
    = (Batch batch, evs) /\
  (0 <= num_results ->
   select_final batch num_results = firstn (Z.to_nat num_results) batch) /\
  (S remaining = Z.to_nat (max_retries cfg) -> query = search_query ->
   generate_leads_dataframe env cfg search_query num_results h
   = (fst (process_batch env batch num_results (h ++ evs)),
      evs ++ snd (process_batch env batch num_results (h ++ evs)))).
Proof.
  intros Hthr Hrs Hne Hraise batch evs.
  assert (Hbatch : batch = map fail_open search_results).
  { subst batch. rewrite evaluate_relevance_eq. cbn [fst].
    now rewrite Hraise. }
  assert (Hall : Forall (fun r => dict_lookup r "is_relevant"
                                  = Some (VBool true)) batch).
  { rewrite Hbatch. apply Forall_forall. intros r Hin.
    apply in_map_iff in Hin as (r0 & <- & _). apply fail_open_is_relevant. }
  assert (Hrel : relevant batch = batch) by now apply relevant_all.
  assert (Hloop : forall last,
             relevance_loop env cfg search_query num_results
               (S remaining) query last h = (Batch batch, evs)).
  { intros last'. rewrite relevance_loop_S. cbv zeta. rewrite <- Hrs.
    destruct search_results as [|r rs]; [contradiction|].
    fold batch. rewrite sufficient_all_relevant; auto.
    rewrite Hbatch. discriminate. }
  split; [exact Hbatch|]. split; [|split; [apply Hloop|split]].
  - rewrite Hbatch. apply Forall_forall. intros r Hin.
    apply in_map_iff in Hin as (r0 & <- & _).
    split; [apply fail_open_is_relevant|apply fail_open_confidence].
  - intros Hn. unfold select_final. rewrite Hrel.
    destruct batch; now rewrite slice_to_nonneg.
  - intros Hfirst ->. rewrite generate_leads_dataframe_eq. cbv zeta.
    rewrite <- Hfirst, Hloop. reflexivity.
Qed.

(** The scorer is down from the start: both hits are kept, marked relevant,
    and both are processed. *)
Lemma failed_scorer_fails_open_witness :
  let hits := [hit "Acme" "https://acme.example";
               hit "Bolt" "https://bolt.example"] in
  fst (evaluate_relevance unscored_env hits "roofers" [EvSearch "roofers" 4])
    = map fail_open hits /\
  scraped (snd (generate_leads unscored_env "roofers" 2 []))
    = [VStr "https://acme.example"; VStr "https://bolt.example"].
Proof.
  intros hits.
  destruct (failed_scorer_fails_open unscored_env default_config "roofers" 2
              2 "roofers" NeverRan [] hits ServiceError)
    as (Hbatch & _ & _ & _ & Hrun).
  - cbn. discriminate.
  - reflexivity.
  - discriminate.
  - reflexivity.
  - split; [exact Hbatch|].
    unfold generate_leads. rewrite Hrun; reflexivity.
Defined.

(* ================================================================== *)
(** ** Judgments and positions *)

Lemma find_relevance_dicts (relevance_data : list value) (i : Z) :
  Forall is_dict relevance_data ->
  find_relevance relevance_data i = Ok (judgment_for relevance_data i).
Proof.
  induction 1 as [|v more Hv _ IH]; [reflexivity|].
  destruct v; try contradiction. cbn.
  destruct (value_eqb _ _); [reflexivity|exact IH].
Qed.

Lemma list_index_fresh (search_results : list dict) (p : nat) (result : dict) :
  first_equal (firstn p search_results) result = None ->
  list_index search_results p result = p.
Proof. intros H. unfold list_index. now rewrite H. Qed.

(** One judged result per input result, always. *)
Lemma evaluate_relevance_one_each (env : Env) (search_results : list dict)
    (query : string) (h : list event) :
  List.length (fst (evaluate_relevance env search_results query h))
  = List.length search_results.
Proof. apply evaluate_relevance_length. Qed.

(** Where no result repeats an earlier one and the scorer's array holds
    judgment objects only, the code judges by position. *)
Lemma enhance_from_by_position (search_results : list dict)
    (relevance_data : list value) :
  Forall is_dict relevance_data ->
  no_repeat search_results ->
  forall p rest,
    skipn p search_results = rest ->
    enhance_from search_results relevance_data p rest
    = Ok (judged_by_position relevance_data (Z.of_nat p) rest).
Proof.
  intros Hdicts Hfresh p rest. revert p.
  induction rest as [|result rest IH]; intros p Hrest; [reflexivity|].
  cbn [enhance_from judged_by_position].
  assert (Hnth : nth_error search_results p = Some result).
  { rewrite <- (firstn_skipn p search_results) at 1. rewrite Hrest.
    assert (Hp : (p <= List.length search_results)%nat).
    { destruct (Nat.le_gt_cases p (List.length search_results)) as [|Hgt];
        [assumption|].
      rewrite skipn_all2 in Hrest by lia. discriminate. }
    rewrite nth_error_app2; rewrite firstn_length_le by exact Hp; [|lia].
    now rewrite Nat.sub_diag. }
  rewrite (list_index_fresh _ _ _ (Hfresh p result Hnth)).
  rewrite find_relevance_dicts by assumption.
  rewrite (IH (S p)).
  - now replace (Z.of_nat (S p)) with (Z.of_nat p + 1) by lia.
  - replace (S p) with (1 + p)%nat by lia.
    rewrite <- skipn_skipn, Hrest. reflexivity.
Qed.

Lemma evaluate_by_position (env : Env) (search_results : list dict)
    (query : string) (h : list event) (relevance_data : list value) :
  groq_relevance env h query (summarize 0 search_results)
    = Some relevance_data ->
  Forall is_dict relevance_data ->
  no_repeat search_results ->
  fst (evaluate_relevance env search_results query h)
  = judged_by_position relevance_data 0 search_results.
Proof.
  intros Hdata Hdicts Hfresh. rewrite evaluate_relevance_eq, Hdata.
  cbn [fst try_evaluate].
  now rewrite (enhance_from_by_position _ _ Hdicts Hfresh O search_results).
Qed.

(** C6, at a list that holds the same result twice.  The scorer judges
    position 0 irrelevant and position 1 relevant; [list.index] sends both
    copies to position 0, so the copy at position 1 comes out irrelevant
    with the confidence given for position 0, where matching by position
    gives it the judgment for position 1. *)
Theorem repeated_result_takes_the_first_judgment :
  let env := with_relevance silent_env (fun _ _ _ => Some twin_judgments) in
  let judged := fst (evaluate_relevance env [twin; twin] "roofers" []) in
  let by_position := judged_by_position twin_judgments 0 [twin; twin] in
  judged = [enhance twin (Some (judgment 0 false (1 # 10)));
            enhance twin (Some (judgment 0 false (1 # 10)))] /\
  by_position = [enhance twin (Some (judgment 0 false (1 # 10)));
                 enhance twin (Some (judgment 1 true (9 # 10)))] /\
  option_map (fun r => dict_lookup r "is_relevant") (nth_error judged 1)
    = Some (Some (VBool false)) /\
  option_map (fun r => dict_lookup r "is_relevant") (nth_error by_position 1)
    = Some (Some (VBool true)).
Proof. repeat split. Qed.

(** The same list with a judgment for position 0 only: position 1 has no
    judgment of its own, yet it is not given the default one. *)
Lemma repeated_result_misses_the_default :
  let only_first := [VDict (judgment 0 true (9 # 10))] in
  let env := with_relevance silent_env (fun _ _ _ => Some only_first) in
  let judged := fst (evaluate_relevance env [twin; twin] "roofers" []) in
  judgment_for only_first 1 = None /\
  option_map (fun r => dict_lookup r "is_relevant") (nth_error judged 1)
    = Some (Some (VBool true)) /\
  option_map (fun r => dict_lookup r "relevance_confidence")
    (nth_error judged 1) = Some (Some (VFloat (9 # 10))).
Proof. repeat split. Qed.

(* ================================================================== *)
(** ** Pages without text *)

Lemma fetched_failed (env : Env) (h : list event) (link : value) :
  chrome_page_source env h link = None -> fetched env h link = None.
Proof.
  intros H. unfold fetched. rewrite scrape_website_eq, H. reflexivity.
Qed.

Lemma fetched_empty (env : Env) (h : list event) (link : value)
    (html : string) :
  chrome_page_source env h link = Some html ->
  clean_html_content env html = "" ->
  fetched env h link = None.
Proof.
  intros H Hclean. unfold fetched. rewrite scrape_website_eq, H.
  cbn. now rewrite Hclean.
Qed.

Lemma scrape_and_extract_skip (env : Env) (result : dict)
    (rest acc : list dict) (h : list event) (title link : value) :
  dict_lookup result "title" = Some title ->
  dict_lookup result "link" = Some link ->
  fetched env h link = None ->
  scrape_and_extract env (result :: rest) acc h =
  (fst (scrape_and_extract env rest acc (h ++ [EvScrape link; EvSleep 2])),
   EvScrape link :: EvSleep 2
   :: snd (scrape_and_extract env rest acc (h ++ [EvScrape link; EvSleep 2]))).
Proof.
  intros Ht Hl Hnone.
  rewrite (scrape_and_extract_cons env result rest acc h title link Ht Hl).
  now rewrite Hnone.
Qed.

(** C10.  A page that loads but whose cleaned text is empty: the fetcher
    returns the empty string, the candidate's share of the run is the fetch
    and the pause, without extraction, the records gathered so far go on
    unchanged to the next candidate, and a world where that fetch fails
    instead, the other candidates faring the same, gives the same outcome
    and the same calls. *)
Theorem empty_page_is_skipped
    (env : Env) (result : dict) (rest acc : list dict) (h : list event)
    (title link : value) (html : string) :
  dict_lookup result "title" = Some title ->
  dict_lookup result "link" = Some link ->
  chrome_page_source env h link = Some html ->
  clean_html_content env html = "" ->
  let next := scrape_and_extract env rest acc
                (h ++ [EvScrape link; EvSleep 2]) in
  fst (scrape_website env link h) = Some "" /\
  scrape_and_extract env (result :: rest) acc h
    = (fst next, EvScrape link :: EvSleep 2 :: snd next) /\
  (forall failing : Env,
     chrome_page_source failing h link = None ->
     (forall acc' h',
        scrape_and_extract failing rest acc' h'
        = scrape_and_extract env rest acc' h') ->
     scrape_and_extract failing (result :: rest) acc h
     = scrape_and_extract env (result :: rest) acc h).
Proof.
  intros Ht Hl Hpage Hclean next.
  assert (Hskip : scrape_and_extract env (result :: rest) acc h
                  = (fst next, EvScrape link :: EvSleep 2 :: snd next)).
  { apply (scrape_and_extract_skip env result rest acc h title link Ht Hl).
    exact (fetched_empty env h link html Hpage Hclean). }
  split; [|split; [exact Hskip|]].
  - rewrite scrape_website_eq, Hpage. cbn. now rewrite Hclean.
  - intros failing Hfail Hrest. rewrite Hskip.
    rewrite (scrape_and_extract_skip failing result rest acc h title link
               Ht Hl (fetched_failed failing h link Hfail)).
    rewrite Hrest. reflexivity.
Qed.

(** A page of blanks: one fetch, one pause, no record. *)
Lemma empty_page_is_skipped_witness :
  scrape_and_extract blank_env [hit "Acme" "https://acme.example"] [] []
  = (Ok [], [EvScrape (VStr "https://acme.example"); EvSleep 2]).
Proof.
  destruct (empty_page_is_skipped blank_env
              (hit "Acme" "https://acme.example") [] [] []
              (VStr "Acme") (VStr "https://acme.example") "   ")
    as (_ & Hskip & _);
    [reflexivity|reflexivity|reflexivity|reflexivity|exact Hskip].
Defined.

(* ================================================================== *)
(** ** Fields of the records *)

Lemma add_metadata_has (lead_data result : dict) (title : value)
    (scraped_at : string) :
  has_metadata (add_metadata lead_data result title scraped_at).
Proof.
  intros field Hin. unfold add_metadata.
  repeat (destruct Hin as [<-|Hin];
          [rewrite ?dict_has_set_other by discriminate;
           apply dict_has_set_same|]).
  contradiction.
Qed.

Lemma add_metadata_mirrors (lead_data result : dict) (title : value)
    (scraped_at : string) :
  mirrors (add_metadata lead_data result title scraped_at) lead_data.
Proof.
  intros field Hout. unfold add_metadata.
  rewrite !dict_lookup_set_other; [reflexivity|..];
    intros <-; apply Hout; cbn; tauto.
Qed.

Lemma lead_field_not_metadata (field : string) :
  In field lead_fields -> ~ In field metadata_fields.
Proof.
  intros Hlead Hmeta.
  repeat (destruct Hmeta as [<-|Hmeta];
          [cbn in Hlead; intuition discriminate|]).
  contradiction.
Qed.

Lemma unobserved_lead_field (field : string) :
  In field unobserved_fields -> In field lead_fields.
Proof.
  intros Hin. repeat (destruct Hin as [<-|Hin]; [cbn; tauto|]). contradiction.
Qed.

(** The regex fallback, when it returns, sets every lead field to a
    string. *)
Lemma fallback_is_made (env : Env) (website_url : value) (content : string)
    (lead_data : dict) :
  _create_fallback_lead_data env website_url content = Ok lead_data ->
  fallback_made env website_url content lead_data.
Proof.
  rewrite fallback_eq.
  destruct (company_name env website_url) as [name|e] eqn:Hname;
    [|discriminate].
  apply company_name_ok in Hname as (url & -> & _).
  intros [= <-]. split; [|split; [|split; [|split; [|split]]]].
  - intros field Hin.
    repeat (destruct Hin as [<-|Hin]; [eexists; reflexivity|]).
    contradiction.
  - intros field Hin.
    repeat (destruct Hin as [<-|Hin]; [reflexivity|]). contradiction.
  - intros Hnone. cbn. now rewrite Hnone.
  - intros Hnone. cbn. now rewrite Hnone.
  - intros Hnone. cbn. now rewrite Hnone.
  - reflexivity.
Qed.

(** The metadata leave the lead fields as they are. *)
Lemma add_metadata_fallback_made (env : Env) (link : value) (content : string)
    (lead_data result : dict) (title : value) (scraped_at : string) :
  fallback_made env link content lead_data ->
  fallback_made env link content
    (add_metadata lead_data result title scraped_at).
Proof.
  intros (Hfields & Hna & Hemail & Hphone & Hlinkedin & Hsite).
  assert (Hsame : forall field, In field lead_fields ->
            dict_lookup (add_metadata lead_data result title scraped_at) field
            = dict_lookup lead_data field).
  { intros field Hin. apply add_metadata_mirrors.
    now apply lead_field_not_metadata. }
  split; [|split; [|split; [|split; [|split]]]].
  - intros field Hin. rewrite Hsame by exact Hin. now apply Hfields.
  - intros field Hin. rewrite Hsame by now apply unobserved_lead_field.
    now apply Hna.
  - intros Hnone. rewrite Hsame by (cbn; tauto). now apply Hemail.
  - intros Hnone. rewrite Hsame by (cbn; tauto). now apply Hphone.
  - intros Hnone. rewrite Hsame by (cbn; tauto). now apply Hlinkedin.
  - rewrite Hsame by (cbn; tauto). exact Hsite.
Qed.

(** A record of the run is made of what its own extraction call got. *)
Lemma record_at_made (env : Env) (h evs : list event) (result lead : dict) :
  record_at env h evs result lead -> record_made env h evs result lead.
Proof.
  intros (before & after & title & link & content & Hevs & Ht & Hl & Hf
          & Hrec).
  exists before, after, link, content.
  split; [exact Hevs|]. split; [exact Hl|]. split; [exact Hf|].
  rewrite lead_record_eq, <- app_assoc in Hrec.
  destruct (groq_extract env (h ++ before ++ [EvScrape link]) content link)
    as [lead_data| |] eqn:Hllm.
  - injection Hrec as <-.
    split; [apply add_metadata_has|apply add_metadata_mirrors].
  - destruct (_create_fallback_lead_data env link content) as [lead_data|e]
      eqn:Hfb; [|discriminate].
    injection Hrec as <-. split; [apply add_metadata_has|].
    now apply add_metadata_fallback_made, fallback_is_made.
  - destruct (_create_fallback_lead_data env link content) as [lead_data|e]
      eqn:Hfb; [|discriminate].
    injection Hrec as <-. split; [apply add_metadata_has|].
    now apply add_metadata_fallback_made, fallback_is_made.
Qed.

(** C9, as the code has it.  The records step 5 returns are those of the
    candidates whose page gave text, one each and in their order, and each
    is made of what its own extraction call got.  It carries the six
    metadata keys.  When the completion parsed, the record holds, outside
    the metadata, what the completion's JSON object holds, no more and no
    less: a field the object omits is absent, one it sets to null is null.
    When the completion or its parsing raised, the record has all fifteen
    lead fields, each a string: "N/A" for the nine the regex fallback does
    not observe and for a contact channel whose pattern matches nothing,
    and the candidate's link for the website. *)
Theorem records_carry_the_fields_of_their_source
    (env : Env) (final_results : list dict) (h : list event)
    (all_leads : list dict) :
  fst (scrape_and_extract env final_results [] h) = Ok all_leads ->
  exists kept,
    Subseq kept final_results /\
    Forall2
      (record_made env h (snd (scrape_and_extract env final_results [] h)))
      kept all_leads.
Proof.
  intros Hrun.
  destruct (scrape_and_extract_provenance env final_results [] h all_leads
              Hrun) as (kept & gathered & Hsub & Hleads & Hrec).
  cbn [app] in Hleads. subst gathered.
  exists kept. split; [exact Hsub|].
  eapply Forall2_impl; [|exact Hrec]. intros result lead.
  apply record_at_made.
Qed.

(** A page whose extraction fails: the record has the twenty-one fields,
    with "N/A" for the e-mail address, no pattern matching anything. *)
Lemma records_carry_the_fields_of_their_source_witness :
  let candidate := fail_open (hit "Acme" "https://acme.example") in
  exists lead,
    fst (scrape_and_extract unscored_env [candidate] [] []) = Ok [lead] /\
    has_metadata lead /\
    dict_lookup lead "email" = Some (VStr "N/A") /\
    map fst lead = lead_fields ++ ["search_title"; "search_snippet";
                                   "is_relevant"; "relevance_confidence";
                                   "relevance_reason"; "scraped_at"].
Proof.
  intros candidate.
  assert (Hrun : exists lead,
            fst (scrape_and_extract unscored_env [candidate] [] [])
            = Ok [lead] /\
            map fst lead = lead_fields ++ ["search_title"; "search_snippet";
                                           "is_relevant";
                                           "relevance_confidence";
                                           "relevance_reason"; "scraped_at"])
    by (eexists; split; reflexivity).
  destruct Hrun as (lead & Hrun & Hkeys).
  exists lead. split; [exact Hrun|].
  destruct (records_carry_the_fields_of_their_source unscored_env
              [candidate] [] [lead] Hrun) as (kept & _ & Hmade).
  inversion Hmade as [|result lead' kept' leads' Hone _ Hk Hl]. subst.
  destruct Hone as (before & after & link & content & _ & _ & _ & Hmeta
                    & Hsource).
  change (groq_extract unscored_env ([] ++ before ++ [EvScrape link])
            content link) with OtherError in Hsource.
  destruct Hsource as (_ & _ & Hemail & _).
  split; [exact Hmeta|]. split; [now apply Hemail|exact Hkeys].
Defined.

(** C9, as stated, fails: the extractor answers with an empty JSON object,
    and the record returned has the metadata only. *)
Lemma some_records_lack_fields :
  ~ (forall env query num_results h df,
       fst (generate_leads env query num_results h) = Ok df ->
       all_fields_filled df).
Proof.
  intros Hall.
  destruct (Hall (extracting_env []) "roofers" 1 [] _ eq_refl
              _ "email" (or_introl eq_refl)) as (v & Hcell & _).
  - cbn. tauto.
  - discriminate.
Qed.

(** Nor is a field that is there always set: the extractor's JSON object
    may hold a null, and the frame then has the column with nothing in it. *)
Lemma some_fields_are_null :
  let df := {| columns := ["company_name"; "email"; "is_relevant";
                           "relevance_confidence"; "relevance_reason";
                           "search_title"; "search_snippet"; "scraped_at"];
               rows := [[Some (VStr "Acme"); None; Some (VBool true);
                         Some (VFloat (1 # 2));
                         Some (VStr "Could not evaluate");
                         Some (VStr "Acme"); Some (VStr "about us");
                         Some (VStr "2024-05-01T10:00:00")]] |} in
  fst (scrape_and_extract
         (extracting_env [("company_name", VStr "Acme"); ("email", VNone)])
         [fail_open (hit "Acme" "https://acme.example")] [] [])
  = Ok [[("company_name", VStr "Acme"); ("email", VNone);
         ("search_title", VStr "Acme"); ("search_snippet", VStr "about us");
         ("is_relevant", VBool true);
         ("relevance_confidence", VFloat (1 # 2));
         ("relevance_reason", VStr "Could not evaluate");
         ("scraped_at", VStr "2024-05-01T10:00:00")]] /\
  fst (generate_leads
         (extracting_env [("company_name", VStr "Acme"); ("email", VNone)])
         "roofers" 1 []) = Ok df.
Proof. split; reflexivity. Qed.

(* ================================================================== *)
(** ** Running twice *)

Lemma relevance_loop_clock (env : Env) (clock : list event -> string)
    (cfg : Config) (sq : string) (n : Z) (k : nat) :
  forall q last h,
    relevance_loop (with_clock env clock) cfg sq n k q last h
    = relevance_loop env cfg sq n k q last h.
Proof.
  induction k as [|k IH]; intros q last h; [reflexivity|].
  rewrite !relevance_loop_S. cbv zeta.
  change (search_companies (with_clock env clock))
    with (search_companies env).
  change (evaluate_relevance (with_clock env clock))
    with (evaluate_relevance env).
  change (refine_search_query (with_clock env clock))
    with (refine_search_query env).
  now rewrite IH.
Qed.

Lemma dict_has_same_but_time (lead1 lead2 : dict) (col : string) :
  same_but_time lead1 lead2 -> dict_has lead1 col = dict_has lead2 col.
Proof.
  intros (base & t1 & t2 & -> & ->).
  destruct (String.eqb_spec "scraped_at" col) as [<-|Hne].
  - now rewrite !dict_has_set_same.
  - now rewrite !dict_has_set_other.
Qed.

Lemma available_columns_same_but_time (leads1 leads2 : list dict) :
  Forall2 same_but_time leads1 leads2 ->
  available_columns leads1 = available_columns leads2.
Proof.
  intros H. unfold available_columns. apply filter_ext. intros col.
  induction H as [|l1 l2 ls1 ls2 Hl _ IH]; [reflexivity|].
  cbn. now rewrite (dict_has_same_but_time l1 l2 col Hl), IH.
Qed.

Lemma dict_lookup_same_but_time (lead1 lead2 : dict) (col : string) :
  same_but_time lead1 lead2 -> col <> "scraped_at" ->
  dict_lookup lead1 col = dict_lookup lead2 col.
Proof.
  intros (base & t1 & t2 & -> & ->) Hne.
  now rewrite !dict_lookup_set_other by congruence.
Qed.

Lemma column_values_same_but_time (leads1 leads2 : list dict) (col : string) :
  Forall2 same_but_time leads1 leads2 -> col <> "scraped_at" ->
  column_values leads1 col = column_values leads2 col.
Proof.
  intros H Hne. unfold column_values.
  induction H as [|l1 l2 ls1 ls2 Hl _ IH]; [reflexivity|].
  cbn [map]. now rewrite (dict_lookup_same_but_time l1 l2 col Hl Hne), IH.
Qed.

Lemma frame_cell_same_but_time (leads1 leads2 : list dict)
    (lead1 lead2 : dict) (col : string) :
  Forall2 same_but_time leads1 leads2 -> same_but_time lead1 lead2 ->
  col <> "scraped_at" ->
  frame_cell leads1 lead1 col = frame_cell leads2 lead2 col.
Proof.
  intros Hall Hone Hne. unfold frame_cell.
  now rewrite (column_values_same_but_time leads1 leads2 col Hall Hne),
              (dict_lookup_same_but_time lead1 lead2 col Hone Hne).
Qed.

Lemma blank_cell_ext (f g : string -> option value) (cols : list string) :
  (forall col, col <> "scraped_at" -> f col = g col) ->
  blank_cell "scraped_at" cols (map f cols)
  = blank_cell "scraped_at" cols (map g cols).
Proof.
  intros Hsame. induction cols as [|c cols IH]; [reflexivity|].
  cbn [map blank_cell]. rewrite IH.
  destruct (String.eqb_spec c "scraped_at") as [->|Hne]; [reflexivity|].
  now rewrite Hsame.
Qed.

Lemma to_frame_same_but_time (leads1 leads2 : list dict) :
  Forall2 same_but_time leads1 leads2 ->
  blank_column "scraped_at" (to_frame leads1)
  = blank_column "scraped_at" (to_frame leads2).
Proof.
  intros H. destruct H as [|l1 l2 ls1 ls2 Hl Hls]; [reflexivity|].
  assert (Hall : Forall2 same_but_time (l1 :: ls1) (l2 :: ls2))
    by now constructor.
  unfold to_frame, blank_column, frame_of. cbn [columns rows].
  rewrite <- (available_columns_same_but_time _ _ Hall).
  f_equal. rewrite !map_map.
  generalize (available_columns (l1 :: ls1)) as cols. intros cols.
  pose proof (fun lead1 lead2 col =>
                frame_cell_same_but_time _ _ lead1 lead2 col Hall) as Hcell.
  revert Hcell.
  generalize (frame_cell (l1 :: ls1)) as cell1.
  generalize (frame_cell (l2 :: ls2)) as cell2.
  intros cell2 cell1 Hcell.
  clear - Hall Hcell. induction Hall as [|a b xs ys Hab _ IH]; [reflexivity|].
  cbn [map]. rewrite IH. f_equal. apply blank_cell_ext.
  intros col Hne. now apply Hcell.
Qed.

(** Step 5 under another clock: the same calls, the same records but for
    the capture times. *)
Lemma lead_record_clock (env : Env) (clock : list event -> string)
    (h : list event) (result : dict) (title link : value) (content : string) :
  match lead_record (with_clock env clock) h result title link content,
        lead_record env h result title link content with
  | Ok lead1, Ok lead2 => same_but_time lead1 lead2
  | Raise e1, Raise e2 => e1 = e2
  | _, _ => False
  end.
Proof.
  rewrite !lead_record_eq.
  change (groq_extract (with_clock env clock)) with (groq_extract env).
  change (_create_fallback_lead_data (with_clock env clock))
    with (_create_fallback_lead_data env).
  destruct (match groq_extract env (h ++ [EvScrape link]) content link with
            | Parsed lead_data => Ok lead_data
            | _ => _create_fallback_lead_data env link content
            end) as [lead_data|e]; [|reflexivity].
  unfold add_metadata. eexists _, _, _. split; reflexivity.
Qed.

Lemma scrape_and_extract_clock (env : Env) (clock : list event -> string)
    (cands : list dict) :
  forall acc1 acc2 h,
    Forall2 same_but_time acc1 acc2 ->
    snd (scrape_and_extract (with_clock env clock) cands acc1 h)
    = snd (scrape_and_extract env cands acc2 h) /\
    match fst (scrape_and_extract (with_clock env clock) cands acc1 h),
          fst (scrape_and_extract env cands acc2 h) with
    | Ok leads1, Ok leads2 => Forall2 same_but_time leads1 leads2
    | Raise e1, Raise e2 => e1 = e2
    | _, _ => False
    end.
Proof.
  induction cands as [|result rest IH]; intros acc1 acc2 h Hacc.
  - cbn. auto.
  - destruct (dict_lookup result "title") as [title|] eqn:Ht.
    2:{ rewrite !scrape_and_extract_no_title by assumption. cbn. auto. }
    destruct (dict_lookup result "link") as [link|] eqn:Hl.
    2:{ rewrite !(scrape_and_extract_no_link _ result rest _ h title)
          by assumption. cbn. auto. }
    rewrite !(scrape_and_extract_cons _ result rest _ h title link Ht Hl).
    change (fetched (with_clock env clock) h link) with (fetched env h link).
    destruct (fetched env h link) as [content|]; cbv zeta; cbn [fst snd].
    + pose proof (lead_record_clock env clock h result title link content)
        as Hlead.
      destruct (lead_record (with_clock env clock) h result title link content)
        as [lead1|e1],
        (lead_record env h result title link content) as [lead2|e2];
        try contradiction; cbn [fst snd].
      * destruct (IH (acc1 ++ [lead1]) (acc2 ++ [lead2])
                    (h ++ [EvScrape link; EvExtract content link; EvSleep 2]))
          as [Hevs Hout].
        { apply Forall2_app; [assumption|]. now repeat constructor. }
        now rewrite Hevs.
      * auto.
    + destruct (IH acc1 acc2 (h ++ [EvScrape link; EvSleep 2]) Hacc)
        as [Hevs Hout].
      now rewrite Hevs.
Qed.

(** C8, as the code has it.  Two runs on the same query and target count,
    against collaborators that behave the same, make the same calls and
    return the same outcome up to the column [scraped_at]: the same columns,
    the same rows in the same order, the same cells everywhere else.  The
    capture time is read from the clock, which no collaborator sets. *)
Theorem reruns_agree_up_to_capture_time
    (env : Env) (clock : list event -> string) (cfg : Config)
    (search_query : string) (num_results : Z) (h : list event) :
  let first := generate_leads_dataframe env cfg search_query num_results h in
  let second := generate_leads_dataframe (with_clock env clock) cfg
                  search_query num_results h in
  snd second = snd first /\
  timeless (fst second) = timeless (fst first).
Proof.
  cbv zeta. rewrite !generate_leads_dataframe_eq. cbv zeta.
  rewrite relevance_loop_clock.
  destruct (relevance_loop env cfg search_query num_results _ _ _ h)
    as [[|batch|] evs]; cbn [fst snd]; auto.
  unfold process_batch.
  destruct (select_final batch num_results) as [|c cs]; [auto|].
  unfold bind.
  destruct (scrape_and_extract_clock env clock (c :: cs) [] [] (h ++ evs)
              (Forall2_nil _)) as [Hevs Hout].
  destruct (scrape_and_extract (with_clock env clock) (c :: cs) [] (h ++ evs))
    as [out1 evs1].
  destruct (scrape_and_extract env (c :: cs) [] (h ++ evs)) as [out2 evs2].
  cbn [fst snd ret] in *. subst evs1. split; [reflexivity|].
  destruct out1 as [leads1|e1], out2 as [leads2|e2]; try contradiction.
  - cbn [timeless]. f_equal. now apply to_frame_same_but_time.
  - now subst.
Qed.

(** C8, as stated, fails: the same world seven minutes later gives another
    frame. *)
Lemma reruns_differ_in_capture_time :
  ~ (forall env clock query num_results h,
       fst (generate_leads (with_clock env clock) query num_results h)
       = fst (generate_leads env query num_results h)).
Proof.
  intros Hsame.
  specialize (Hsame unscored_env (fun _ => "2024-05-01T10:07:00")
                "roofers" 1 []).
  vm_compute in Hsame. discriminate.
Qed.

(* ================================================================== *)
(** ** One fetch that fails *)

Lemma fetches_app (h evs : list event) :
  fetches (h ++ evs) = (fetches h + fetches evs)%nat.
Proof. apply calls_app. Qed.

Section OneFetch.
Variables (ok failing : Env) (at_position : nat).
Hypothesis Hagree : agree_but_fetch at_position ok failing.

Lemma clean_html_content_agree (html : string) :
  clean_html_content ok html = clean_html_content failing html.
Proof.
  unfold clean_html_content.
  now rewrite (same_text Hagree), (same_squeeze Hagree).
Qed.

Lemma fetched_agree (h1 h2 : list event) (link : value) :
  fetches h1 = fetches h2 -> fetches h1 <> at_position ->
  fetched ok h1 link = fetched failing h2 link.
Proof.
  intros Hpos Hne. unfold fetched. rewrite !scrape_website_eq. cbn [fst].
  rewrite (same_pages Hagree h1 h2 link Hpos Hne).
  destruct (chrome_page_source failing h2 link) as [html|]; [|reflexivity].
  cbn. now rewrite clean_html_content_agree.
Qed.

Lemma company_name_agree (url : value) :
  company_name ok url = company_name failing url.
Proof.
  unfold company_name. destruct url; try reflexivity.
  now rewrite (same_domain Hagree).
Qed.

Lemma fallback_agree (url : value) (content : string) :
  _create_fallback_lead_data ok url content
  = _create_fallback_lead_data failing url content.
Proof.
  unfold _create_fallback_lead_data.
  now rewrite (same_emails Hagree), (same_phones Hagree),
              (same_linkedin Hagree), company_name_agree.
Qed.

Lemma lead_record_agree (h1 h2 : list event) (result : dict)
    (title link : value) (content : string) :
  fetches h1 = fetches h2 ->
  lead_record ok h1 result title link content
  = lead_record failing h2 result title link content.
Proof.
  intros Hpos. rewrite !lead_record_eq.
  rewrite (same_extract Hagree (h1 ++ [EvScrape link])
             (h2 ++ [EvScrape link]) content link)
    by (rewrite !fetches_app; congruence).
  rewrite (same_clock Hagree (h1 ++ [EvScrape link; EvExtract content link])
             (h2 ++ [EvScrape link; EvExtract content link]))
    by (rewrite !fetches_app; congruence).
  now rewrite fallback_agree.
Qed.

(** Away from [at_position] the two worlds gather the same records. *)
Lemma scrape_and_extract_agree (cands : list dict) :
  forall acc1 acc2 h1 h2 leads,
    fetches h1 = fetches h2 ->
    (at_position < fetches h1 \/
     fetches h1 + List.length cands <= at_position)%nat ->
    fst (scrape_and_extract ok cands acc1 h1) = Ok leads ->
    exists gathered,
      leads = acc1 ++ gathered /\
      fst (scrape_and_extract failing cands acc2 h2)
        = Ok (acc2 ++ gathered).
Proof.
  induction cands as [|result rest IH];
    intros acc1 acc2 h1 h2 leads Hpos Hout Hrun.
  - exists []. cbn in Hrun |- *. injection Hrun as <-.
    now rewrite !app_nil_r.
  - destruct (dict_lookup result "title") as [title|] eqn:Et.
    2:{ rewrite scrape_and_extract_no_title in Hrun by assumption.
        discriminate. }
    destruct (dict_lookup result "link") as [link|] eqn:El.
    2:{ rewrite (scrape_and_extract_no_link ok result rest acc1 h1 title)
          in Hrun by assumption. discriminate. }
    rewrite (scrape_and_extract_cons ok result rest acc1 h1 title link Et El)
      in Hrun.
    rewrite (scrape_and_extract_cons failing result rest acc2 h2 title link
               Et El).
    cbn [List.length] in Hout.
    rewrite <- (fetched_agree h1 h2 link Hpos) by lia.
    destruct (fetched ok h1 link) as [content|]; cbv zeta in Hrun |- *.
    + rewrite <- (lead_record_agree h1 h2 result title link content Hpos).
      destruct (lead_record ok h1 result title link content) as [lead|e];
        [|discriminate].
      cbn [fst] in Hrun |- *.
      destruct (IH (acc1 ++ [lead]) (acc2 ++ [lead])
                  (h1 ++ [EvScrape link; EvExtract content link; EvSleep 2])
                  (h2 ++ [EvScrape link; EvExtract content link; EvSleep 2])
                  leads)
        as (gathered & H1 & H2).
      * rewrite !fetches_app. congruence.
      * rewrite fetches_app. cbn. lia.
      * exact Hrun.
      * exists (lead :: gathered).
        rewrite H1, H2, <- !app_assoc. split; reflexivity.
    + cbn [fst] in Hrun |- *.
      apply (IH acc1 acc2 (h1 ++ [EvScrape link; EvSleep 2])
               (h2 ++ [EvScrape link; EvSleep 2]) leads).
      * rewrite !fetches_app. congruence.
      * rewrite fetches_app. cbn. lia.
      * exact Hrun.
Qed.

(** Across [at_position], where the fetch gives text in [ok] and raises
    in [failing], the records of [failing] are those of [ok] less one. *)
Lemma scrape_and_extract_less_one (cands : list dict) :
  forall acc h1 h2 c link leads,
    fetches h1 = fetches h2 ->
    (fetches h1 <= at_position)%nat ->
    nth_error cands (at_position - fetches h1) = Some c ->
    dict_lookup c "link" = Some link ->
    (forall h, fetches h = at_position -> fetched ok h link <> None) ->
    (forall h, fetches h = at_position ->
               chrome_page_source failing h link = None) ->
    fst (scrape_and_extract ok cands acc h1) = Ok leads ->
    exists before lead after,
      leads = acc ++ before ++ lead :: after /\
      fst (scrape_and_extract failing cands acc h2)
        = Ok (acc ++ before ++ after) /\
      exists h title content,
        dict_lookup c "title" = Some title /\
        lead_record ok h c title link content = Ok lead.
Proof.
  induction cands as [|result rest IH];
    intros acc h1 h2 c link leads Hpos Hle Hnth Hlink Hok Hfail Hrun.
  - now destruct (at_position - fetches h1)%nat.
  - destruct (dict_lookup result "title") as [title|] eqn:Et.
    2:{ rewrite scrape_and_extract_no_title in Hrun by assumption.
        discriminate. }
    destruct (dict_lookup result "link") as [link0|] eqn:El.
    2:{ rewrite (scrape_and_extract_no_link ok result rest acc h1 title)
          in Hrun by assumption. discriminate. }
    rewrite (scrape_and_extract_cons ok result rest acc h1 title link0 Et El)
      in Hrun.
    rewrite (scrape_and_extract_cons failing result rest acc h2 title link0
               Et El).
    destruct (Nat.eq_dec (fetches h1) at_position) as [Hhere|Hnot].
    + (* the candidate whose fetch fails *)
      rewrite Hhere, Nat.sub_diag in Hnth. cbn in Hnth.
      injection Hnth as ->. rewrite Hlink in El. injection El as <-.
      rewrite (fetched_failed failing h2 link) by (apply Hfail; congruence).
      destruct (fetched ok h1 link) as [content|] eqn:Hcontent;
        [|now apply Hok in Hcontent].
      destruct (lead_record ok h1 c title link content) as [lead|e] eqn:Hlead;
        [|discriminate].
      cbv zeta in Hrun |- *. cbn [fst] in Hrun |- *.
      destruct (scrape_and_extract_agree rest (acc ++ [lead]) acc
                  (h1 ++ [EvScrape link; EvExtract content link; EvSleep 2])
                  (h2 ++ [EvScrape link; EvSleep 2]) leads)
        as (gathered & H1 & H2).
      * rewrite !fetches_app. cbn. congruence.
      * left. rewrite fetches_app. cbn. lia.
      * exact Hrun.
      * exists [], lead, gathered. rewrite H1, H2, <- app_assoc.
        repeat split. exists h1, title, content. auto.
    + rewrite <- (fetched_agree h1 h2 link0 Hpos Hnot).
      assert (Hnth' : forall h, fetches h = S (fetches h1) ->
                nth_error rest (at_position - fetches h) = Some c).
      { intros h Hh. rewrite Hh.
        replace (at_position - fetches h1)%nat
          with (S (at_position - S (fetches h1))) in Hnth by lia.
        exact Hnth. }
      destruct (fetched ok h1 link0) as [content|]; cbv zeta in Hrun |- *.
      * rewrite <- (lead_record_agree h1 h2 result title link0 content Hpos).
        destruct (lead_record ok h1 result title link0 content)
          as [lead0|e]; [|discriminate].
        cbn [fst] in Hrun |- *.
        destruct (IH (acc ++ [lead0])
                    (h1 ++ [EvScrape link0; EvExtract content link0;
                            EvSleep 2])
                    (h2 ++ [EvScrape link0; EvExtract content link0;
                            EvSleep 2]) c link leads)
          as (before & lead & after & H1 & H2 & Hlead); auto.
        -- rewrite !fetches_app. congruence.
        -- rewrite fetches_app. cbn. lia.
        -- apply Hnth'. rewrite fetches_app. cbn. lia.
        -- exists (lead0 :: before), lead, after.
           rewrite H1, H2, <- !app_assoc. repeat split. exact Hlead.
      * cbn [fst] in Hrun |- *.
        destruct (IH acc (h1 ++ [EvScrape link0; EvSleep 2])
                    (h2 ++ [EvScrape link0; EvSleep 2]) c link leads)
          as (before & lead & after & H1 & H2 & Hlead); auto.
        -- rewrite !fetches_app. congruence.
        -- rewrite fetches_app. cbn. lia.
        -- apply Hnth'. rewrite fetches_app. cbn. lia.
        -- exists before, lead, after. auto.
Qed.
End OneFetch.

Lemma to_frame_rows (all_leads : list dict) :
  List.length (rows (to_frame all_leads)) = List.length all_leads.
Proof.
  destruct all_leads as [|lead leads]; [reflexivity|].
  unfold to_frame, frame_of. cbn [rows]. apply length_map.
Qed.


Lemma failing_at_agrees (at_position : nat) :
  agree_but_fetch at_position unscored_env (failing_at at_position).
Proof.
  constructor; try reflexivity.
  intros h1 h2 url Hpos Hne. cbn.
  destruct (Nat.eqb_spec (fetches h2) at_position); [congruence|reflexivity].
Qed.



(** The whole run in that world: one search, one evaluation, one fetch and
    one extraction, then the exception. *)
Lemma unparsable_link_aborts_the_run :
  generate_leads unparsable_env "roofers" 1 [] =
  (Raise ValueError,
   [EvSearch "roofers" 2;
    EvJudge [hit "Acme" "http://[acme"] "roofers";
    EvScrape (VStr "http://[acme");
    EvExtract "<html>Acme</html>" (VStr "http://[acme")]).
Proof. reflexivity. Qed.

(* ================================================================== *)
(** ** More on the retry loop *)

(** A loop that has an iteration to run leaves with a batch or with
    nothing found, never with the variables of step 4 unset. *)
Lemma attempts_exit (env : Env) (cfg : Config) (sq : string) (n : Z)
    (k : nat) (q : string) (h : list event) (last exit : loop_exit)
    (evs : list event) :
  attempts env cfg sq n k q h last exit evs ->
  k <> O ->
  exit = NoResults \/ exists batch, exit = Batch batch.
Proof.
  induction 1; intros Hk; try contradiction; eauto.
Qed.

(** X1.  When the first search finds something and the first batch meets
    the threshold, the run is one search and one evaluation, without any
    refinement, followed by steps 4 to 6 on that batch. *)
Theorem sufficient_first_batch_is_accepted
    (env : Env) (cfg : Config) (search_query : string) (num_results : Z)
    (h : list event) (search_results : list dict) :
  1 <= max_retries cfg ->
  search_results
    = fst (search_companies env search_query (num_results * 2) h) ->
  search_results <> [] ->
  let batch :=
    fst (evaluate_relevance env search_results search_query
           (h ++ [EvSearch search_query (num_results * 2)])) in
  let evs := [EvSearch search_query (num_results * 2);
              EvJudge search_results search_query] in
  sufficient cfg batch = true ->
  let run := generate_leads_dataframe env cfg search_query num_results h in
  run = (fst (process_batch env batch num_results (h ++ evs)),
         evs ++ snd (process_batch env batch num_results (h ++ evs))) /\
  calls is_search (snd run) = 1%nat /\
  calls is_judge (snd run) = 1%nat /\
  calls is_refine (snd run) = 0%nat.
Proof.
  intros Hmax Hrs Hne batch evs Hsuf run.
  assert (Hrun : run = (fst (process_batch env batch num_results (h ++ evs)),
                        evs ++ snd (process_batch env batch num_results
                                      (h ++ evs)))).
  { subst run. rewrite generate_leads_dataframe_eq. cbv zeta.
    destruct (Z.to_nat (max_retries cfg)) as [|k] eqn:Hk; [lia|].
    rewrite relevance_loop_S. cbv zeta. rewrite <- Hrs.
    destruct search_results as [|r rs]; [contradiction|].
    fold batch. rewrite Hsuf. reflexivity. }
  split; [exact Hrun|]. rewrite Hrun. cbn [snd].
  pose proof (process_batch_events env batch num_results (h ++ evs)) as Hevs.
  set (step5_evs := snd (process_batch env batch num_results (h ++ evs))) in *.
  rewrite !calls_app.
  rewrite (step5_calls is_search step5_evs),
          (step5_calls is_judge step5_evs),
          (step5_calls is_refine step5_evs);
    try assumption; try (intros []; cbn; congruence).
  repeat split; reflexivity.
Qed.

Lemma sufficient_first_batch_is_accepted_witness :
  calls is_search (snd (generate_leads unscored_env "roofers" 2 [])) = 1%nat /\
  calls is_refine (snd (generate_leads unscored_env "roofers" 2 [])) = 0%nat.
Proof.
  destruct (sufficient_first_batch_is_accepted unscored_env default_config
              "roofers" 2 []
              [hit "Acme" "https://acme.example";
               hit "Bolt" "https://bolt.example"])
    as (_ & Hs & _ & Hr).
  - cbn. lia.
  - reflexivity.
  - discriminate.
  - reflexivity.
  - exact (conj Hs Hr).
Defined.

(** X2.  A tool without attempts.  The controller raises
    [UnboundLocalError] exactly when [max_retries] is not positive: the
    loop body never runs, step 4 reads [relevant_results], which no
    iteration has set, and not a single call has been made. *)
Theorem controller_exceptions
    (env : Env) (cfg : Config) (search_query : string) (num_results : Z)
    (h : list event) :
  let run := generate_leads_dataframe env cfg search_query num_results h in
  (max_retries cfg <= 0 ->
   run = (Raise (UnboundLocalError "relevant_results"), [])) /\
  (forall name, fst run = Raise (UnboundLocalError name) ->
                max_retries cfg <= 0).
Proof.
  cbv zeta.
  assert (Hstep5 : forall cands acc h' name,
            fst (scrape_and_extract env cands acc h')
            <> Raise (UnboundLocalError name)).
  { intros cands acc h' name Hraise.
    apply scrape_and_extract_raises in Hraise
      as [H|[H|(h'' & link & content & _ & Hname)]]; try discriminate.
    apply company_name_raises in Hname as [H|[H|H]]; discriminate. }
  assert (Hbatch : forall batch h' name,
            fst (process_batch env batch num_results h')
            <> Raise (UnboundLocalError name)).
  { intros batch h' name. unfold process_batch.
    destruct (select_final batch num_results) as [|c cs]; [discriminate|].
    unfold bind.
    destruct (scrape_and_extract env (c :: cs) [] h') as [out evs] eqn:Hrun.
    cbn [fst ret]. destruct out as [leads|e']; [discriminate|].
    intros [= ->]. apply (Hstep5 (c :: cs) [] h' name). now rewrite Hrun. }
  pose proof (relevance_loop_attempts env cfg search_query num_results
                (Z.to_nat (max_retries cfg)) search_query NeverRan h) as Hrun.
  rewrite generate_leads_dataframe_eq. cbv zeta.
  split.
  - intros Hmax. now replace (Z.to_nat (max_retries cfg)) with O by lia.
  - intros name Hraise.
    destruct (Z.to_nat (max_retries cfg)) as [|k] eqn:Hk; [lia|].
    destruct (attempts_exit _ _ _ _ _ _ _ _ _ _ Hrun ltac:(discriminate))
      as [Hexit|[batch Hexit]];
      rewrite Hexit in Hraise; [discriminate|].
    cbn [fst] in Hraise. now apply Hbatch in Hraise.
Qed.

Lemma controller_exceptions_witness :
  generate_leads_dataframe stubborn_env idle_config "roofers" 5 []
  = (Raise (UnboundLocalError "relevant_results"), []).
Proof.
  destruct (controller_exceptions stubborn_env idle_config "roofers" 5 [])
    as (Hidle & _).
  apply Hidle. cbn. lia.
Defined.

Lemma attempts_original_query (env : Env) (cfg : Config) (sq : string) (n : Z)
    (k : nat) (q : string) (h : list event) (last exit : loop_exit)
    (evs : list event) :
  attempts env cfg sq n k q h last exit evs ->
  Forall (fun e => match e with
                   | EvJudge _ query => query = sq
                   | EvRefine query _ => query = sq
                   | _ => True
                   end) evs.
Proof. induction 1; repeat constructor; assumption. Qed.

(** X3.  Whatever the attempt and whatever query the search of that
    attempt used, the scorer and the refiner are given the query the caller
    passed, never a refined one. *)
Theorem scorer_and_refiner_get_the_original_query
    (env : Env) (cfg : Config) (search_query : string) (num_results : Z)
    (h : list event) :
  Forall (fun e => match e with
                   | EvJudge _ query => query = search_query
                   | EvRefine query _ => query = search_query
                   | _ => True
                   end)
         (snd (generate_leads_dataframe env cfg search_query num_results h)).
Proof.
  destruct (generate_leads_dataframe_calls env cfg search_query num_results h)
    as (exit & loop_evs & step5_evs & Hloop & -> & Hstep5 & _).
  pose proof (relevance_loop_attempts env cfg search_query num_results
                (Z.to_nat (max_retries cfg)) search_query NeverRan h) as Hrun.
  rewrite Hloop in Hrun. cbn [fst snd] in Hrun.
  apply Forall_app. split.
  - exact (attempts_original_query _ _ _ _ _ _ _ _ _ _ Hrun).
  - eapply Forall_impl; [|exact Hstep5].
    intros [] He; auto; discriminate.
Qed.

Lemma searched_app (xs ys : list event) :
  searched (xs ++ ys) = searched xs ++ searched ys.
Proof.
  induction xs as [|e xs IH]; [reflexivity|].
  destruct e; cbn; now rewrite ?IH.
Qed.

Lemma searched_step5 (evs : list event) :
  Forall (fun e => is_step5 e = true) evs -> searched evs = [].
Proof.
  induction 1 as [|e evs He _ IH]; [reflexivity|].
  destruct e; try discriminate; exact IH.
Qed.

Lemma attempts_failing_refiner (env : Env) (cfg : Config) (sq : string)
    (n : Z) (k : nat) (q : string) (h : list event) (last exit : loop_exit)
    (evs : list event) :
  (forall h' query titles, groq_refine env h' query titles = None) ->
  attempts env cfg sq n k q h last exit evs ->
  searched evs =
  match k with
  | O => []
  | S _ => q :: repeat (fallback_query sq) (calls is_refine evs)
  end.
Proof.
  intros Hdown.
  induction 1 as [q h last|k q h last Hrs|k q h last rs ev _ _ _ _
                  |q h last rs ev _ _ _ _
                  |k q h last rs ev q' exit evs _ _ _ _ Hq _ IH];
    try reflexivity.
  cbn [searched]. rewrite IH. rewrite !calls_cons. cbn [is_refine Nat.add].
  rewrite Hq, refine_search_query_eq, Hdown. reflexivity.
Qed.

(** X4.  With a refiner that is down, every retry searches for the same
    query, the original one followed by " company contact information":
    the fallback does not build on the query of the attempt before. *)
Theorem failing_refiner_retries_one_query
    (env : Env) (cfg : Config) (search_query : string) (num_results : Z)
    (h : list event) :
  1 <= max_retries cfg ->
  (forall h' query titles, groq_refine env h' query titles = None) ->
  let evs := snd (generate_leads_dataframe env cfg search_query
                    num_results h) in
  searched evs
  = search_query
    :: repeat (fallback_query search_query) (calls is_refine evs).
Proof.
  intros Hmax Hdown evs. subst evs.
  destruct (generate_leads_dataframe_calls env cfg search_query num_results h)
    as (exit & loop_evs & step5_evs & Hloop & -> & Hstep5 & _).
  pose proof (relevance_loop_attempts env cfg search_query num_results
                (Z.to_nat (max_retries cfg)) search_query NeverRan h) as Hrun.
  rewrite Hloop in Hrun. cbn [fst snd] in Hrun.
  rewrite searched_app, (searched_step5 step5_evs Hstep5), app_nil_r.
  rewrite calls_app, (step5_calls is_refine step5_evs), Nat.add_0_r;
    [|intros []; cbn; congruence|assumption].
  rewrite (attempts_failing_refiner _ _ _ _ _ _ _ _ _ _ Hdown Hrun).
  destruct (Z.to_nat (max_retries cfg)) eqn:Hk; [lia|reflexivity].
Qed.

Lemma failing_refiner_retries_one_query_witness :
  searched (snd (generate_leads stubborn_env "roofers" 3 []))
  = ["roofers"; "roofers company contact information";
     "roofers company contact information"].
Proof.
  unfold generate_leads.
  rewrite (failing_refiner_retries_one_query stubborn_env default_config
             "roofers" 3 []).
  - reflexivity.
  - cbn. lia.
  - reflexivity.
Defined.

(* ================================================================== *)
(** ** More on step 5 *)

(** The calls of step 5, counted.  A pause follows every fetch, the last
    one apart when the fallback raised after it. *)
Lemma scrape_and_extract_counts (env : Env) (cands : list dict) :
  forall acc h,
    let run := scrape_and_extract env cands acc h in
    (calls is_sleep (snd run) <= calls is_scrape (snd run))%nat /\
    (calls is_scrape (snd run) <= S (calls is_sleep (snd run)))%nat /\
    (calls is_scrape (snd run) <= List.length cands)%nat /\
    (calls is_extract (snd run) <= calls is_scrape (snd run))%nat /\
    (forall leads,
       fst run = Ok leads ->
       List.length leads
       = (List.length acc + calls is_extract (snd run))%nat /\
       calls is_scrape (snd run) = List.length cands /\
       calls is_sleep (snd run) = calls is_scrape (snd run)) /\
    (calls is_sleep (snd run) <> calls is_scrape (snd run) ->
     exists e,
       fst run = Raise e /\
       (e = ValueError \/ e = AttributeError \/ e = TypeError)).
Proof.
  induction cands as [|result rest IH]; intros acc h; cbv zeta.
  - unfold calls. cbn.
    split; [lia|]. split; [lia|]. split; [lia|]. split; [lia|]. split.
    + intros leads [= <-]. lia.
    + intros Hne. contradiction.
  - destruct (dict_lookup result "title") as [title|] eqn:Ht.
    2:{ rewrite scrape_and_extract_no_title by assumption. unfold calls. cbn.
        split; [lia|]. split; [lia|]. split; [lia|]. split; [lia|].
        split; [discriminate|]. intros Hne. contradiction. }
    destruct (dict_lookup result "link") as [link|] eqn:Hl.
    2:{ rewrite (scrape_and_extract_no_link env result rest acc h title)
          by assumption. unfold calls. cbn.
        split; [lia|]. split; [lia|]. split; [lia|]. split; [lia|].
        split; [discriminate|]. intros Hne. contradiction. }
    destruct (scrape_and_extract_case env result rest acc h title link Ht Hl)
      as [content lead _ _ ->|content e _ Hraise ->|_ ->]; cbn [fst snd].
    + rewrite !calls_cons.
      cbn [is_sleep is_scrape is_extract List.length Nat.add].
      destruct (IH (acc ++ [lead])
                  (h ++ [EvScrape link; EvExtract content link; EvSleep 2]))
        as (Hsl & Hsc & Hlen & Hex & Hok & Hshort).
      split; [lia|]. split; [lia|]. split; [lia|]. split; [lia|]. split.
      * intros leads Hleads. destruct (Hok leads Hleads) as (Hl1 & Hl2 & Hl3).
        rewrite length_app in Hl1. cbn [List.length] in Hl1. lia.
      * intros Hne. apply Hshort. lia.
    + unfold calls. cbn.
      split; [lia|]. split; [lia|]. split; [lia|]. split; [lia|]. split.
      * discriminate.
      * intros _. exists e. split; [reflexivity|].
        apply (company_name_raises env link).
        now apply (lead_record_raises env h result title link content e).
    + rewrite !calls_cons.
      cbn [is_sleep is_scrape is_extract List.length Nat.add].
      destruct (IH acc (h ++ [EvScrape link; EvSleep 2]))
        as (Hsl & Hsc & Hlen & Hex & Hok & Hshort).
      split; [lia|]. split; [lia|]. split; [lia|]. split; [lia|]. split.
      * intros leads Hleads. destruct (Hok leads Hleads) as (Hl1 & Hl2 & Hl3).
        lia.
      * intros Hne. apply Hshort. lia.
Qed.

Lemma loop_calls_none (kind : event -> bool) (evs : list event) :
  (forall e, kind e = true -> is_step5 e = true) ->
  Forall (fun e => is_step5 e = false) evs ->
  calls kind evs = O.
Proof.
  intros Hkind Hall. apply calls_none.
  eapply Forall_impl; [|exact Hall].
  intros e He. destruct (kind e) eqn:Hk; [|reflexivity].
  apply Hkind in Hk. congruence.
Qed.

Lemma select_final_length (batch : list dict) (n : Z) :
  0 <= n -> (List.length (select_final batch n) <= Z.to_nat n)%nat.
Proof.
  intros Hn. unfold select_final.
  destruct (relevant batch); rewrite slice_to_nonneg by assumption;
    apply firstn_le_length.
Qed.

(** The run of the controller, taken apart: the loop and its exit, then
    step 5 on the candidates selected and the frame of its records. *)
Lemma generate_leads_dataframe_parts (env : Env) (cfg : Config) (sq : string)
    (n : Z) (h : list event) :
  let run := generate_leads_dataframe env cfg sq n h in
  exists loop_evs,
    Forall (fun e => is_step5 e = false) loop_evs /\
    ((snd run = loop_evs /\
      (fst run = Ok empty_frame \/
       fst run = Raise (UnboundLocalError "relevant_results")))
     \/
     (exists batch step5,
        step5 = scrape_and_extract env (select_final batch n) []
                  (h ++ loop_evs) /\
        select_final batch n <> [] /\
        snd run = loop_evs ++ snd step5 /\
        fst run = match fst step5 with
                  | Ok all_leads => Ok (to_frame all_leads)
                  | Raise e => Raise e
                  end)).
Proof.
  cbv zeta. rewrite generate_leads_dataframe_eq. cbv zeta.
  pose proof (relevance_loop_attempts env cfg sq n
                (Z.to_nat (max_retries cfg)) sq NeverRan h) as Hrun.
  apply attempts_bounds in Hrun as (_ & _ & _ & Hall).
  destruct (relevance_loop env cfg sq n _ sq NeverRan h) as [exit evs].
  cbn [fst snd] in *. exists evs. split; [exact Hall|].
  destruct exit as [|batch|]; cbn [fst snd]; auto.
  unfold process_batch.
  destruct (select_final batch n) as [|c cs] eqn:Hsel.
  - left. cbn. rewrite app_nil_r. auto.
  - right. exists batch, (scrape_and_extract env (c :: cs) [] (h ++ evs)).
    rewrite Hsel. split; [reflexivity|]. split; [discriminate|].
    unfold bind.
    destruct (scrape_and_extract env (c :: cs) [] (h ++ evs)) as [out evs'].
    cbn [fst snd ret]. rewrite app_nil_r. split; reflexivity.
Qed.

(** X5.  For a target count that is not negative the controller fetches at
    most that many pages and returns at most that many records. *)
Theorem target_count_bounds_the_run
    (env : Env) (cfg : Config) (search_query : string) (num_results : Z)
    (h : list event) :
  0 <= num_results ->
  let run := generate_leads_dataframe env cfg search_query num_results h in
  (calls is_scrape (snd run) <= Z.to_nat num_results)%nat /\
  (calls is_extract (snd run) <= Z.to_nat num_results)%nat /\
  (forall df, fst run = Ok df ->
              (List.length (rows df) <= Z.to_nat num_results)%nat).
Proof.
  intros Hn run. subst run.
  destruct (generate_leads_dataframe_parts env cfg search_query num_results h)
    as (loop_evs & Hloop & [(Hevs & Hout)|(batch & step5 & Hstep5 & _ & Hevs
                                           & Hout)]).
  - rewrite Hevs.
    rewrite (loop_calls_none is_scrape), (loop_calls_none is_extract);
      try assumption; try (intros []; cbn; congruence).
    repeat split; try lia.
    intros df Hdf. destruct Hout as [Hout|Hout]; rewrite Hout in Hdf.
    + injection Hdf as <-. cbn. lia.
    + discriminate.
  - rewrite Hevs, !calls_app.
    rewrite (loop_calls_none is_scrape loop_evs),
            (loop_calls_none is_extract loop_evs);
      try assumption; try (intros []; cbn; congruence).
    pose proof (select_final_length batch num_results Hn) as Hlen.
    pose proof (scrape_and_extract_counts env (select_final batch num_results)
                  [] (h ++ loop_evs)) as Hcount.
    cbv zeta in Hcount. rewrite <- Hstep5 in Hcount.
    destruct Hcount as (_ & _ & Hsc & Hex & Hok & _).
    repeat split; try lia.
    intros df Hdf. rewrite Hout in Hdf.
    destruct (fst step5) as [leads|e]; [|discriminate].
    injection Hdf as <-. rewrite to_frame_rows.
    destruct (Hok leads eq_refl) as [Hleads _]. cbn in Hleads. lia.
Qed.

Lemma target_count_bounds_the_run_witness :
  (calls is_scrape (snd (generate_leads unscored_env "roofers" 1 []))
   <= 1)%nat.
Proof.
  destruct (target_count_bounds_the_run unscored_env default_config
              "roofers" 1 []) as (Hfetch & _).
  - lia.
  - exact Hfetch.
Defined.

(** X6.  In every run a pause follows each fetch, the last fetch apart
    when the run is cut short after it: there are as many pauses as fetches
    or one less, and one less only in a run that raised what [urlparse]
    raised in the regex fallback.  No page is extracted that was not
    fetched, and when the run returns a frame there was one pause per fetch
    and there is one row per extraction. *)
Theorem one_pause_per_fetch_one_row_per_extraction
    (env : Env) (cfg : Config) (search_query : string) (num_results : Z)
    (h : list event) :
  let run := generate_leads_dataframe env cfg search_query num_results h in
  (calls is_sleep (snd run) <= calls is_scrape (snd run))%nat /\
  (calls is_scrape (snd run) <= S (calls is_sleep (snd run)))%nat /\
  (calls is_extract (snd run) <= calls is_scrape (snd run))%nat /\
  (forall df, fst run = Ok df ->
              calls is_sleep (snd run) = calls is_scrape (snd run) /\
              List.length (rows df) = calls is_extract (snd run)) /\
  (calls is_sleep (snd run) <> calls is_scrape (snd run) ->
   exists e,
     fst run = Raise e /\
     (e = ValueError \/ e = AttributeError \/ e = TypeError)).
Proof.
  cbv zeta.
  destruct (generate_leads_dataframe_parts env cfg search_query num_results h)
    as (loop_evs & Hloop & [(Hevs & Hout)|(batch & step5 & Hstep5 & _ & Hevs
                                           & Hout)]).
  - rewrite Hevs.
    rewrite (loop_calls_none is_scrape), (loop_calls_none is_extract),
            (loop_calls_none is_sleep);
      try assumption; try (intros []; cbn; congruence).
    split; [lia|]. split; [lia|]. split; [lia|]. split.
    + intros df Hdf. split; [reflexivity|].
      destruct Hout as [Hout|Hout]; rewrite Hout in Hdf.
      * now injection Hdf as <-.
      * discriminate.
    + intros Hne. contradiction.
  - rewrite Hevs, !calls_app.
    rewrite (loop_calls_none is_scrape loop_evs),
            (loop_calls_none is_extract loop_evs),
            (loop_calls_none is_sleep loop_evs);
      try assumption; try (intros []; cbn; congruence).
    pose proof (scrape_and_extract_counts env (select_final batch num_results)
                  [] (h ++ loop_evs)) as Hcount.
    cbv zeta in Hcount. rewrite <- Hstep5 in Hcount.
    destruct Hcount as (Hsl & Hsc & _ & Hex & Hok & Hshort).
    cbn [Nat.add].
    split; [lia|]. split; [lia|]. split; [lia|]. split.
    + intros df Hdf. rewrite Hout in Hdf.
      destruct (fst step5) as [leads|e]; [|discriminate].
      injection Hdf as <-. rewrite to_frame_rows.
      destruct (Hok leads eq_refl) as (Hleads & _ & Hpauses).
      cbn in Hleads. lia.
    + intros Hne. destruct (Hshort Hne) as (e & He & Hkind).
      exists e. rewrite Hout, He. auto.
Qed.

(** The run of [unparsable_link_aborts_the_run]: one fetch, no pause. *)
Lemma one_pause_per_fetch_one_row_per_extraction_witness :
  exists e,
    fst (generate_leads unparsable_env "roofers" 1 []) = Raise e /\
    (e = ValueError \/ e = AttributeError \/ e = TypeError).
Proof.
  destruct (one_pause_per_fetch_one_row_per_extraction unparsable_env
              default_config "roofers" 1 []) as (_ & _ & _ & _ & Hshort).
  apply Hshort. vm_compute. discriminate.
Defined.

Lemma links_parse_tail (env : Env) (result : dict) (rest : list dict) :
  links_parse env (result :: rest) -> links_parse env rest.
Proof. intros Hlinks r l Hin. apply Hlinks. now right. Qed.

Lemma scrape_and_extract_missing_key (env : Env) (pre : list dict)
    (c : dict) (post : list dict) :
  Forall well_keyed pre ->
  ~ well_keyed c ->
  forall acc h,
    let run := scrape_and_extract env (pre ++ c :: post) acc h in
    (exists e fetched_count,
       fst run = Raise e /\
       scraped (snd run)
       = firstn fetched_count (map (fun r => dict_get r "link" VNone) pre)) /\
    (links_parse env pre ->
     exists key,
       (key = "title" \/ key = "link") /\
       dict_has c key = false /\
       fst run = Raise (KeyError key) /\
       scraped (snd run) = map (fun r => dict_get r "link" VNone) pre).
Proof.
  intros Hpre Hbad.
  induction Hpre as [|result rest [Ht Hl] _ IH]; intros acc h; cbv zeta;
    cbn [app map].
  - unfold well_keyed, dict_has in Hbad.
    destruct (dict_lookup c "title") as [title|] eqn:Et.
    + destruct (dict_lookup c "link") as [link|] eqn:El.
      * exfalso. apply Hbad. auto.
      * rewrite (scrape_and_extract_no_link env c post acc h title Et El).
        split; [exists (KeyError "link"), O; auto|].
        intros _. exists "link". unfold dict_has. rewrite El. auto.
    + rewrite (scrape_and_extract_no_title env c post acc h Et).
      split; [exists (KeyError "title"), O; auto|].
      intros _. exists "title". unfold dict_has. rewrite Et. auto.
  - unfold dict_has in Ht, Hl.
    destruct (dict_lookup result "title") as [title|] eqn:Et; [|discriminate].
    destruct (dict_lookup result "link") as [link|] eqn:El; [|discriminate].
    assert (Hget : dict_get result "link" VNone = link)
      by (unfold dict_get; now rewrite El).
    rewrite !Hget.
    destruct (scrape_and_extract_case env result (rest ++ c :: post) acc h
                title link Et El)
      as [content lead _ _ ->|content e _ Hraise ->|_ ->];
      cbn [fst snd scraped].
    + destruct (IH (acc ++ [lead])
                  (h ++ [EvScrape link; EvExtract content link; EvSleep 2]))
        as [(e & n & Hout & Hurls) Hkey].
      split.
      * exists e, (S n). rewrite Hout, Hurls. auto.
      * intros Hlinks.
        destruct (Hkey (links_parse_tail env result rest Hlinks))
          as (key & Hk & Hhas & Hout' & Hurls').
        exists key. rewrite Hout', Hurls'. auto.
    + split.
      * exists e, 1%nat. auto.
      * intros Hlinks. exfalso.
        destruct (Hlinks result link (or_introl eq_refl) El) as [name Hname].
        apply (lead_record_raises env h result title link content e)
          in Hraise as [_ Hraise].
        congruence.
    + destruct (IH acc (h ++ [EvScrape link; EvSleep 2]))
        as [(e & n & Hout & Hurls) Hkey].
      split.
      * exists e, (S n). rewrite Hout, Hurls. auto.
      * intros Hlinks.
        destruct (Hkey (links_parse_tail env result rest Hlinks))
          as (key & Hk & Hhas & Hout' & Hurls').
        exists key. rewrite Hout', Hurls'. auto.
Qed.

(** X7.  A selected result without [title] or [link] costs the whole
    batch: the run raises, the controller returns no frame, the records
    gathered so far included, and nothing is fetched but links of the
    candidates before it, from the first on.  When these links are ones
    [urlparse] accepts, all of them have been fetched and what is raised is
    the [KeyError] for the key that is missing. *)
Theorem missing_key_loses_the_batch
    (env : Env) (batch : list dict) (num_results : Z) (h : list event)
    (pre : list dict) (c : dict) (post : list dict) :
  select_final batch num_results = pre ++ c :: post ->
  Forall well_keyed pre ->
  ~ well_keyed c ->
  let run := process_batch env batch num_results h in
  (exists e fetched_count,
     fst run = Raise e /\
     scraped (snd run)
     = firstn fetched_count (map (fun r => dict_get r "link" VNone) pre)) /\
  (links_parse env pre ->
   exists key,
     (key = "title" \/ key = "link") /\
     dict_has c key = false /\
     fst run = Raise (KeyError key) /\
     scraped (snd run) = map (fun r => dict_get r "link" VNone) pre).
Proof.
  intros Hsel Hpre Hbad. cbv zeta.
  pose proof (scrape_and_extract_missing_key env pre c post Hpre Hbad [] h)
    as Hstep. cbv zeta in Hstep.
  unfold process_batch. rewrite Hsel.
  destruct (pre ++ c :: post) as [|c0 cs] eqn:Hcands;
    [now destruct pre|].
  unfold bind.
  destruct (scrape_and_extract env (c0 :: cs) [] h) as [out evs].
  cbn [fst snd ret] in *. rewrite app_nil_r.
  destruct Hstep as [(e & n & Hout & Hurls) Hkey]. split.
  - exists e, n. subst out. split; [reflexivity|exact Hurls].
  - intros Hlinks.
    destruct (Hkey Hlinks) as (key & Hk & Hhas & Hout' & Hurls').
    exists key. rewrite Hout'.
    split; [exact Hk|]. split; [exact Hhas|].
    split; [reflexivity|exact Hurls'].
Qed.

Lemma missing_key_loses_the_batch_witness :
  let batch := [fail_open (hit "Acme" "https://acme.example");
                fail_open (untitled "https://bolt.example")] in
  fst (process_batch unscored_env batch 2 []) = Raise (KeyError "title") /\
  scraped (snd (process_batch unscored_env batch 2 []))
    = [VStr "https://acme.example"].
Proof.
  intros batch.
  destruct (missing_key_loses_the_batch unscored_env batch 2 []
              [fail_open (hit "Acme" "https://acme.example")]
              (fail_open (untitled "https://bolt.example")) [])
    as (_ & Hkey).
  - reflexivity.
  - repeat constructor.
  - intros [Ht _]. discriminate.
  - destruct Hkey as (key & [-> | ->] & Hhas & Hout & Hurls).
    + intros result link [<-|[]] [= <-]. now exists "Acme".
    + split; assumption.
    + discriminate.
Defined.

(* ================================================================== *)
(** ** The frame returned *)

Lemma lead_record_metadata (env : Env) (h : list event) (result : dict)
    (title link : value) (content : string) (lead : dict) :
  lead_record env h result title link content = Ok lead ->
  dict_lookup lead "search_title" = Some title /\
  dict_lookup lead "search_snippet"
    = Some (dict_get result "snippet" (VStr "")) /\
  dict_lookup lead "is_relevant"
    = Some (dict_get result "is_relevant" (VBool false)) /\
  dict_lookup lead "relevance_confidence"
    = Some (dict_get result "relevance_confidence" (VFloat 0)) /\
  dict_lookup lead "relevance_reason"
    = Some (dict_get result "relevance_reason" (VStr "")) /\
  dict_lookup lead "scraped_at"
    = Some (VStr (datetime_now env
                    (h ++ [EvScrape link; EvExtract content link]))).
Proof.
  unfold lead_record.
  destruct (fst (extract_lead_info env content link (h ++ [EvScrape link])))
    as [lead_data|e]; [|discriminate].
  intros [= <-]. unfold add_metadata.
  repeat split;
    rewrite ?dict_lookup_set_other by discriminate;
    apply dict_lookup_set_same.
Qed.

(** The cell of a column in a row laid out along the columns. *)
Lemma cell_of_map (f : string -> option value) (cols : list string)
    (col : string) :
  In col cols -> cell cols (map f cols) col = f col.
Proof.
  induction cols as [|c cols IH]; intros Hin; [contradiction|].
  cbn [map cell].
  destruct (String.eqb_spec c col) as [->|Hne]; [reflexivity|].
  destruct Hin as [Heq|Hin]; [contradiction|]. now apply IH.
Qed.

Lemma available_columns_in (all_leads : list dict) (lead : dict)
    (col : string) :
  In lead all_leads -> In col column_order -> dict_has lead col = true ->
  In col (available_columns all_leads).
Proof.
  intros Hlead Hcol Hhas. unfold available_columns.
  apply filter_In. split; [exact Hcol|].
  apply existsb_exists. eauto.
Qed.

Lemma lead_record_has_metadata (env : Env) (h : list event) (result : dict)
    (title link : value) (content : string) (lead : dict) :
  lead_record env h result title link content = Ok lead ->
  has_metadata lead.
Proof.
  unfold lead_record.
  destruct (fst (extract_lead_info env content link (h ++ [EvScrape link])))
    as [lead_data|e]; [|discriminate].
  intros [= <-]. apply add_metadata_has.
Qed.

Lemma record_of_has_metadata (env : Env) (result lead : dict) :
  record_of env result lead -> has_metadata lead.
Proof.
  intros (h & title & link & content & _ & _ & Hlead).
  exact (lead_record_has_metadata env h result title link content lead Hlead).
Qed.

Lemma metadata_in_column_order (col : string) :
  In col metadata_fields -> In col column_order.
Proof.
  intros Hmeta. repeat (destruct Hmeta as [<-|Hmeta]; [cbn; tauto|]).
  contradiction.
Qed.

(** A frame with a row has the six metadata columns. *)
Lemma metadata_columns (env : Env) (kept leads : list dict) (col : string) :
  Forall2 (record_of env) kept leads ->
  leads <> [] ->
  In col metadata_fields ->
  In col (available_columns leads).
Proof.
  intros Hrec Hne Hmeta.
  destruct Hrec as [|result lead kept' leads' Hone _]; [contradiction|].
  apply (available_columns_in (lead :: leads') lead col); [now left| |].
  - now apply metadata_in_column_order.
  - now apply (record_of_has_metadata env result lead Hone).
Qed.

(** A value Python counts as true is not null, and the frame holds it as
    a value Python counts as true. *)
Lemma to_cell_truthy (as_float : bool) (v : value) :
  truthy v = true ->
  exists w, to_cell as_float (Some v) = Some w /\ truthy w = true.
Proof.
  destruct v as [|b|n|q|s|l|d]; cbn; intros Htrue; try discriminate; eauto.
  destruct as_float; [|eauto].
  eexists. split; [reflexivity|]. cbn.
  destruct (Qeq_bool (inject_Z n) 0) eqn:Hzero; [|reflexivity].
  apply Qeq_bool_iff in Hzero. unfold Qeq in Hzero. cbn in Hzero.
  destruct (Z.eqb_spec n 0); [discriminate|lia].
Qed.

(** The rows of the frame, cell by cell. *)
Lemma rows_of_records (env : Env) (all_leads : list dict)
    (cols : list string) (kept leads : list dict) :
  (forall col, In col metadata_fields -> In col cols) ->
  Forall2 (record_of env) kept leads ->
  Forall2
    (fun result row =>
       let as_float col := float_column (column_values all_leads col) in
       cell cols row "search_title"
         = to_cell (as_float "search_title") (dict_lookup result "title") /\
       cell cols row "search_snippet"
         = to_cell (as_float "search_snippet")
             (Some (dict_get result "snippet" (VStr ""))) /\
       cell cols row "is_relevant"
         = to_cell (as_float "is_relevant")
             (Some (dict_get result "is_relevant" (VBool false))) /\
       cell cols row "relevance_confidence"
         = to_cell (as_float "relevance_confidence")
             (Some (dict_get result "relevance_confidence" (VFloat 0))) /\
       cell cols row "relevance_reason"
         = to_cell (as_float "relevance_reason")
             (Some (dict_get result "relevance_reason" (VStr ""))) /\
       exists scraped_at, cell cols row "scraped_at" = Some (VStr scraped_at))
    kept (map (fun lead => map (frame_cell all_leads lead) cols) leads).
Proof.
  intros Hcols.
  induction 1 as [|result lead kept leads Hone _ IH]; cbn [map];
    constructor; [|exact IH].
  destruct Hone as (h & title & link & content & Ht & Hl & Hlead).
  destruct (lead_record_metadata env h result title link content lead Hlead)
    as (H1 & H2 & H3 & H4 & H5 & H6).
  cbv zeta. rewrite !cell_of_map by (apply Hcols; cbn; tauto).
  unfold frame_cell. rewrite H1, H2, H3, H4, H5, H6, Ht.
  repeat split. eexists. reflexivity.
Qed.

(** X8.  Every row of a frame the controller returns holds, in its six
    metadata columns, the title, the snippet and the judgment of one of the
    results selected in step 4, as [pandas] stores them (a null as a
    missing value, an integer among floats and missing values as a float),
    and a capture time, whatever the extractor replied for these keys; the
    rows stand in the order of the results. *)
Theorem rows_carry_their_candidate
    (env : Env) (final_results : list dict) (h : list event)
    (all_leads : list dict) :
  fst (scrape_and_extract env final_results [] h) = Ok all_leads ->
  exists kept,
    Subseq kept final_results /\
    Forall2
      (fun result row =>
         let cols := columns (to_frame all_leads) in
         let as_float col := float_column (column_values all_leads col) in
         cell cols row "search_title"
           = to_cell (as_float "search_title") (dict_lookup result "title") /\
         cell cols row "search_snippet"
           = to_cell (as_float "search_snippet")
               (Some (dict_get result "snippet" (VStr ""))) /\
         cell cols row "is_relevant"
           = to_cell (as_float "is_relevant")
               (Some (dict_get result "is_relevant" (VBool false))) /\
         cell cols row "relevance_confidence"
           = to_cell (as_float "relevance_confidence")
               (Some (dict_get result "relevance_confidence" (VFloat 0))) /\
         cell cols row "relevance_reason"
           = to_cell (as_float "relevance_reason")
               (Some (dict_get result "relevance_reason" (VStr ""))) /\
         exists scraped_at, cell cols row "scraped_at"
                            = Some (VStr scraped_at))
      kept (rows (to_frame all_leads)).
Proof.
  intros Hrun.
  destruct (scrape_and_extract_records env final_results h all_leads Hrun)
    as (kept & Hsub & Hrec).
  exists kept. split; [exact Hsub|].
  destruct all_leads as [|l ls].
  { inversion Hrec. constructor. }
  unfold to_frame, frame_of. cbn [rows columns].
  apply (rows_of_records env (l :: ls)); [|exact Hrec].
  intros col Hmeta.
  apply (metadata_columns env kept (l :: ls) col Hrec); [discriminate|].
  exact Hmeta.
Qed.

(** One hit of the provider, judged by default: its row holds its title. *)
Lemma rows_carry_their_candidate_witness :
  let candidate := fail_open (hit "Acme" "https://acme.example") in
  exists all_leads row,
    fst (scrape_and_extract unscored_env [candidate] [] []) = Ok all_leads /\
    rows (to_frame all_leads) = [row] /\
    cell (columns (to_frame all_leads)) row "search_title"
    = Some (VStr "Acme").
Proof.
  intros candidate.
  assert (Hrun : exists all_leads row,
            fst (scrape_and_extract unscored_env [candidate] [] [])
            = Ok all_leads /\
            rows (to_frame all_leads) = [row] /\
            float_column (column_values all_leads "search_title") = false)
    by (do 2 eexists; split; [reflexivity|split; reflexivity]).
  destruct Hrun as (all_leads & row & Hrun & Hrows & Hobject).
  exists all_leads, row. split; [exact Hrun|]. split; [exact Hrows|].
  destruct (rows_carry_their_candidate unscored_env [candidate] [] all_leads
              Hrun) as (kept & Hsub & Hcells).
  rewrite Hrows in Hcells.
  inversion Hcells as [|result row' kept' rows' Hone Hnone Hk Hr]. subst.
  inversion Hnone. subst.
  inversion Hsub as [|x xs ys Hsub' Hx Hy|y xs ys Hsub' Hx Hy]; subst.
  - destruct Hone as (Htitle & _). rewrite Htitle, Hobject. reflexivity.
  - inversion Hsub'.
Defined.

Lemma Subseq_In {A : Type} (xs ys : list A) (x : A) :
  Subseq xs ys -> In x xs -> In x ys.
Proof.
  induction 1 as [|y xs ys _ IH|y xs ys _ IH]; intros Hin.
  - contradiction.
  - destruct Hin as [->|Hin]; [now left|right; auto].
  - right. auto.
Qed.

Lemma Forall2_In_r {A B : Type} (R : A -> B -> Prop) (xs : list A)
    (ys : list B) (y : B) :
  Forall2 R xs ys -> In y ys -> exists x, In x xs /\ R x y.
Proof.
  induction 1 as [|x0 y0 xs ys Hxy _ IH]; intros Hin; [contradiction|].
  destruct Hin as [->|Hin].
  - exists x0. split; [now left|exact Hxy].
  - destruct (IH Hin) as (x & Hx & HR). exists x. split; [now right|exact HR].
Qed.

Lemma process_batch_ok (env : Env) (batch : list dict) (n : Z)
    (h : list event) (df : DataFrame) :
  fst (process_batch env batch n h) = Ok df ->
  df = empty_frame \/
  exists all_leads,
    fst (scrape_and_extract env (select_final batch n) [] h) = Ok all_leads /\
    df = to_frame all_leads.
Proof.
  unfold process_batch.
  destruct (select_final batch n) as [|c cs].
  - intros [= <-]. now left.
  - unfold bind.
    destruct (scrape_and_extract env (c :: cs) [] h) as [[leads|e] evs];
      cbn [fst ret]; [|discriminate].
    intros [= <-]. right. eauto.
Qed.

(** X9.  When the batch holds a result judged relevant, every row of the
    frame built from it stems from a relevant result: its [is_relevant]
    cell holds a value Python counts as true. *)
Theorem only_relevant_results_become_leads
    (env : Env) (batch : list dict) (num_results : Z) (h : list event)
    (df : DataFrame) :
  relevant batch <> [] ->
  fst (process_batch env batch num_results h) = Ok df ->
  forall row, In row (rows df) ->
    exists v, cell (columns df) row "is_relevant" = Some v /\ truthy v = true.
Proof.
  intros Hrel Hok row Hrow.
  destruct (process_batch_ok env batch num_results h df Hok)
    as [->|(all_leads & Hrun & ->)]; [contradiction|].
  destruct (scrape_and_extract_records env _ h all_leads Hrun)
    as (kept & Hsub & Hrec).
  destruct all_leads as [|l ls]; [contradiction|].
  assert (Hcols : forall col, In col metadata_fields ->
                              In col (available_columns (l :: ls))).
  { intros col Hmeta.
    apply (metadata_columns env kept (l :: ls) col Hrec); [discriminate|].
    exact Hmeta. }
  pose proof (rows_of_records env (l :: ls) _ kept (l :: ls) Hcols Hrec)
    as Hrows.
  unfold to_frame, frame_of in Hrow |- *. cbn [rows columns] in Hrow |- *.
  destruct (Forall2_In_r _ _ _ row Hrows Hrow)
    as (result & Hkept & _ & _ & Hcell & _).
  rewrite Hcell. apply to_cell_truthy.
  assert (Hin : In result (relevant batch)).
  { apply (Subseq_In (select_final batch num_results)).
    - unfold select_final.
      destruct (relevant batch) as [|r rs]; [contradiction|].
      apply Subseq_slice_to.
    - now apply (Subseq_In kept). }
  unfold relevant in Hin. apply filter_In in Hin as [_ Htrue]. exact Htrue.
Qed.

Lemma only_relevant_results_become_leads_witness :
  let batch := [fail_open (hit "Acme" "https://acme.example")] in
  exists df row v,
    fst (process_batch unscored_env batch 1 []) = Ok df /\
    In row (rows df) /\
    cell (columns df) row "is_relevant" = Some v /\ truthy v = true.
Proof.
  intros batch.
  assert (Hrun : exists df row,
            fst (process_batch unscored_env batch 1 []) = Ok df /\
            rows df = [row])
    by (do 2 eexists; split; reflexivity).
  destruct Hrun as (df & row & Hok & Hrows).
  assert (Hin : In row (rows df)) by (rewrite Hrows; now left).
  destruct (only_relevant_results_become_leads unscored_env batch 1 [] df
              ltac:(discriminate) Hok row Hin)
    as (v & Hcell & Htrue).
  exists df, row, v.
  split; [exact Hok|]. split; [exact Hin|].
  split; [exact Hcell|exact Htrue].
Defined.

Lemma available_columns_subseq (all_leads : list dict) :
  Subseq (available_columns all_leads) column_order.
Proof. apply Subseq_filter. Qed.

Lemma column_order_nodup : NoDup column_order.
Proof.
  unfold column_order.
  repeat (constructor; [cbn; intuition discriminate|]). constructor.
Qed.

(** X10.  The frame the controller returns is well formed: its columns are
    columns of the fixed order, in that order, none of them twice; each row
    has one cell per column; a frame with a row has the six metadata
    columns; and every row has its capture time, a string. *)
Theorem returned_frame_is_well_formed
    (env : Env) (cfg : Config) (search_query : string) (num_results : Z)
    (h : list event) (df : DataFrame) :
  fst (generate_leads_dataframe env cfg search_query num_results h) = Ok df ->
  Subseq (columns df) column_order /\
  NoDup (columns df) /\
  Forall (fun row => List.length row = List.length (columns df)) (rows df) /\
  (rows df <> [] ->
   forall col, In col metadata_fields -> In col (columns df)) /\
  (forall row, In row (rows df) ->
     exists scraped_at,
       cell (columns df) row "scraped_at" = Some (VStr scraped_at)).
Proof.
  intros Hok.
  assert (Hempty : df = empty_frame ->
            Subseq (columns df) column_order /\
            NoDup (columns df) /\
            Forall (fun row => List.length row = List.length (columns df))
                   (rows df) /\
            (rows df <> [] ->
             forall col, In col metadata_fields -> In col (columns df)) /\
            (forall row, In row (rows df) ->
               exists scraped_at,
                 cell (columns df) row "scraped_at" = Some (VStr scraped_at))).
  { intros ->. cbn. split; [apply Subseq_nil_l|]. split; [constructor|].
    split; [constructor|]. split; [intros Hne; contradiction|].
    intros row Hrow. contradiction. }
  destruct (generate_leads_dataframe_parts env cfg search_query num_results h)
    as (loop_evs & _ & [(_ & [Hout|Hout])|(batch & step5 & Hstep5 & _ & _
                                          & Hout)]);
    rewrite Hout in Hok.
  - injection Hok as <-. now apply Hempty.
  - discriminate.
  - destruct (fst step5) as [all_leads|e] eqn:Hrun; [|discriminate].
    injection Hok as <-. subst step5.
    destruct (scrape_and_extract_records env _ _ all_leads Hrun)
      as (kept & _ & Hrec).
    destruct all_leads as [|l ls]; [now apply Hempty|].
    assert (Hcols : forall col, In col metadata_fields ->
                                In col (available_columns (l :: ls))).
    { intros col Hmeta.
      apply (metadata_columns env kept (l :: ls) col Hrec); [discriminate|].
      exact Hmeta. }
    pose proof (rows_of_records env (l :: ls) _ kept (l :: ls) Hcols Hrec)
      as Hrows.
    unfold to_frame, frame_of. cbn [rows columns].
    split; [apply available_columns_subseq|].
    split; [apply NoDup_filter, column_order_nodup|].
    split; [|split].
    + apply Forall_forall. intros row Hrow.
      apply in_map_iff in Hrow as (lead & <- & _). apply length_map.
    + intros _. exact Hcols.
    + intros row Hrow.
      destruct (Forall2_In_r _ _ _ row Hrows Hrow)
        as (result & _ & _ & _ & _ & _ & _ & Htime).
      exact Htime.
Qed.

(** An extractor that answers with an e-mail address and a key the frame
    has no column for: seven columns, the e-mail address first. *)
Lemma returned_frame_is_well_formed_witness :
  exists df,
    fst (generate_leads_dataframe
           (extracting_env [("email", VStr "a@acme.example");
                            ("nickname", VStr "acme")])
           default_config "roofers" 1 []) = Ok df /\
    columns df = ["email"; "is_relevant"; "relevance_confidence";
                  "relevance_reason"; "search_title"; "search_snippet";
                  "scraped_at"] /\
    Subseq (columns df) column_order /\
    NoDup (columns df).
Proof.
  assert (Hok : exists df,
            fst (generate_leads_dataframe
                   (extracting_env [("email", VStr "a@acme.example");
                                    ("nickname", VStr "acme")])
                   default_config "roofers" 1 []) = Ok df /\
            columns df = ["email"; "is_relevant"; "relevance_confidence";
                          "relevance_reason"; "search_title";
                          "search_snippet"; "scraped_at"])
    by (eexists; split; vm_compute; reflexivity).
  destruct Hok as (df & Hok & Hcolumns).
  destruct (returned_frame_is_well_formed _ _ _ _ _ df Hok)
    as (Hcols & Hnodup & _).
  exists df. split; [exact Hok|]. split; [exact Hcolumns|].
  split; [exact Hcols|exact Hnodup].
Defined.

(* ================================================================== *)
(** ** More on the evaluation of relevance *)

(** A judged result is a result with a judgment or with the fail-open
    default. *)
Lemma evaluate_relevance_items (env : Env) (rs : list dict) (q : string)
    (h : list event) :
  Forall2 (fun result e => e = fail_open result \/
                           exists info, e = enhance result info)
          rs (fst (evaluate_relevance env rs q h)).
Proof.
  rewrite evaluate_relevance_eq. cbn [fst].
  destruct (try_evaluate _ rs) as [enhanced|e] eqn:Htry.
  - unfold try_evaluate in Htry.
    destruct (groq_relevance _ _ _ _) as [data|]; [|discriminate].
    apply enhance_from_shape in Htry.
    eapply Forall2_impl; [|exact Htry]. cbn. eauto.
  - clear Htry. induction rs as [|r rs IH]; cbn [map]; constructor; auto.
Qed.

Lemma judged_item_keys (result e : dict) :
  e = fail_open result \/ (exists info, e = enhance result info) ->
  (exists v, dict_lookup e "is_relevant" = Some v) /\
  (forall key, In key judgment_keys -> dict_has e key = true).
Proof.
  intros [->|[info ->]].
  - split; [rewrite fail_open_is_relevant; eauto|].
    intros key Hin. unfold fail_open.
    repeat (destruct Hin as [<-|Hin];
            [rewrite ?dict_has_set_other by discriminate;
             apply dict_has_set_same|]).
    contradiction.
  - split; [rewrite enhance_is_relevant; eauto|].
    intros key Hin. unfold enhance.
    destruct info as [[|b info]|];
      repeat (destruct Hin as [<-|Hin];
              [rewrite ?dict_has_set_other by discriminate;
               apply dict_has_set_same|]);
      contradiction.
Qed.

(** X11.  Whatever the scorer does, the evaluation returns one judged
    result per result, each with the three judgment keys set and with every
    other key of the result as the provider gave it. *)
Theorem judged_results_keep_their_keys
    (env : Env) (search_results : list dict) (query : string)
    (h : list event) :
  let batch := fst (evaluate_relevance env search_results query h) in
  List.length batch = List.length search_results /\
  Forall (fun e => forall key, In key judgment_keys -> dict_has e key = true)
         batch /\
  (forall key, ~ In key judgment_keys ->
     map (fun e => dict_lookup e key) batch
     = map (fun r => dict_lookup r key) search_results).
Proof.
  cbv zeta. split; [apply evaluate_relevance_length|]. split.
  - pose proof (evaluate_relevance_items env search_results query h) as Hitems.
    induction Hitems as [|r e rs es Hone _ IH]; constructor; [|exact IH].
    exact (proj2 (judged_item_keys r e Hone)).
  - intros key Hout. apply evaluate_relevance_keeps;
      intros ->; apply Hout; cbn; tauto.
Qed.

Lemma judged_results_keep_their_keys_witness :
  map (fun e => dict_lookup e "title")
      (fst (evaluate_relevance unscored_env
              [hit "Acme" "https://acme.example"] "roofers" []))
  = [Some (VStr "Acme")].
Proof.
  destruct (judged_results_keep_their_keys unscored_env
              [hit "Acme" "https://acme.example"] "roofers" [])
    as (_ & _ & Hkeep).
  rewrite (Hkeep "title"); [reflexivity|].
  intros [H|[H|[H|[]]]]; discriminate H.
Defined.

Lemma filter_split_length {A : Type} (p : A -> bool) (xs : list A) :
  (List.length (filter p xs)
   + List.length (filter (fun x => negb (p x)) xs))%nat
  = List.length xs.
Proof.
  induction xs as [|x xs IH]; [reflexivity|].
  cbn. destruct (p x); cbn; lia.
Qed.

(** X12.  The titles sent to the refiner are those of the judged results
    that are not relevant: with the relevant ones they account for the whole
    batch, one for one. *)
Theorem refiner_gets_the_irrelevant_titles
    (env : Env) (search_results : list dict) (query : string)
    (h : list event) :
  let batch := fst (evaluate_relevance env search_results query h) in
  failed_titles batch
  = map (fun r => dict_get r "title" (VStr ""))
        (filter (fun r => negb (truthy (dict_get r "is_relevant"
                                          (VBool false))))
                batch) /\
  (List.length (failed_titles batch) + List.length (relevant batch))%nat
  = List.length search_results.
Proof.
  cbv zeta.
  pose proof (evaluate_relevance_items env search_results query h) as Hitems.
  assert (Hfilter :
    filter (fun r => negb (truthy (dict_get r "is_relevant" (VBool true))))
           (fst (evaluate_relevance env search_results query h))
    = filter (fun r => negb (truthy (dict_get r "is_relevant" (VBool false))))
             (fst (evaluate_relevance env search_results query h))).
  { apply filter_ext_in. intros e Hin.
    destruct (Forall2_In_r _ _ _ e Hitems Hin) as (r & _ & Hone).
    destruct (judged_item_keys r e Hone) as [[v Hv] _].
    unfold dict_get. now rewrite Hv. }
  unfold failed_titles. rewrite Hfilter. split; [reflexivity|].
  rewrite length_map, <- (evaluate_relevance_length env search_results query h).
  unfold relevant. rewrite Nat.add_comm. apply filter_split_length.
Qed.

Lemma judged_by_position_nth (relevance_data : list value)
    (search_results : list dict) :
  forall i p result,
    nth_error search_results p = Some result ->
    nth_error (judged_by_position relevance_data i search_results) p
    = Some (enhance result (judgment_for relevance_data (i + Z.of_nat p))).
Proof.
  induction search_results as [|r rs IH]; intros i p result Hnth.
  - now destruct p.
  - destruct p as [|p]; cbn in Hnth |- *.
    + injection Hnth as ->. now rewrite Z.add_0_r.
    + rewrite (IH (i + 1) p result Hnth). do 3 f_equal. lia.
Qed.

(** X13.  When the scorer's reply is an array of objects and no result
    equals an earlier one, the result at position [p] gets the first
    judgment whose index is [p]; without such a judgment it comes out not
    relevant, with confidence 0.0. *)
Theorem unrepeated_results_are_judged_by_position
    (env : Env) (search_results : list dict) (query : string)
    (h : list event) (relevance_data : list value) :
  groq_relevance env h query (summarize 0 search_results)
    = Some relevance_data ->
  Forall is_dict relevance_data ->
  no_repeat search_results ->
  let batch := fst (evaluate_relevance env search_results query h) in
  forall p result,
    nth_error search_results p = Some result ->
    nth_error batch p
    = Some (enhance result (judgment_for relevance_data (Z.of_nat p))) /\
    (judgment_for relevance_data (Z.of_nat p) = None ->
     exists e, nth_error batch p = Some e /\
               dict_lookup e "is_relevant" = Some (VBool false) /\
               dict_lookup e "relevance_confidence" = Some (VFloat 0)).
Proof.
  intros Hdata Hdicts Hfresh batch p result Hnth. subst batch.
  rewrite (evaluate_by_position env search_results query h relevance_data
             Hdata Hdicts Hfresh).
  rewrite (judged_by_position_nth relevance_data search_results 0 p result
             Hnth).
  cbn [Z.add]. split; [reflexivity|].
  intros Hnone. rewrite Hnone. eexists. split; [reflexivity|].
  split; [apply enhance_is_relevant|apply enhance_confidence].
Qed.

Lemma two_hits_no_repeat : no_repeat two_hits.
Proof.
  intros p result Hnth.
  destruct p as [|[|[|p]]]; cbn in Hnth; try discriminate;
    injection Hnth as <-; reflexivity.
Qed.

Lemma unrepeated_results_are_judged_by_position_witness :
  let env := with_relevance silent_env (fun _ _ _ => Some second_only) in
  let batch := fst (evaluate_relevance env two_hits "roofers" []) in
  option_map (fun e => dict_lookup e "is_relevant") (nth_error batch 0)
    = Some (Some (VBool false)) /\
  option_map (fun e => dict_lookup e "is_relevant") (nth_error batch 1)
    = Some (Some (VBool true)).
Proof.
  intros env batch.
  assert (Hat : forall p result,
            nth_error two_hits p = Some result ->
            nth_error batch p
            = Some (enhance result (judgment_for second_only (Z.of_nat p)))).
  { intros p result Hnth.
    apply (unrepeated_results_are_judged_by_position env two_hits "roofers"
             [] second_only); auto.
    - repeat constructor.
    - exact two_hits_no_repeat. }
  rewrite (Hat 0%nat _ eq_refl), (Hat 1%nat _ eq_refl). split; reflexivity.
Defined.

(* ================================================================== *)
(** ** What the search API is asked *)

Lemma scrape_and_extract_search (env : Env)
    (search : list event -> string -> Z -> option (list dict))
    (cands : list dict) :
  forall acc h,
    scrape_and_extract (with_search env search) cands acc h
    = scrape_and_extract env cands acc h.
Proof.
  induction cands as [|result rest IH]; intros acc h; [reflexivity|].
  destruct (dict_lookup result "title") as [title|] eqn:Ht.
  2:{ now rewrite !scrape_and_extract_no_title by assumption. }
  destruct (dict_lookup result "link") as [link|] eqn:Hl.
  2:{ now rewrite !(scrape_and_extract_no_link _ result rest acc h title)
        by assumption. }
  rewrite !(scrape_and_extract_cons _ result rest acc h title link Ht Hl).
  change (fetched (with_search env search) h link) with (fetched env h link).
  destruct (fetched env h link) as [content|]; cbv zeta.
  - change (lead_record (with_search env search) h result title link content)
      with (lead_record env h result title link content).
    destruct (lead_record env h result title link content) as [lead|e];
      [now rewrite IH|reflexivity].
  - now rewrite IH.
Qed.

Lemma relevance_loop_search (env : Env)
    (search : list event -> string -> Z -> option (list dict))
    (cfg : Config) (sq : string) (n : Z) (k : nat) :
  (forall h q, search h q (4 * n) = serper_post env h q (4 * n)) ->
  forall q last h,
    relevance_loop (with_search env search) cfg sq n k q last h
    = relevance_loop env cfg sq n k q last h.
Proof.
  intros Hsame. induction k as [|k IH]; intros q last h; [reflexivity|].
  rewrite !relevance_loop_S. cbv zeta.
  rewrite !search_companies_payload.
  change (serper_post (with_search env search)) with search.
  rewrite Hsame.
  change (evaluate_relevance (with_search env search))
    with (evaluate_relevance env).
  change (refine_search_query (with_search env search))
    with (refine_search_query env).
  now rewrite IH.
Qed.

(** X14.  The search API is only ever asked for four times the target
    count: the controller passes twice the target to [search_companies],
    which doubles it for the payload.  A run is therefore the same against
    any two search services that agree on the requests for that count. *)
Theorem search_api_is_asked_four_times_the_target
    (env : Env) (search : list event -> string -> Z -> option (list dict))
    (cfg : Config) (search_query : string) (num_results : Z)
    (h : list event) :
  (forall h' query,
     search h' query (4 * num_results)
     = serper_post env h' query (4 * num_results)) ->
  generate_leads_dataframe (with_search env search) cfg search_query
    num_results h
  = generate_leads_dataframe env cfg search_query num_results h.
Proof.
  intros Hsame. rewrite !generate_leads_dataframe_eq. cbv zeta.
  rewrite (relevance_loop_search env search cfg search_query num_results
             _ Hsame).
  destruct (relevance_loop env cfg search_query num_results _ _ _ h)
    as [[|batch|] evs]; cbn [fst snd]; try reflexivity.
  unfold process_batch.
  destruct (select_final batch num_results) as [|c cs]; [reflexivity|].
  unfold bind. now rewrite scrape_and_extract_search.
Qed.

Lemma search_api_is_asked_four_times_the_target_witness :
  generate_leads
    (with_search stubborn_env
       (fun h query num => if num =? 12 then serper_post stubborn_env h query num
                           else None))
    "roofers" 3 []
  = generate_leads stubborn_env "roofers" 3 [].
Proof.
  apply (search_api_is_asked_four_times_the_target stubborn_env
           (fun h query num => if num =? 12
                               then serper_post stubborn_env h query num
                               else None)
           default_config "roofers" 3 []).
  intros h' query. reflexivity.
Defined.

(* ================================================================== *)
(** ** Lengths of texts *)

Lemma length_substring_0 (n : nat) :
  forall s, String.length (substring 0 n s) = Nat.min n (String.length s).
Proof.
  induction n as [|n IH]; intros s.
  - now destruct s.
  - destruct s as [|c s]; [reflexivity|]. cbn. now rewrite IH.
Qed.

Lemma substring_0_all (n : nat) :
  forall s, (String.length s <= n)%nat -> substring 0 n s = s.
Proof.
  induction n as [|n IH]; intros s Hlen.
  - destruct s; [reflexivity|]. cbn in Hlen. lia.
  - destruct s as [|c s]; [reflexivity|]. cbn in Hlen |- *.
    rewrite IH by lia. reflexivity.
Qed.

Lemma length_append (s t : string) :
  String.length (s ++ t)%string = (String.length s + String.length t)%nat.
Proof. induction s as [|c s IH]; cbn; [reflexivity|now rewrite IH]. Qed.

(** X15.  The text handed to the extractor is never longer than 8000
    characters, and a page whose cleaned text fits in 8000 characters is
    handed over whole. *)
#[warnings="-abstract-large-number"]
Theorem cleaned_text_is_cut_at_8000 (env : Env) (html_content : string) :
  let text := squeeze_whitespace env (soup_get_text env html_content) in
  (String.length (clean_html_content env html_content) <= 8000)%nat /\
  ((String.length text <= 8000)%nat ->
   clean_html_content env html_content = text).
Proof.
  cbv zeta. unfold clean_html_content. split.
  - rewrite length_substring_0. apply Nat.le_min_l.
  - apply substring_0_all.
Qed.

Lemma cleaned_text_is_cut_at_8000_witness :
  clean_html_content unscored_env "<html>Acme</html>"
  = squeeze_whitespace unscored_env
      (soup_get_text unscored_env "<html>Acme</html>").
Proof.
  destruct (cleaned_text_is_cut_at_8000 unscored_env "<html>Acme</html>")
    as (_ & Hwhole).
  apply Hwhole. apply Nat.leb_le. vm_compute. reflexivity.
Defined.

(** X16.  The description of a fallback record is the page text itself when
    it has at most 200 characters, and otherwise its first 200 characters
    followed by three dots: 203 characters in all. *)
Theorem fallback_description_is_cut_at_200
    (env : Env) (website_url : value) (content : string) (lead_data : dict) :
  _create_fallback_lead_data env website_url content = Ok lead_data ->
  exists description,
    dict_lookup lead_data "description" = Some (VStr description) /\
    ((String.length content <= 200)%nat -> description = content) /\
    ((200 < String.length content)%nat ->
     description = (substring 0 200 content ++ "...")%string /\
     String.length description = 203%nat) /\
    (String.length description <= 203)%nat.
Proof.
  rewrite fallback_eq.
  destruct (company_name env website_url) as [name|e]; [|discriminate].
  intros [= <-].
  eexists. split; [reflexivity|].
  destruct (Nat.ltb_spec 200 (String.length content)) as [Hlong|Hshort].
  - assert (Hlen : String.length (substring 0 200 content ++ "...")%string
                   = 203%nat).
    { rewrite length_append, length_substring_0.
      rewrite Nat.min_l by lia. reflexivity. }
    repeat split; try lia; auto.
  - repeat split; try lia; auto.
Qed.

Lemma fallback_description_is_cut_at_200_witness :
  exists lead_data,
    _create_fallback_lead_data unscored_env (VStr "https://acme.example")
      "Acme roofing" = Ok lead_data /\
    dict_lookup lead_data "description" = Some (VStr "Acme roofing").
Proof.
  assert (Hok : exists lead_data,
            _create_fallback_lead_data unscored_env
              (VStr "https://acme.example") "Acme roofing" = Ok lead_data)
    by (eexists; reflexivity).
  destruct Hok as [lead_data Hok].
  destruct (fallback_description_is_cut_at_200 unscored_env
              (VStr "https://acme.example") "Acme roofing" lead_data Hok)
    as (description & Hset & Hshort & _).
  exists lead_data. split; [exact Hok|].
  rewrite Hset, Hshort; [reflexivity|].
  apply Nat.leb_le. vm_compute. reflexivity.
Defined.

(* ================================================================== *)
(** ** The relevance rate *)

Lemma relevant_length (batch : list dict) :
  (List.length (relevant batch) <= List.length batch)%nat.
Proof. unfold relevant. apply filter_length_le. Qed.

(** X17.  The relevance rate is a fraction between 0 and 1, 0 for an empty
    batch.  So a threshold of 0 or less accepts every batch, and a
    threshold above 1 accepts none. *)
Theorem relevance_rate_is_a_fraction (batch : list dict) :
  (0 <= relevance_rate batch)%Q /\
  (relevance_rate batch <= 1)%Q /\
  (forall cfg, (relevance_threshold cfg <= 0)%Q ->
               sufficient cfg batch = true) /\
  (forall cfg, (1 < relevance_threshold cfg)%Q ->
               sufficient cfg batch = false).
Proof.
  assert (Hlow : (0 <= relevance_rate batch)%Q).
  { unfold relevance_rate. destruct batch; [apply Qle_refl|].
    unfold Qle. cbn [Qnum Qden]. lia. }
  assert (Hhigh : (relevance_rate batch <= 1)%Q).
  { unfold relevance_rate. destruct batch as [|r batch]; [discriminate|].
    unfold Qle. cbn [Qnum Qden]. rewrite Z.mul_1_l, Z.mul_1_r.
    pose proof (relevant_length (r :: batch)) as Hle.
    set (len := List.length (r :: batch)) in *.
    assert (Hlen : len <> O) by discriminate.
    rewrite <- (positive_nat_Z (Pos.of_nat len)).
    rewrite Nat2Pos.id by exact Hlen. lia. }
  split; [exact Hlow|]. split; [exact Hhigh|]. split.
  - intros cfg Hthr. unfold sufficient. apply Qle_bool_iff.
    eapply Qle_trans; eassumption.
  - intros cfg Hthr. unfold sufficient.
    destruct (Qle_bool _ _) eqn:Hle; [|reflexivity].
    apply Qle_bool_iff in Hle. exfalso.
    apply (Qlt_irrefl 1). eapply Qlt_le_trans; [exact Hthr|].
    eapply Qle_trans; eassumption.
Qed.

Lemma relevance_rate_is_a_fraction_witness :
  sufficient {| max_retries := 3; relevance_threshold := 0 |}
    [hit "Acme" "https://acme.example"] = true.
Proof.
  destruct (relevance_rate_is_a_fraction [hit "Acme" "https://acme.example"])
    as (_ & _ & Hall & _).
  apply Hall. cbn. apply Qle_refl.
Defined.

(* ================================================================== *)
(** ** The front end *)

Lemma has_column_in (df : DataFrame) (col : string) :
  has_column df col = true <-> In col (columns df).
Proof.
  unfold has_column. rewrite existsb_exists. split.
  - intros (c & Hin & Heq). apply String.eqb_eq in Heq. now subst.
  - intros Hin. exists col. split; [exact Hin|apply String.eqb_refl].
Qed.

(** A frame [generate_leads] hands to its caller has no row or has the
    [is_relevant] column. *)
Lemma generate_leads_outcome (env : Env) (query : string) (n : Z)
    (h : list event) (df : DataFrame) :
  fst (generate_leads env query n h) = Ok df ->
  rows df = [] \/ has_column df "is_relevant" = true.
Proof.
  unfold generate_leads. intros Hok.
  destruct (generate_leads_dataframe_parts env default_config query n h)
    as (loop_evs & _ & [(_ & [Hout|Hout])|(batch & step5 & Hstep5 & _ & _
                                          & Hout)]);
    rewrite Hout in Hok.
  - injection Hok as <-. now left.
  - discriminate.
  - destruct (fst step5) as [all_leads|e] eqn:Hrun; [|discriminate].
    injection Hok as <-. subst step5.
    destruct (scrape_and_extract_records env _ _ all_leads Hrun)
      as (kept & _ & Hrec).
    destruct all_leads as [|l ls]; [now left|]. right.
    apply has_column_in. unfold to_frame, frame_of. cbn [columns].
    apply (metadata_columns env kept (l :: ls) "is_relevant" Hrec);
      [discriminate|cbn; tauto].
Qed.

Lemma search_execution_eq (env : Env) (s : Session) (search_button : bool)
    (search_query : string) (num_results : Z) (h : list event) :
  search_execution env s search_button search_query num_results h =
  if search_button && negb (search_query =? "")%string
     && negb (is_generating s)
  then
    let history :=
      search_history s ++
      [{| entry_query := search_query;
          entry_timestamp := datetime_now env h;
          entry_num_results := num_results |}] in
    let run := generate_leads env search_query num_results h in
    (match fst run with
     | Ok df =>
         ({| leads_df := df; search_history := history;
             is_generating := false |},
          [if frame_empty df then Warning
           else Success (List.length (rows df))])
     | Raise e =>
         ({| leads_df := leads_df s; search_history := history;
             is_generating := false |},
          [Error e; Info])
     end, snd run)
  else ((s, []), []).
Proof.
  unfold search_execution.
  destruct (search_button && negb (search_query =? "")%string);
    [|reflexivity].
  destruct (negb (is_generating s)); [|reflexivity].
  cbn [andb]. unfold bind, ask, ret. rewrite app_nil_r. cbn [app].
  destruct (generate_leads env search_query num_results h) as [out evs].
  cbn [fst snd]. now rewrite app_nil_r.
Qed.

Lemma rows_where_length (df : DataFrame) (col : string) (v : value) :
  (List.length (rows (rows_where df col v)) <= List.length (rows df))%nat.
Proof. unfold rows_where. cbn [rows]. apply filter_length_le. Qed.

(** X18.  In every session a user can reach, no generation is marked as
    under way between two runs of the script, and the quick stats compute
    without raising: the frame on display is empty or has the
    [is_relevant] column, and the relevant leads are no more than the
    total. *)
Theorem quick_stats_never_raise (env : Env) (s : Session) :
  reachable env s ->
  is_generating s = false /\
  exists total_leads relevant_leads,
    quick_stats (leads_df s) = Ok (total_leads, relevant_leads) /\
    total_leads = List.length (rows (leads_df s)) /\
    (relevant_leads <= total_leads)%nat.
Proof.
  intros Hreach.
  assert (Hinv : is_generating s = false /\
                 (frame_empty (leads_df s) = true \/
                  has_column (leads_df s) "is_relevant" = true)).
  { induction Hreach as [|s b q n h _ [Hidle Hframe]].
    - split; [reflexivity|now left].
    - rewrite search_execution_eq.
      destruct (b && negb (q =? "")%string && negb (is_generating s));
        [|now split].
      cbv zeta. cbn [fst].
      pose proof (generate_leads_outcome env q n h) as Hdf.
      destruct (fst (generate_leads env q n h)) as [df|e];
        cbn [fst leads_df is_generating]; split; auto.
      destruct (Hdf df eq_refl) as [Hrows|Hcol]; [left|now right].
      unfold frame_empty. now rewrite Hrows. }
  destruct Hinv as [Hidle Hframe]. split; [exact Hidle|].
  unfold quick_stats.
  destruct (frame_empty (leads_df s)) eqn:Hempty.
  - do 2 eexists. split; [reflexivity|]. split; [reflexivity|lia].
  - destruct Hframe as [Hframe|Hframe]; [discriminate|]. rewrite Hframe.
    do 2 eexists. split; [reflexivity|]. split; [reflexivity|].
    apply rows_where_length.
Qed.

Lemma quick_stats_never_raise_witness :
  quick_stats
    (leads_df (fst (fst (search_execution unscored_env new_session true
                           "roofers" 2 []))))
  = Ok (2%nat, 2%nat).
Proof.
  destruct (quick_stats_never_raise unscored_env
              (fst (fst (search_execution unscored_env new_session true
                           "roofers" 2 []))))
    as (_ & total & relevant & Hstats & _).
  - apply reachable_run, reachable_new.
  - rewrite Hstats. vm_compute in Hstats. now injection Hstats as <- <-.
Defined.

(** X19.  A run of the search block.  Without the button, with an empty
    query or with a generation under way it changes nothing and calls
    nothing.  Otherwise its calls are those of the generation, it logs the
    query and the target count once, at the end of the history, and it
    leaves no generation marked as under way; the frame the generation
    returned is put on display, with a warning when it is empty and the
    number of its rows otherwise, while a generation that raised leaves the
    frame on display as it was. *)
Theorem search_block_outcomes
    (env : Env) (s : Session) (search_button : bool) (search_query : string)
    (num_results : Z) (h : list event) :
  let run := search_execution env s search_button search_query
               num_results h in
  let s' := fst (fst run) in
  let notices := snd (fst run) in
  (search_button = false \/ search_query = "" \/ is_generating s = true ->
   run = ((s, []), [])) /\
  (search_button = true -> search_query <> "" -> is_generating s = false ->
   snd run = snd (generate_leads env search_query num_results h) /\
   is_generating s' = false /\
   search_history s'
   = search_history s ++
     [{| entry_query := search_query;
         entry_timestamp := datetime_now env h;
         entry_num_results := num_results |}] /\
   (forall df,
      fst (generate_leads env search_query num_results h) = Ok df ->
      leads_df s' = df /\
      (rows df = [] -> notices = [Warning]) /\
      (rows df <> [] -> notices = [Success (List.length (rows df))])) /\
   (forall e,
      fst (generate_leads env search_query num_results h) = Raise e ->
      leads_df s' = leads_df s /\ notices = [Error e; Info])).
Proof.
  cbv zeta. rewrite search_execution_eq. split.
  - intros [-> | [-> | ->]]; cbn [andb negb];
      rewrite ?andb_false_r; reflexivity.
  - intros -> Hq ->.
    destruct (String.eqb_spec search_query "") as [|_]; [contradiction|].
    cbn [andb negb]. cbv zeta.
    pose proof (generate_leads_outcome env search_query num_results h) as Hdf.
    destruct (fst (generate_leads env search_query num_results h))
      as [df|e]; cbn [fst snd leads_df is_generating search_history].
    + split; [reflexivity|]. split; [reflexivity|]. split; [reflexivity|].
      split; [|discriminate].
      intros df' [= <-]. split; [reflexivity|].
      unfold frame_empty. split.
      * intros ->. reflexivity.
      * intros Hrows.
        destruct (Hdf df eq_refl) as [Hnone|Hcol]; [contradiction|].
        apply has_column_in in Hcol.
        destruct (rows df) as [|r rs]; [contradiction|].
        destruct (columns df) as [|c cs]; [contradiction|reflexivity].
    + split; [reflexivity|]. split; [reflexivity|]. split; [reflexivity|].
      split; [discriminate|].
      intros e' [= <-]. split; reflexivity.
Qed.

Lemma search_block_outcomes_witness :
  search_history
    (fst (fst (search_execution unscored_env new_session true "roofers" 2 [])))
  = [{| entry_query := "roofers";
        entry_timestamp := "2024-05-01T10:00:00";
        entry_num_results := 2 |}].
Proof.
  destruct (search_block_outcomes unscored_env new_session true "roofers" 2 [])
    as (_ & Hrun).
  destruct Hrun as (_ & _ & Hhistory & _).
  - reflexivity.
  - discriminate.
  - reflexivity.
  - exact Hhistory.
Defined.

Lemma last_items_app_one {A : Type} (n : nat) (xs : list A) (x : A) :
  last_items (S n) (xs ++ [x]) = last_items n xs ++ [x].
Proof.
  unfold last_items. rewrite length_app. cbn [List.length].
  replace (List.length xs + 1 - S n)%nat with (List.length xs - n)%nat by lia.
  rewrite skipn_app.
  replace (List.length xs - n - List.length xs)%nat with O by lia.
  reflexivity.
Qed.

Lemma last_items_length {A : Type} (n : nat) (xs : list A) :
  List.length (last_items n xs) = Nat.min n (List.length xs).
Proof. unfold last_items. rewrite length_skipn. lia. Qed.

Lemma last_items_nested {A : Type} (m n : nat) (xs : list A) :
  (m <= n)%nat -> last_items m (last_items n xs) = last_items m xs.
Proof.
  intros Hle. unfold last_items. rewrite length_skipn, skipn_skipn.
  f_equal. lia.
Qed.

(** X20.  The sidebar lists the last five searches at most, the latest
    first: a new search goes on top of the list and keeps the four that
    were on top before it. *)
Theorem sidebar_lists_the_latest_searches
    (history : list SearchEntry) (entry : SearchEntry) :
  (List.length (history_shown history) <= 5)%nat /\
  history_shown (history ++ [entry])
  = entry :: firstn 4 (history_shown history) /\
  ((List.length history <= 5)%nat -> history_shown history = rev history).
Proof.
  unfold history_shown. split; [|split].
  - rewrite length_rev, last_items_length. lia.
  - rewrite (last_items_app_one 4 history entry), rev_app_distr. cbn [rev app].
    f_equal. rewrite firstn_rev. f_equal.
    rewrite <- (last_items_nested 4 5 history) by lia.
    reflexivity.
  - intros Hlen. unfold last_items.
    now replace (List.length history - 5)%nat with O by lia.
Qed.

Lemma sidebar_lists_the_latest_searches_witness :
  let first := {| entry_query := "roofers";
                  entry_timestamp := "2024-05-01T10:00:00";
                  entry_num_results := 2 |} in
  let second := {| entry_query := "plumbers";
                   entry_timestamp := "2024-05-01T10:05:00";
                   entry_num_results := 5 |} in
  history_shown [first; second] = [second; first].
Proof.
  intros first second.
  destruct (sidebar_lists_the_latest_searches [first; second] first)
    as (_ & _ & Hshort).
  rewrite Hshort; [reflexivity|]. cbn. lia.
Defined.

Lemma eq_true_is_truthy (v : value) :
  value_eqb v (VBool true) = true -> truthy v = true.
Proof.
  destruct v as [|b|n|q|s|l|d]; cbn; try discriminate.
  - destruct b; [reflexivity|discriminate].
  - intros H. apply Qeq_bool_iff in H. unfold Qeq in H. cbn in H.
    destruct (Z.eqb_spec n 0); [lia|reflexivity].
  - intros H. apply Qeq_bool_iff in H.
    destruct (Qeq_bool q 0) eqn:H0; [|reflexivity].
    apply Qeq_bool_iff in H0. rewrite H0 in H. discriminate.
Qed.

Lemma rows_where_cells (df : DataFrame) (col : string) (v : value)
    (row : list (option value)) :
  In row (rows (rows_where df col v)) ->
  In row (rows df) /\
  exists x, cell (columns df) row col = Some x /\ value_eqb x v = true.
Proof.
  unfold rows_where. cbn [rows]. intros Hin.
  apply filter_In in Hin as [Hrow Hcell]. split; [exact Hrow|].
  destruct (cell (columns df) row col) as [x|]; [eauto|discriminate].
Qed.

(** X21.  The filters above the table keep the columns and the order of
    the rows and only leave rows out.  With "relevant only" ticked on a
    frame that has the column, every row shown has [is_relevant] equal to
    [True], hence a value the controller too counts as relevant; with an
    industry chosen on a frame that has the column, every row shown is of
    that industry. *)
Theorem filters_only_leave_rows_out
    (df : DataFrame) (show_relevant_only : bool) (industry_filter : string) :
  let shown := apply_filters df show_relevant_only industry_filter in
  columns shown = columns df /\
  Subseq (rows shown) (rows df) /\
  (show_relevant_only = true -> has_column df "is_relevant" = true ->
   forall row, In row (rows shown) ->
     exists v, cell (columns df) row "is_relevant" = Some v /\
               value_eqb v (VBool true) = true /\ truthy v = true) /\
  (industry_filter <> "All" -> has_column df "industry" = true ->
   forall row, In row (rows shown) ->
     exists v, cell (columns df) row "industry" = Some v /\
               value_eqb v (VStr industry_filter) = true).
Proof.
  cbv zeta. unfold apply_filters.
  set (relevant_df := if show_relevant_only && has_column df "is_relevant"
                      then rows_where df "is_relevant" (VBool true) else df).
  assert (Hcols : columns relevant_df = columns df).
  { subst relevant_df. now destruct (_ && _). }
  assert (Hsub : Subseq (rows relevant_df) (rows df)).
  { subst relevant_df. destruct (_ && _);
      [apply Subseq_filter|apply Subseq_refl]. }
  assert (Hhas : has_column relevant_df "industry" = has_column df "industry").
  { unfold has_column. now rewrite Hcols. }
  rewrite Hhas.
  set (shown := if negb (industry_filter =? "All")%string
                   && has_column df "industry"
                then rows_where relevant_df "industry" (VStr industry_filter)
                else relevant_df).
  assert (Hshown : Subseq (rows shown) (rows relevant_df)).
  { subst shown.
    destruct (negb (industry_filter =? "All")%string
              && has_column df "industry");
      [apply Subseq_filter|apply Subseq_refl]. }
  split; [|split; [|split]].
  - subst shown.
    destruct (negb (industry_filter =? "All")%string
              && has_column df "industry"); exact Hcols.
  - eapply Subseq_trans; eassumption.
  - intros -> Hcol row Hrow.
    apply (Subseq_In _ _ row Hshown) in Hrow.
    subst relevant_df. rewrite Hcol in Hrow. cbn [andb] in Hrow.
    apply rows_where_cells in Hrow as (_ & v & Hcell & Heq).
    exists v. split; [exact Hcell|]. split; [exact Heq|].
    now apply eq_true_is_truthy.
  - intros Hne Hcol row Hrow. subst shown. rewrite Hcol in Hrow.
    destruct (String.eqb_spec industry_filter "All") as [|_];
      [contradiction|].
    cbn [andb negb] in Hrow.
    apply rows_where_cells in Hrow as (_ & v & Hcell & Heq).
    rewrite Hcols in Hcell. eauto.
Qed.

Lemma filters_only_leave_rows_out_witness :
  let df := {| columns := ["industry"; "is_relevant"];
               rows := [[Some (VStr "Roofing"); Some (VBool true)];
                        [Some (VStr "Plumbing"); Some (VBool false)]] |} in
  let row := [Some (VStr "Roofing"); Some (VBool true)] in
  In row (rows (apply_filters df true "Roofing")) /\
  (exists v, cell (columns df) row "is_relevant" = Some v /\
             truthy v = true) /\
  (exists v, cell (columns df) row "industry" = Some v /\
             value_eqb v (VStr "Roofing") = true).
Proof.
  intros df row.
  assert (Hin : In row (rows (apply_filters df true "Roofing")))
    by (vm_compute; left; reflexivity).
  destruct (filters_only_leave_rows_out df true "Roofing")
    as (_ & _ & Hrelevant & Hindustry).
  destruct (Hrelevant eq_refl eq_refl row Hin) as (v & Hv & _ & Htrue).
  destruct (Hindustry ltac:(discriminate) eq_refl row Hin) as (w & Hw & Heq).
  split; [exact Hin|]. split.
  - exists v. split; [exact Hv|exact Htrue].
  - exists w. split; [exact Hw|exact Heq].
Defined.

(* ================================================================== *)
(** ** Accounts of a run *)

Lemma attempts_accounts (env : Env) (cfg : Config) (sq : string) (n : Z)
    (k : nat) (q : string) (h : list event) (last exit : loop_exit)
    (evs : list event) :
  attempts env cfg sq n k q h last exit evs ->
  k <> O ->
  calls is_search evs = S (calls is_refine evs) /\
  (calls is_refine evs <= calls is_judge evs)%nat /\
  (calls is_judge evs <= calls is_search evs)%nat /\
  (exit = NoResults <-> calls is_judge evs <> calls is_search evs).
Proof.
  induction 1 as [q h last|k q h last Hrs|k q h last rs ev _ _ _ _
                  |q h last rs ev _ _ _ _
                  |k q h last rs ev q' exit evs _ _ _ _ _ _ IH];
    intros Hk.
  - contradiction.
  - unfold calls. cbn. repeat split; try lia; auto.
  - unfold calls. cbn. repeat split; try lia; try discriminate.
  - unfold calls. cbn. repeat split; try lia; try discriminate.
  - destruct (IH ltac:(discriminate)) as (Hs & Hr & Hj & Hexit).
    rewrite !calls_cons. cbn [is_search is_judge is_refine].
    repeat split; try lia.
    + intros Hdead. apply Hexit in Hdead. lia.
    + intros Hne. apply Hexit. lia.
Qed.

(** X22.  The accounts of the loop, for a tool with at least one attempt:
    every search but the first follows a refinement, so that there is one
    search more than there are refinements; every refinement follows an
    evaluation and every evaluation a search; and the evaluations fall one
    short of the searches exactly when the last search found nothing. *)
Theorem loop_accounts
    (env : Env) (cfg : Config) (search_query : string) (num_results : Z)
    (h : list event) :
  1 <= max_retries cfg ->
  let run := generate_leads_dataframe env cfg search_query num_results h in
  calls is_search (snd run) = S (calls is_refine (snd run)) /\
  (calls is_refine (snd run) <= calls is_judge (snd run))%nat /\
  (calls is_judge (snd run) <= calls is_search (snd run))%nat /\
  (calls is_judge (snd run) <> calls is_search (snd run) ->
   run = (Ok empty_frame, snd run) /\ calls is_scrape (snd run) = O).
Proof.
  intros Hmax run. subst run.
  destruct (generate_leads_dataframe_calls env cfg search_query num_results h)
    as (exit & loop_evs & step5_evs & Hloop & Hevs & Hstep5 & Hbatch).
  pose proof (relevance_loop_attempts env cfg search_query num_results
                (Z.to_nat (max_retries cfg)) search_query NeverRan h) as Hrun.
  rewrite Hloop in Hrun. cbn [fst snd] in Hrun.
  destruct (attempts_accounts _ _ _ _ _ _ _ _ _ _ Hrun ltac:(lia))
    as (Hs & Hr & Hj & Hexit).
  rewrite Hevs, !calls_app.
  rewrite (step5_calls is_search step5_evs),
          (step5_calls is_judge step5_evs),
          (step5_calls is_refine step5_evs); try assumption;
    try (intros []; cbn; congruence).
  rewrite !Nat.add_0_r. repeat split; try lia.
  - assert (Hdead : exit = NoResults) by (apply Hexit; exact H).
    rewrite generate_leads_dataframe_eq in *. cbv zeta in *.
    rewrite Hloop in *. subst exit. cbn [fst snd] in *.
    rewrite <- Hevs. reflexivity.
  - assert (Hdead : exit = NoResults) by (apply Hexit; exact H).
    destruct step5_evs as [|e evs].
    + rewrite (loop_calls_none is_scrape loop_evs).
      * reflexivity.
      * intros []; cbn; congruence.
      * now apply attempts_bounds in Hrun.
    + destruct Hbatch as [batch Hb]; [discriminate|congruence].
Qed.

Lemma loop_accounts_witness :
  calls is_search (snd (generate_leads drying_env "plumbers" 5 [])) = 2%nat /\
  calls is_judge (snd (generate_leads drying_env "plumbers" 5 [])) = 1%nat /\
  calls is_refine (snd (generate_leads drying_env "plumbers" 5 [])) = 1%nat.
Proof.
  destruct (loop_accounts drying_env default_config "plumbers" 5 [])
    as (Hs & _ & _ & _).
  - cbn. lia.
  - unfold generate_leads. rewrite Hs. repeat split.
Defined.

(* ================================================================== *)
(** ** What the extractor is given *)

Lemma fetched_text (env : Env) (h : list event) (url : value)
    (content : string) :
  fetched env h url = Some content ->
  content <> "" /\
  exists html,
    chrome_page_source env h url = Some html /\
    content = clean_html_content env html.
Proof.
  unfold fetched. rewrite scrape_website_eq. cbn [fst].
  destruct (chrome_page_source env h url) as [html|]; [|discriminate].
  cbn. destruct (String.eqb_spec (clean_html_content env html) "")
    as [|Hne]; [discriminate|].
  intros [= <-]. split; [exact Hne|]. eauto.
Qed.

Lemma scrape_and_extract_extractions (env : Env) (cands : list dict) :
  forall acc h pre content url post,
    snd (scrape_and_extract env cands acc h)
      = pre ++ EvExtract content url :: post ->
    exists before,
      pre = before ++ [EvScrape url] /\
      fetched env (h ++ before) url = Some content /\
      ((exists after, post = EvSleep 2 :: after) \/
       (post = [] /\
        exists e,
          fst (scrape_and_extract env cands acc h) = Raise e /\
          company_name env url = Raise e)).
Proof.
  induction cands as [|result rest IH]; intros acc h pre content url post Hevs.
  - now destruct pre.
  - destruct (dict_lookup result "title") as [title|] eqn:Ht.
    2:{ rewrite scrape_and_extract_no_title in Hevs by assumption.
        now destruct pre. }
    destruct (dict_lookup result "link") as [link|] eqn:Hl.
    2:{ rewrite (scrape_and_extract_no_link env result rest acc h title)
          in Hevs by assumption. now destruct pre. }
    destruct (scrape_and_extract_case env result rest acc h title link Ht Hl)
      as [content0 lead Hfetch _ Heq|content0 e Hfetch Hraise Heq|_ Heq];
      rewrite Heq in Hevs |- *; cbn [fst snd] in Hevs |- *.
    + destruct pre as [|e1 pre]; [discriminate|].
      injection Hevs as <- Hevs.
      destruct pre as [|e2 pre].
      * injection Hevs as <- <- <-.
        exists []. rewrite app_nil_r. split; [reflexivity|].
        split; [exact Hfetch|]. left. eauto.
      * injection Hevs as <- Hevs.
        destruct pre as [|e3 pre]; [discriminate|].
        injection Hevs as <- Hevs.
        destruct (IH _ _ _ _ _ _ Hevs) as (before & -> & Hf & Hpost).
        exists (EvScrape link :: EvExtract content0 link :: EvSleep 2
                :: before).
        rewrite <- app_assoc in Hf. auto.
    + destruct pre as [|e1 pre]; [discriminate|].
      injection Hevs as <- Hevs.
      destruct pre as [|e2 pre].
      * injection Hevs as <- <- <-.
        exists []. rewrite app_nil_r. split; [reflexivity|].
        split; [exact Hfetch|]. right. split; [reflexivity|].
        exists e. split; [reflexivity|].
        now apply (lead_record_raises env h result title link content0 e).
      * injection Hevs as <- Hevs. now destruct pre.
    + destruct pre as [|e1 pre]; [discriminate|].
      injection Hevs as <- Hevs.
      destruct pre as [|e2 pre]; [discriminate|].
      injection Hevs as <- Hevs.
      destruct (IH _ _ _ _ _ _ Hevs) as (before & -> & Hf & Hpost).
      exists (EvScrape link :: EvSleep 2 :: before).
      rewrite <- app_assoc in Hf. auto.
Qed.

Lemma split_after_loop (loop_evs step5_evs pre post : list event) (e : event) :
  Forall (fun e' => is_step5 e' = false) loop_evs ->
  is_step5 e = true ->
  loop_evs ++ step5_evs = pre ++ e :: post ->
  exists pre', pre = loop_evs ++ pre' /\ step5_evs = pre' ++ e :: post.
Proof.
  intros Hloop He. revert pre.
  induction Hloop as [|e0 evs He0 _ IH]; intros pre Hsplit.
  - exists pre. auto.
  - destruct pre as [|e1 pre]; cbn in Hsplit.
    + injection Hsplit as -> _. congruence.
    + injection Hsplit as <- Hsplit.
      destruct (IH pre Hsplit) as (pre' & -> & ->). exists pre'. auto.
Qed.

(** X23.  The extractor is only ever called on the text of the page that
    was fetched just before, for the same URL, and that text is not empty
    and has 8000 characters at most.  The pause follows at once, unless the
    call is the last of the run: then the run raised what [urlparse] raised
    on that URL in the regex fallback. *)
#[warnings="-abstract-large-number"]
Theorem extractor_gets_the_text_just_fetched
    (env : Env) (cfg : Config) (search_query : string) (num_results : Z)
    (h pre post : list event) (content : string) (url : value) :
  snd (generate_leads_dataframe env cfg search_query num_results h)
    = pre ++ EvExtract content url :: post ->
  exists before html,
    pre = before ++ [EvScrape url] /\
    chrome_page_source env (h ++ before) url = Some html /\
    content = clean_html_content env html /\
    content <> "" /\
    (String.length content <= 8000)%nat /\
    ((exists after, post = EvSleep 2 :: after) \/
     (post = [] /\
      exists e,
        fst (generate_leads_dataframe env cfg search_query num_results h)
        = Raise e /\
        company_name env url = Raise e)).
Proof.
  intros Hsplit.
  destruct (generate_leads_dataframe_parts env cfg search_query num_results h)
    as (loop_evs & Hloop & [(Hevs & _)|(batch & step5 & Hstep5 & _ & Hevs
                                        & Hout)]);
    rewrite Hevs in Hsplit.
  - exfalso. rewrite Hsplit in Hloop.
    apply Forall_app in Hloop as [_ Hbad].
    inversion Hbad as [|? ? He _]. discriminate.
  - destruct (split_after_loop loop_evs (snd step5) pre post
                (EvExtract content url) Hloop eq_refl Hsplit)
      as (pre' & -> & Hstep).
    rewrite Hstep5 in Hstep.
    destruct (scrape_and_extract_extractions env _ [] _ pre' content url post
                Hstep) as (before & -> & Hfetch & Hpost).
    rewrite <- app_assoc in Hfetch.
    destruct (fetched_text env _ url content Hfetch)
      as (Hne & html & Hpage & Hclean).
    exists (loop_evs ++ before), html.
    rewrite <- app_assoc.
    split; [reflexivity|]. split; [exact Hpage|]. split; [exact Hclean|].
    split; [exact Hne|]. split.
    + rewrite Hclean. unfold clean_html_content.
      rewrite length_substring_0. apply Nat.le_min_l.
    + destruct Hpost as [Hpause|(-> & e & Hraise & Hname)]; [now left|].
      right. split; [reflexivity|]. exists e. split; [|exact Hname].
      rewrite Hout, Hstep5, Hraise. reflexivity.
Qed.

Lemma extractor_gets_the_text_just_fetched_witness :
  exists before,
    [EvSearch "roofers" 2;
     EvJudge [hit "Acme" "https://acme.example";
              hit "Bolt" "https://bolt.example"] "roofers";
     EvScrape (VStr "https://acme.example")]
    = before ++ [EvScrape (VStr "https://acme.example")].
Proof.
  destruct (extractor_gets_the_text_just_fetched unscored_env default_config
              "roofers" 1 []
              [EvSearch "roofers" 2;
               EvJudge [hit "Acme" "https://acme.example";
                        hit "Bolt" "https://bolt.example"] "roofers";
               EvScrape (VStr "https://acme.example")]
              [EvSleep 2] "<html>Acme</html>" (VStr "https://acme.example")
              eq_refl)
    as (before & _ & Hpre & _).
  exists before. exact Hpre.
Defined.

(* ================================================================== *)
(** ** Frames of fallback records *)

Lemma filter_all {A : Type} (p : A -> bool) (xs : list A) :
  (forall x, In x xs -> p x = true) -> filter p xs = xs.
Proof.
  induction xs as [|x xs IH]; intros Hall; [reflexivity|].
  cbn. rewrite (Hall x) by now left.
  f_equal. apply IH. intros y Hy. apply Hall. now right.
Qed.

Lemma column_order_split : column_order = lead_fields ++ metadata_fields.
Proof. reflexivity. Qed.

(** The record of a candidate whose extraction did not parse holds what
    the regex fallback made. *)
Lemma fallback_record (env : Env) (result lead : dict) :
  (forall h content url lead_data,
     groq_extract env h content url <> Parsed lead_data) ->
  record_of env result lead ->
  has_metadata lead /\
  exists link content, fallback_made env link content lead.
Proof.
  intros Hdown (h & title & link & content & _ & _ & Hlead).
  split; [exact (lead_record_has_metadata _ _ _ _ _ _ _ Hlead)|].
  exists link, content.
  rewrite lead_record_eq in Hlead.
  destruct (groq_extract env (h ++ [EvScrape link]) content link)
    as [lead_data| |] eqn:Hllm;
    [exfalso; exact (Hdown _ _ _ _ Hllm)| |];
    (destruct (_create_fallback_lead_data env link content) as [lead_data|e]
       eqn:Hfb; [|discriminate]);
    injection Hlead as <-;
    now apply add_metadata_fallback_made, fallback_is_made.
Qed.

(** X24.  With an extractor that never yields a parsed object, a frame
    with rows has all twenty-one columns, in the fixed order; in every row
    each of the fifteen lead fields holds a string, "N/A" for the nine
    fields the fallback does not observe, and the capture time is there. *)
Theorem fallback_frames_are_complete
    (env : Env) (cfg : Config) (search_query : string) (num_results : Z)
    (h : list event) (df : DataFrame) :
  (forall h' content url lead_data,
     groq_extract env h' content url <> Parsed lead_data) ->
  fst (generate_leads_dataframe env cfg search_query num_results h) = Ok df ->
  rows df <> [] ->
  columns df = column_order /\
  forall row, In row (rows df) ->
    (forall col, In col lead_fields ->
       exists s, cell column_order row col = Some (VStr s)) /\
    (forall col, In col unobserved_fields ->
       cell column_order row col = Some (VStr "N/A")) /\
    (exists scraped_at,
       cell column_order row "scraped_at" = Some (VStr scraped_at)).
Proof.
  intros Hdown Hok Hrows.
  destruct (generate_leads_dataframe_parts env cfg search_query num_results h)
    as (loop_evs & _ & [(_ & [Hout|Hout])|(batch & step5 & Hstep5 & _ & _
                                          & Hout)]);
    rewrite Hout in Hok.
  - injection Hok as <-. contradiction.
  - discriminate.
  - destruct (fst step5) as [all_leads|e] eqn:Hrun; [|discriminate].
    injection Hok as <-. subst step5.
    destruct (scrape_and_extract_records env _ _ all_leads Hrun)
      as (kept & _ & Hrec).
    destruct all_leads as [|l ls]; [contradiction|].
    assert (Hlead : forall lead, In lead (l :: ls) ->
              has_metadata lead /\
              exists link content, fallback_made env link content lead).
    { intros lead Hin.
      destruct (Forall2_In_r _ _ _ lead Hrec Hin) as (result & _ & Hone).
      now apply (fallback_record env result lead Hdown). }
    assert (Hcols : available_columns (l :: ls) = column_order).
    { unfold available_columns. apply filter_all. intros col Hcol.
      apply existsb_exists. exists l. split; [now left|].
      destruct (Hlead l (or_introl eq_refl))
        as (Hmeta & link & content & Hfields & _).
      rewrite column_order_split in Hcol.
      apply in_app_or in Hcol as [Hcol|Hcol].
      - destruct (Hfields col Hcol) as [s Hs]. unfold dict_has.
        now rewrite Hs.
      - now apply Hmeta. }
    pose proof (rows_of_records env (l :: ls) column_order kept (l :: ls)
                  metadata_in_column_order Hrec) as Hcells.
    unfold to_frame, frame_of in *. cbn [rows columns] in *.
    rewrite Hcols in *.
    split; [reflexivity|].
    intros row Hrow.
    destruct (Forall2_In_r _ _ _ row Hcells Hrow)
      as (result & _ & _ & _ & _ & _ & _ & Htime).
    apply in_map_iff in Hrow as (lead & <- & Hin).
    destruct (Hlead lead Hin)
      as (_ & link & content & Hfields & Hna & _).
    split; [|split; [|exact Htime]].
    + intros col Hcol. destruct (Hfields col Hcol) as [s Hs].
      exists s. rewrite cell_of_map.
      * unfold frame_cell. now rewrite Hs.
      * rewrite column_order_split. apply in_or_app. now left.
    + intros col Hcol. rewrite cell_of_map.
      * unfold frame_cell. now rewrite (Hna col Hcol).
      * rewrite column_order_split. apply in_or_app. left.
        now apply unobserved_lead_field.
Qed.

Lemma fallback_frames_are_complete_witness :
  exists df,
    fst (generate_leads unscored_env "roofers" 1 []) = Ok df /\
    columns df = column_order.
Proof.
  assert (Hok : exists df row,
            fst (generate_leads unscored_env "roofers" 1 []) = Ok df /\
            rows df = [row])
    by (do 2 eexists; split; reflexivity).
  destruct Hok as (df & row & Hok & Hrows).
  exists df. split; [exact Hok|].
  apply (fallback_frames_are_complete unscored_env default_config
           "roofers" 1 [] df).
  - intros h' content url lead_data. discriminate.
  - exact Hok.
  - rewrite Hrows. discriminate.
Defined.
